(** * Raft: a verification development for the build orchestrator

    The development embeds the TypeScript sources of the repository
    ([Src/Raft/Raft.ts], [Src/Raft/Project.ts] and the top-level [build]
    entry point) as Rocq functions and proves properties of them.

    Layout: the definitions come first (the Node.js runtime pieces the
    sources call, then the sources themselves, module by module), the
    lemmas and theorems follow. *)

From Stdlib Require Import Ascii.
From stdpp Require Import base tactics option list strings pretty gmap.

#[local] Arguments String.append !_ _ / : simpl nomatch.

(* ===================================================================== *)
(** * Part I: definitions                                                  *)
(* ===================================================================== *)

(** ** JavaScript strings

    The few primitives of JavaScript strings and arrays of strings that the
    sources and Node's [path] module use. *)
Module JS.

Definition slash : ascii := "/"%char.

Definition is_slash (c : ascii) : bool := bool_decide (c = slash).

(** [s === t] on strings. *)
Definition str_eqb (s t : string) : bool := bool_decide (s = t).

(** Truthiness of a string: only the empty string is falsy. *)
Definition truthy (s : string) : bool := negb (str_eqb s "").

(** Truthiness of a string that may be [undefined]. *)
Definition truthy_opt (s : option string) : bool :=
  match s with
  | Some s => truthy s
  | None => false
  end.

(** [s.charAt(0) === '/'] *)
Definition starts_with_slash (s : string) : bool :=
  match s with
  | String c _ => is_slash c
  | EmptyString => false
  end.

(** [s[s.length - 1] === '/'] (false on the empty string). *)
Fixpoint ends_with_slash (s : string) : bool :=
  match s with
  | EmptyString => false
  | String c EmptyString => is_slash c
  | String _ s' => ends_with_slash s'
  end.

(** [s.charCodeAt(i) === 47]; out of range compares unequal. *)
Definition slash_at (s : string) (i : nat) : bool :=
  match String.get i s with
  | Some c => is_slash c
  | None => false
  end.

(** [s.slice(0, n)] *)
Definition slice0 (n : nat) (s : string) : string := String.substring 0 n s.

(** [s.split('/')]: never the empty array, [''.split('/')] is [['']]. *)
Fixpoint split (s : string) : list string :=
  match s with
  | EmptyString => [""]
  | String c s' =>
      if is_slash c then "" :: split s'
      else match split s' with
           | h :: t => String c h :: t
           | [] => [String c ""]
           end
  end.

(** [parts.join(sep)] *)
Fixpoint join (sep : string) (parts : list string) : string :=
  match parts with
  | [] => ""
  | [p] => p
  | p :: rest => p +:+ sep +:+ join sep rest
  end.

End JS.

(** ** Node's [path] module, POSIX flavour

    [Path] in [Raft.ts] delegates to [npath.join], [npath.dirname] and
    [npath.parse].  They are modelled here after Node's POSIX
    implementation: [normalize] and [join] split the string at slashes and
    resolve the parts on a stack, [dirname] and [parse] scan the string from
    its end.  Of [parse] only the fields [root] and [dir] are modelled, the
    ones [Path.isRoot] reads. *)
Module NodePath.
Import JS.

Definition isAbsolute (path : string) : bool := starts_with_slash path.

(** The stack [res] is a JavaScript array: [push] appends at the end,
    [pop] removes the last element. *)
Fixpoint normalizeArray_from (res parts : list string) (allowAboveRoot : bool)
  : list string :=
  match parts with
  | [] => res
  | p :: rest =>
      if str_eqb p "" || str_eqb p "." then
        normalizeArray_from res rest allowAboveRoot
      else if str_eqb p ".." then
        match last res with
        | Some top =>
            if negb (str_eqb top "..") then
              normalizeArray_from (removelast res) rest allowAboveRoot
            else if allowAboveRoot then
              normalizeArray_from (res ++ [".."]) rest allowAboveRoot
            else normalizeArray_from res rest allowAboveRoot
        | None =>
            if allowAboveRoot then
              normalizeArray_from (res ++ [".."]) rest allowAboveRoot
            else normalizeArray_from res rest allowAboveRoot
        end
      else normalizeArray_from (res ++ [p]) rest allowAboveRoot
  end.

Definition normalizeArray (parts : list string) (allowAboveRoot : bool)
  : list string :=
  normalizeArray_from [] parts allowAboveRoot.

Definition normalize (path : string) : string :=
  let isAbs := isAbsolute path in
  let trailingSlash := ends_with_slash path in
  let path1 := JS.join "/" (normalizeArray (split path) (negb isAbs)) in
  let path2 := if negb (truthy path1) && negb isAbs then "." else path1 in
  let path3 := if truthy path2 && trailingSlash then path2 +:+ "/" else path2 in
  (if isAbs then "/" else "") +:+ path3.

(** The loop of [join]: empty segments are skipped, the others are
    concatenated with a slash in between. *)
Fixpoint join_loop (path : string) (segments : list string) : string :=
  match segments with
  | [] => path
  | segment :: rest =>
      if truthy segment then
        if negb (truthy path) then join_loop (path +:+ segment) rest
        else join_loop (path +:+ "/" +:+ segment) rest
      else join_loop path rest
  end.

Definition join (segments : list string) : string :=
  normalize (join_loop "" segments).

(** The scan of [dirname]: [i] runs from [path.length - 1] down to [1];
    the result is [end], [None] standing for [-1]. *)
Fixpoint dirname_scan (path : string) (i : nat) (matchedSlash : bool)
  : option nat :=
  match i with
  | O => None
  | S i' =>
      if slash_at path i then
        if negb matchedSlash then Some i
        else dirname_scan path i' matchedSlash
      else dirname_scan path i' false
  end.

Definition dirname (path : string) : string :=
  if (String.length path =? 0)%nat then "."
  else
    let hasRoot := slash_at path 0 in
    match dirname_scan path (String.length path - 1) true with
    | None => if hasRoot then "/" else "."
    | Some e => if hasRoot && (e =? 1)%nat then "//" else slice0 e path
    end.

(** The scan of [parse]: [i] runs from [path.length - 1] down to [start];
    [n] counts the iterations left, so [i = start + n - 1].  The result is
    [startPart]. *)
Fixpoint parse_scan (path : string) (start n : nat) (matchedSlash : bool)
  : nat :=
  match n with
  | O => 0
  | S n' =>
      let i := start + n' in
      if slash_at path i then
        if negb matchedSlash then i + 1
        else parse_scan path start n' matchedSlash
      else parse_scan path start n' false
  end.

Record ParsedPath := { root : string; dir : string }.

Definition parse (path : string) : ParsedPath :=
  if (String.length path =? 0)%nat then {| root := ""; dir := "" |}
  else
    let isAbs := slash_at path 0 in
    let start := if isAbs then 1 else 0 in
    let startPart := parse_scan path start (String.length path - start) true in
    {| root := if isAbs then "/" else "";
       dir := if (0 <? startPart)%nat then slice0 (startPart - 1) path
              else if isAbs then "/" else "" |}.

End NodePath.

(** ** The file system

    What [fs.accessSync], [fs.readFile] and the [mkdirp] package see.  A file
    system maps the resolved location of an entry, the list of its
    components below the root, to a file or a directory; the root directory
    itself always exists.  Paths are resolved lexically against the current
    working directory, as [path.resolve] does (there are no symbolic
    links). *)
Module Fs.

Inductive Node :=
| File (data : string)
| Directory.

Inductive Errno := EEXIST | ENOENT | ENOTDIR | EISDIR.

Record FS := {
  entries : gmap (list string) Node;
  cwd : list string
}.

Definition resolve (fs : FS) (path : string) : list string :=
  NodePath.normalizeArray
    ((if NodePath.isAbsolute path then [] else cwd fs) ++ JS.split path) false.

Definition stat (fs : FS) (k : list string) : option Node :=
  match k with
  | [] => Some Directory
  | _ => entries fs !! k
  end.

Definition isDirectory (fs : FS) (k : list string) : bool :=
  match stat fs k with
  | Some Directory => true
  | _ => false
  end.

(** The walk of the system along the parts of a path, from the location
    [from]: every part is looked up in a directory; [..] leads to the
    parent, an empty part and [.] lead nowhere.  [None] when a part is
    missing, or is looked up in what is not a directory. *)
Fixpoint walk (fs : FS) (from : list string) (parts : list string)
  : option (list string) :=
  match parts with
  | [] => Some from
  | part :: rest =>
      if isDirectory fs from then
        if JS.str_eqb part "" || JS.str_eqb part "." then walk fs from rest
        else if JS.str_eqb part ".." then walk fs (removelast from) rest
        else
          match stat fs (from ++ [part]) with
          | Some _ => walk fs (from ++ [part]) rest
          | None => None
          end
      else None
  end.

(** [fs.accessSync(path, fs.F_OK)] does not throw: the path is not empty
    and the walk along it, from the root or from the working directory,
    arrives. *)
Definition accessible (fs : FS) (path : string) : bool :=
  if JS.str_eqb path "" then false
  else
    match walk fs (if NodePath.isAbsolute path then [] else cwd fs) (JS.split path) with
    | Some _ => true
    | None => false
    end.

Definition readFile (fs : FS) (path : string) : Errno + string :=
  match stat fs (resolve fs path) with
  | Some (File data) => inr data
  | Some Directory => inl EISDIR
  | None => inl ENOENT
  end.

(** [fs.mkdir] on a resolved location. *)
Definition mkdir (fs : FS) (k : list string) : Errno + FS :=
  match stat fs k with
  | Some _ => inl EEXIST
  | None =>
      match stat fs (removelast k) with
      | None => inl ENOENT
      | Some (File _) => inl ENOTDIR
      | Some Directory =>
          inr {| entries := <[k := Directory]> (entries fs); cwd := cwd fs |}
      end
  end.

(** [mkdirP] of the [mkdirp] package: try [mkdir]; on [ENOENT] make the
    parent and try again; on any other error succeed if the location is a
    directory by now.  The result is the error passed to the callback,
    [None] when there is none.  The outer [option] is [None] when the
    recursion depth [fuel] is used up. *)
Fixpoint mkdirP (fuel : nat) (k : list string) (fs : FS)
  : option (option Errno * FS) :=
  match fuel with
  | O => None
  | S fuel' =>
      match mkdir fs k with
      | inr fs' => Some (None, fs')
      | inl ENOENT =>
          match mkdirP fuel' (removelast k) fs with
          | None => None
          | Some (Some er, fs') => Some (Some er, fs')
          | Some (None, fs') => mkdirP fuel' k fs'
          end
      | inl er =>
          if isDirectory fs k then Some (None, fs) else Some (Some er, fs)
      end
  end.

(** [mkdirp(path, callback)].  The depth [length k + 2] is never used up
    (lemma [mkdirP_enough_fuel] below), the [None] branch is dead. *)
Definition mkdirp (fs : FS) (path : string) : option Errno * FS :=
  let k := resolve fs path in
  match mkdirP (length k + 2) k fs with
  | Some r => r
  | None => (Some ENOENT, fs)
  end.

End Fs.

(** ** The manifest and the object heap

    [JSON.parse] builds fresh objects, [Array.prototype.slice] a fresh array
    sharing its elements with the original: arrays and descriptors live in a
    heap and are handled through their locations. *)
Module RaftFile.

(** [type] is [None] when the manifest leaves it out. *)
Record RepositoryDescriptor := {
  type : option string;
  location : string
}.

Record DependencyDescriptor := {
  name : string;
  repository : RepositoryDescriptor;
  buildSystem : string
}.

(** The content of [raftfile.json] as a value; [dependencies] is [None]
    when the manifest has no such member. *)
Record Root := { dependencies : option (list DependencyDescriptor) }.

End RaftFile.

Module Heap.

Definition loc := positive.

Inductive Obj :=
| ObjDescriptor (d : RaftFile.DependencyDescriptor)
| ObjArray (elements : list loc)
| ObjRoot (dependencies : option loc).

Definition alloc (o : Obj) (h : gmap loc Obj) : loc * gmap loc Obj :=
  let l := fresh (dom h) in (l, <[l := o]> h).

Fixpoint alloc_all (os : list Obj) (h : gmap loc Obj) : list loc * gmap loc Obj :=
  match os with
  | [] => ([], h)
  | o :: os' =>
      let '(l, h1) := alloc o h in
      let '(ls, h2) := alloc_all os' h1 in
      (l :: ls, h2)
  end.

(** The object graph [JSON.parse] builds for a manifest. *)
Definition alloc_root (r : RaftFile.Root) (h : gmap loc Obj) : loc * gmap loc Obj :=
  match RaftFile.dependencies r with
  | Some descriptors =>
      let '(ds, h1) := alloc_all (map ObjDescriptor descriptors) h in
      let '(a, h2) := alloc (ObjArray ds) h1 in
      alloc (ObjRoot (Some a)) h2
  | None => alloc (ObjRoot None) h
  end.

(** [array.slice(0)] *)
Definition slice0 (a : loc) (h : gmap loc Obj) : option (loc * gmap loc Obj) :=
  match h !! a with
  | Some (ObjArray elements) => Some (alloc (ObjArray elements) h)
  | _ => None
  end.

(** [array[i] = x]; JavaScript extends the array when [i] is out of
    range, the gap being holes; only the in-range case and the append at
    [i = length] are modelled, other indices leave the array as it is. *)
Definition array_set (a : loc) (i : nat) (x : loc) (h : gmap loc Obj) : gmap loc Obj :=
  match h !! a with
  | Some (ObjArray elements) =>
      if bool_decide (i = length elements)
      then <[a := ObjArray (elements ++ [x])]> h
      else <[a := ObjArray (<[i := x]> elements)]> h
  | _ => h
  end.

(** [array.push(x)] *)
Definition array_push (a : loc) (x : loc) (h : gmap loc Obj) : gmap loc Obj :=
  match h !! a with
  | Some (ObjArray elements) => <[a := ObjArray (elements ++ [x])]> h
  | _ => h
  end.

(** [array.pop()] *)
Definition array_pop (a : loc) (h : gmap loc Obj) : gmap loc Obj :=
  match h !! a with
  | Some (ObjArray elements) => <[a := ObjArray (removelast elements)]> h
  | _ => h
  end.

(** A change made to an array through its location. *)
Inductive Mutation :=
| SetAt (i : nat) (x : loc)
| Push (x : loc)
| Pop.

Definition mutate (a : loc) (m : Mutation) (h : gmap loc Obj) : gmap loc Obj :=
  match m with
  | SetAt i x => array_set a i x h
  | Push x => array_push a x h
  | Pop => array_pop a h
  end.

Definition mutate_all (a : loc) (ms : list Mutation) (h : gmap loc Obj)
  : gmap loc Obj :=
  foldl (λ h m, mutate a m h) h ms.

End Heap.

(** ** Promises and the world they run in

    A promise chain is a tree of operations on the outside world: a result,
    a rejection, or an operation followed by what is done with its answer.
    [bind] is [.then] with a success callback.  The operations are the
    calls the sources make into Node and its packages. *)
Module Runtime.

Inductive Error :=
| JsError (message : string)      (* [throw Error(message)] *)
| TypeError                       (* a property of [undefined] or [null] *)
| SyntaxError                     (* [JSON.parse] *)
| RejectedNull                    (* [Promise.reject(null)] *)
| FsError (code : Fs.Errno)
| ExecError (stderr : string).    (* [child_process.exec] failed *)

Record ProcessOutput := { stdout : string; stderr : string }.

Inductive Op : Type -> Type :=
| ConsoleLog (tag message : string) : Op unit
| AccessSync (path : string) : Op bool
| ReadFile (path : string) : Op (Fs.Errno + string)
| Mkdirp (path : string) : Op (option Fs.Errno)
| Exec (command : string) (cwd : option string) : Op (Error + ProcessOutput)
| ProcessCwd : Op string
| JsonParse (data : string) : Op (option Heap.loc)
| JsonStringify (l : Heap.loc) : Op string
| Deref (l : Heap.loc) : Op (option Heap.Obj)
| ArraySlice0 (a : Heap.loc) : Op (option Heap.loc).

Inductive Task (A : Type) : Type :=
| Ret (a : A)
| Throw (e : Error)
| Vis (X : Type) (op : Op X) (k : X -> Task A).
Arguments Ret {A} a.
Arguments Throw {A} e.
Arguments Vis {A X} op k.

Fixpoint bind {A B : Type} (t : Task A) (f : A -> Task B) : Task B :=
  match t with
  | Ret a => f a
  | Throw e => Throw e
  | Vis op k => Vis op (fun x => bind (k x) f)
  end.

(** [.catch(handler)] *)
Fixpoint catch {A : Type} (t : Task A) (f : Error -> Task A) : Task A :=
  match t with
  | Ret a => Ret a
  | Throw e => f e
  | Vis op k => Vis op (fun x => catch (k x) f)
  end.

Definition call {X : Type} (op : Op X) : Task X := Vis op Ret.

(** What the outside world decides: how a spawned command ends and what
    it does to the file system, what [JSON.parse] makes of a text ([None]
    for a text it rejects) and what [JSON.stringify] prints. *)
Record Host := {
  spawn : string -> option string -> Fs.FS -> (Error + ProcessOutput) * Fs.FS;
  json : string -> option RaftFile.Root;
  stringify : gmap Heap.loc Heap.Obj -> Heap.loc -> string
}.

Inductive Event :=
| Logged (tag message : string)
| Executed (command : string) (cwd : option string) (ok : bool)
| MadeDirectory (path : string) (ok : bool).

(** [trace] lists the log lines and the external commands in the order
    they happened, the oldest first. *)
Record World := {
  fs : Fs.FS;
  heap : gmap Heap.loc Heap.Obj;
  trace : list Event;
  host : Host
}.

Definition set_fs (f : Fs.FS) (w : World) : World :=
  {| fs := f; heap := heap w; trace := trace w; host := host w |}.
Definition set_heap (h : gmap Heap.loc Heap.Obj) (w : World) : World :=
  {| fs := fs w; heap := h; trace := trace w; host := host w |}.
Definition emit (e : Event) (w : World) : World :=
  {| fs := fs w; heap := heap w; trace := trace w ++ [e]; host := host w |}.

Definition is_inr {A B : Type} (x : A + B) : bool :=
  match x with inr _ => true | inl _ => false end.

Definition handle {X : Type} (op : Op X) (w : World) : X * World :=
  match op in Op X return X * World with
  | ConsoleLog tag message => (tt, emit (Logged tag message) w)
  | AccessSync path => (Fs.accessible (fs w) path, w)
  | ReadFile path => (Fs.readFile (fs w) path, w)
  | Mkdirp path =>
      let '(er, fs') := Fs.mkdirp (fs w) path in
      (er, emit (MadeDirectory path (bool_decide (er = None))) (set_fs fs' w))
  | Exec command cwd =>
      let '(r, fs') := spawn (host w) command cwd (fs w) in
      (r, emit (Executed command cwd (is_inr r)) (set_fs fs' w))
  | ProcessCwd => ("/" +:+ JS.join "/" (Fs.cwd (fs w)), w)
  | JsonParse data =>
      match json (host w) data with
      | Some r => let '(l, h) := Heap.alloc_root r (heap w) in (Some l, set_heap h w)
      | None => (None, w)
      end
  | JsonStringify l => (stringify (host w) (heap w) l, w)
  | Deref l => (heap w !! l, w)
  | ArraySlice0 a =>
      match Heap.slice0 a (heap w) with
      | Some (l, h) => (Some l, set_heap h w)
      | None => (None, w)
      end
  end.

Inductive Outcome (A : Type) :=
| Resolved (a : A)
| Rejected (e : Error).
Arguments Resolved {A} a.
Arguments Rejected {A} e.

(** Running a promise chain to its end, nothing else going on. *)
Fixpoint run {A : Type} (t : Task A) (w : World) : Outcome A * World :=
  match t with
  | Ret a => (Resolved a, w)
  | Throw e => (Rejected e, w)
  | Vis op k => let '(x, w') := handle op w in run (k x) w'
  end.

(** One operation of a promise chain; a settled chain stays as it is. *)
Definition advance {A : Type} (t : Task A) (w : World) : Task A * World :=
  match t with
  | Vis op k => let '(x, w') := handle op w in (k x, w')
  | _ => (t, w)
  end.

Definition settled {A : Type} (t : Task A) : bool :=
  match t with Vis _ _ => false | _ => true end.

Definition fulfilled {A : Type} (t : Task A) : bool :=
  match t with Ret _ => true | _ => false end.


End Runtime.

#[global] Instance Task_ret : MRet Runtime.Task := @Runtime.Ret.
#[global] Instance Task_bind : MBind Runtime.Task :=
  fun A B f t => Runtime.bind t f.

(** ** [Src/Raft/Raft.ts] *)
Module Raft.
Import JS Runtime.

Definition raftlog (tag message : string) : Task unit :=
  call (ConsoleLog tag message).

(** What [console.log] prints for a [raftlog] call. *)
Definition rendered (tag message : string) : string :=
  tag +:+ ":: " +:+ message.

(** [Promise<any>]: the callers drop the value. *)
Definition any {A : Type} (t : Task A) : Task unit := _ ← t; Ret tt.

Record Path := mkPath { path : string }.

(** An argument of [append], of type [string|Path]. *)
Inductive Segment :=
| Str (s : string)
| Obj (p : Path).

Module Path.

Definition toString (this : Path) : string := path this.

Definition segmentToString (s : Segment) : string :=
  match s with
  | Str s => s
  | Obj p => toString p
  end.

Definition append (this : Path) (paths : list Segment) : Path :=
  let asStrings := map segmentToString paths in
  mkPath (NodePath.join (path this :: asStrings)).

Definition parent (this : Path) : Path :=
  mkPath (NodePath.dirname (path this)).

Definition isRoot (this : Path) : bool :=
  let parsedPath := NodePath.parse (path this) in
  str_eqb (NodePath.root parsedPath) (NodePath.dir parsedPath)
  && negb (str_eqb (NodePath.root parsedPath) "").

(** [exists()]: [fs.accessSync] in a [try]. *)
Definition exists_ (this : Path) : Task bool :=
  call (AccessSync (path this)).

Definition createDirectory (this : Path) : Task bool :=
  catch
    (_ ← (er ← call (Mkdirp (path this));
          match er with
          | None => Ret tt
          | Some code => Throw (FsError code)
          end);
     Ret true)
    (fun error => Ret false).

Definition cwd : Task Path :=
  s ← call ProcessCwd; Ret (mkPath s).

End Path.

Module System.

Record ExecuteOptions := {
  cwd : option Path;
  tag : option string
}.

Definition execute (command : string) (options : option ExecuteOptions)
  : Task ProcessOutput :=
  let options := default {| cwd := None; tag := None |} options in
  let tag :=
    match tag options with
    | Some t => if truthy t then t else command
    | None => command
    end in
  let '(start, nodeOptions_cwd) :=
    match cwd options with
    | Some dir =>
        (raftlog command ("Running in " +:+ Path.toString dir);;
         created ← Path.createDirectory dir;
         if created : bool
         then raftlog tag ("Created " +:+ Path.toString dir)
         else Ret tt,
         Some (Path.toString dir))
    | None =>
        (raftlog tag "Running in the current working directory", None)
    end in
  start;;
  buffers ← (r ← call (Exec command nodeOptions_cwd);
             match r with
             | inl e => Throw e
             | inr out => Ret out
             end);
  raftlog tag "Finished successfullly";;
  Ret buffers.

End System.

Module Git.
Definition getRepo (uri : string) (destination : Path) : Task ProcessOutput :=
  System.execute ("git clone " +:+ uri +:+ " " +:+ Path.toString destination) None.
End Git.

Module CMake.

(** [options] is an object used as a map; [_.pairs] lists its entries in
    insertion order. *)
Definition configure (srcPath buildPath : Path) (options : list (string * string))
  : Task ProcessOutput :=
  let cmdOptions :=
    JS.join " " (map (fun option => "-D" +:+ option.1 +:+ "=" +:+ option.2) options) in
  System.execute ("cmake " +:+ Path.toString srcPath +:+ " " +:+ cmdOptions)
    (Some {| System.cwd := Some buildPath; System.tag := None |}).

Definition build (buildPath : Path) : Task ProcessOutput :=
  System.execute "make -j8"
    (Some {| System.cwd := Some buildPath; System.tag := None |}).

Definition install (buildPath : Path) : Task ProcessOutput :=
  System.execute "make install"
    (Some {| System.cwd := Some buildPath; System.tag := None |}).

End CMake.

Record Build := {
  platform : string;
  architecture : string
}.

Record Project := { root : Path }.

Module Project.

Definition RAFT_DIR : Path := mkPath "Raft".
Definition DEPENDENCY_DIR : Path := Path.append RAFT_DIR [Str "libs"].
Definition DEPENDENCY_SRC_DIR : Path := Path.append DEPENDENCY_DIR [Str "src"].
Definition DEPENDENCY_BUILD_DIR : Path := Path.append DEPENDENCY_DIR [Str "build"].
Definition DEPENDENCY_INSTALL_DIR : Path := Path.append DEPENDENCY_DIR [Str "install"].

(** The [while] loop of [find]: [None] when it has not ended after
    [fuel] tests of its condition.  [_.last] of the never empty [paths]
    is defined. *)
Fixpoint find_loop (fuel : nat) (paths : list Path) : option (list Path) :=
  match fuel with
  | O => None
  | S fuel' =>
      match last paths with
      | Some l =>
          if negb (Path.isRoot l)
          then find_loop fuel' (paths ++ [Path.parent l])
          else Some paths
      | None => None
      end
  end.

(** [_.filter] with a predicate that looks at the file system. *)
Fixpoint filter_exists (raftDir : Path) (paths : list Path) : Task (list Path) :=
  match paths with
  | [] => Ret []
  | p :: rest =>
      b ← Path.exists_ (Path.append p [Obj raftDir]);
      kept ← filter_exists raftDir rest;
      Ret (if b : bool then p :: kept else kept)
  end.

(** [find] returns the project or [null]; the outer [None] is the loop
    that has not ended within [fuel]. *)
Definition find (fuel : nat) (path : Path) : option (Task (option Project)) :=
  let raftDir := mkPath "Raft" in
  match find_loop fuel [path] with
  | None => None
  | Some paths =>
      Some (filtered ← filter_exists raftDir paths;
            match head filtered with
            | Some rootDir => Ret (Some {| root := rootDir |})
            | None => Ret None
            end)
  end.

(** The dependency is read through [dependency.name] only, which is
    what is passed here. *)
Definition dirForDependency (this : Project) (dependency_name : string) : Path :=
  Path.append (root this) [Obj DEPENDENCY_SRC_DIR; Str dependency_name].

Definition dirForDependencyBuild (this : Project) (dependency_name : string)
  (build : Build) : Path :=
  Path.append (root this)
    [Obj DEPENDENCY_BUILD_DIR; Str (platform build); Str (architecture build);
     Str dependency_name].

Definition dirForDependencyInstall (this : Project) (build : Build) : Path :=
  Path.append (root this)
    [Obj DEPENDENCY_INSTALL_DIR; Str (platform build); Str (architecture build)].

End Project.

(** The interfaces [Repository] and [Dependency]. *)
Record Repository := {
  Repository_download : Path -> Task unit
}.

Record Dependency := {
  name : string;
  download : Project -> Build -> Task unit;
  build : Project -> Build -> Task unit;
  install : Project -> Build -> Task unit
}.

Definition GitRepository (uri : string) : Repository :=
  {| Repository_download := fun destination => any (Git.getRepo uri destination) |}.

(** [build] and [install] return [null], which [.then] passes on as a
    value. *)
Definition RepositoryDependency (name : string) (repo : Repository) : Dependency :=
  {| name := name;
     download := fun project build =>
       Repository_download repo (Project.dirForDependency project name);
     build := fun project build => Ret tt;
     install := fun project build => Ret tt |}.

Definition CMakeDependency (name : string) (repo : Repository) : Dependency :=
  {| name := name;
     download := download (RepositoryDependency name repo);
     build := fun project build =>
       let sourceLocation := Project.dirForDependency project name in
       let buildLocation := Project.dirForDependencyBuild project name build in
       let installLocation := Project.dirForDependencyInstall project build in
       let cmakeOptions := [("CMAKE_INSTALL_PREFIX", Path.toString installLocation)] in
       CMake.configure sourceLocation buildLocation cmakeOptions;;
       any (CMake.build buildLocation);
     install := fun project build =>
       any (CMake.install (Project.dirForDependencyBuild project name build)) |}.

Definition createRepository (repoDescriptor : RaftFile.RepositoryDescriptor)
  : Error + Repository :=
  if truthy_opt (RaftFile.type repoDescriptor)
  then inr (GitRepository (RaftFile.location repoDescriptor))
  else inl (JsError "Unknown repository type").

Definition createDependency (dependencyDescriptor : RaftFile.DependencyDescriptor)
  : Error + Dependency :=
  match createRepository (RaftFile.repository dependencyDescriptor) with
  | inl e => inl e
  | inr repo =>
      if str_eqb (RaftFile.buildSystem dependencyDescriptor) "cmake"
      then inr (CMakeDependency (RaftFile.name dependencyDescriptor) repo)
      else inl (JsError "unknown build system type")
  end.

Definition getDependency (project : Project) (dependency : Dependency) (build_ : Build)
  : Task unit :=
  raftlog (name dependency) "Downloading";;
  download dependency project build_;;
  raftlog (name dependency) "Building";;
  build dependency project build_;;
  raftlog (name dependency) "Installing";;
  install dependency project build_;;
  raftlog (name dependency) "Ready".

End Raft.

(** ** [Src/Raft/Project.ts]

    [Path], [BuildConfig] and [CMake] are imported from modules that are
    not among the sources.  [Path] and [CMake] are the ones of [Raft.ts];
    of [BuildConfig.Build] the fields read here are modelled, [platform]
    and [architecture] as the strings [Path.append] takes. *)
Module BuildConfig.
Record Build := {
  isDeploy : bool;
  platform : string;
  architecture : string
}.
End BuildConfig.

Record Project := mkProject {
  root : Raft.Path;
  raftfile : option Heap.loc
}.

Module Project.
Import JS Runtime.
Import Raft (Path, mkPath, Str, Obj, raftlog).

Definition RAFT_DIR : Path := mkPath "Raft".
Definition RAFT_FILE : Path := Raft.Path.append RAFT_DIR [Str "raftfile.json"].
Definition BUILD_DIR : Path := mkPath "build".
Definition DEPENDENCY_DIR : Path := Raft.Path.append RAFT_DIR [Str "libs"].
Definition DEPENDENCY_SRC_DIR : Path := Raft.Path.append DEPENDENCY_DIR [Str "src"].
Definition DEPENDENCY_BUILD_DIR : Path := Raft.Path.append DEPENDENCY_DIR [Str "build"].
Definition DEPENDENCY_INSTALL_DIR : Path :=
  Raft.Path.append DEPENDENCY_DIR [Str "install"].
Definition DEPENDENCY_LIB_DIR : Path := mkPath "lib".
Definition DEPENDENCY_INC_DIR : Path := mkPath "include".

(** Modelled from the spec: [Path.read] is not in [Raft.ts]; the manifest
    is read from the file, a read failure rejects. *)
Definition Path_read (this : Path) : Task string :=
  r ← call (ReadFile (Raft.Path.toString this));
  match r with
  | inl code => Throw (FsError code)
  | inr data => Ret data
  end.

Definition load (this : Project) : Task Project :=
  data ← Path_read (Raft.Path.append (root this) [Obj RAFT_FILE]);
  raftlog "Project Data" data;;
  parsed ← call (JsonParse data);
  match parsed with
  | None => Throw SyntaxError
  | Some l =>
      text ← call (JsonStringify l);
      raftlog "Project Data" text;;
      Ret (mkProject (root this) (Some l))
  end.

(** The loop is the one of [Raft.ts]; the project found is loaded, and
    the promise is rejected with [null] when there is none. *)
Definition find (fuel : nat) (path : Path) : option (Task Project) :=
  let raftDir := mkPath "Raft" in
  match Raft.Project.find_loop fuel [path] with
  | None => None
  | Some paths =>
      Some (filtered ← Raft.Project.filter_exists raftDir paths;
            match head filtered with
            | Some rootDir => load (mkProject rootDir None)
            | None => Throw RejectedNull
            end)
  end.

(** [this.raftfile.dependencies.slice(0)]: the location of the new
    array. *)
Definition dependencies (this : Project) : Task Heap.loc :=
  match raftfile this with
  | None => Throw TypeError
  | Some r =>
      o ← call (Deref r);
      match o with
      | Some (Heap.ObjRoot (Some a)) =>
          copy ← call (ArraySlice0 a);
          match copy with
          | Some a' => Ret a'
          | None => Throw TypeError
          end
      | _ => Throw TypeError
      end
  end.

Definition dirForDependency (this : Project) (name : string) : Path :=
  Raft.Path.append (root this) [Obj DEPENDENCY_SRC_DIR; Str name].

Definition dirForDependencyBuild (this : Project) (name : string)
  (build : BuildConfig.Build) : Path :=
  Raft.Path.append (root this)
    [Obj DEPENDENCY_BUILD_DIR;
     Str (BuildConfig.platform build);
     Str (BuildConfig.architecture build);
     Str name].

Definition dirForDependencyInstall (this : Project) (build : BuildConfig.Build) : Path :=
  Raft.Path.append (root this)
    [Obj DEPENDENCY_INSTALL_DIR;
     Str (BuildConfig.platform build);
     Str (BuildConfig.architecture build)].

Definition dirForDependencyLib (this : Project) (build : BuildConfig.Build) : Path :=
  Raft.Path.append (dirForDependencyInstall this build) [Obj DEPENDENCY_LIB_DIR].

Definition dirForDependencyInc (this : Project) (build : BuildConfig.Build) : Path :=
  Raft.Path.append (dirForDependencyInstall this build) [Obj DEPENDENCY_INC_DIR].

Definition dirForBuild (this : Project) (build : BuildConfig.Build) : Error + Path :=
  if BuildConfig.isDeploy build
  then inl (JsError "deploy has not been implemented")
  else inr (Raft.Path.append (root this) [Obj BUILD_DIR]).

(** [raftCmakeFile] is what [CMake.raftCmakeFile()] returns, a function
    that is not among the sources.  The values are the strings the
    template of [CMake.configure] renders them to. *)
Definition cmakeOptions (raftCmakeFile : Path) (this rootProject : Project)
  (build : BuildConfig.Build) : list (string * string) :=
  [("RAFT", Raft.Path.toString raftCmakeFile);
   ("RAFT_INCLUDE_DIR", Raft.Path.toString (dirForDependencyInc rootProject build));
   ("RAFT_LIB_DIR", Raft.Path.toString (dirForDependencyLib rootProject build));
   ("RAFT_IS_DESKTOP", "true");
   ("RAFT_IS_ANDROID", "false");
   ("CMAKE_INSTALL_PREFIX",
    Raft.Path.toString (Raft.Path.append (root this) [Str "install"]))].

Definition build (raftCmakeFile : Path) (this : Project) (build : BuildConfig.Build)
  : Task unit :=
  match dirForBuild this build with
  | inl e => Throw e
  | inr buildPath =>
      let cmakeOptions := cmakeOptions raftCmakeFile this this build in
      Raft.CMake.configure (root this) buildPath cmakeOptions;;
      Raft.any (Raft.CMake.build buildPath)
  end.

End Project.

(** ** Promise chains running side by side

    [Promise.map(items, mapper).then(() => continuation)] of Bluebird: the
    chains the mapper returned advance in any order, one operation at a
    time; the promise of [Promise.map] is fulfilled when all of them are,
    and then the continuation starts; it is rejected by the first chain
    that is rejected, and nothing cancels the other chains.

    Bluebird is a library the repository calls, it is not among its
    sources; the rules below are the ones of its documentation of
    [Promise.map] (the returned promise is fulfilled when all the mapped
    promises are, and rejected as soon as one of them is) and of [then]
    (the fulfilment handler is called only when the promise is
    fulfilled).  Node runs the callbacks of different chains in an order
    that the program does not fix; every order it can take is among the
    schedules here. *)
Module Bluebird.
Import Runtime.

Record MapThen := {
  mapped : list (Task unit);
  continuation : Task unit
}.

Inductive Joined :=
| Waiting
| Continued (t : Task unit)
| Failed (e : Error).

Record State := {
  chains : list (Task unit);
  after : Task unit;
  joined : Joined;
  world : World
}.

Fixpoint first_rejection (ts : list (Task unit)) : option Error :=
  match ts with
  | [] => None
  | Throw e :: _ => Some e
  | _ :: rest => first_rejection rest
  end.

Definition settle (after : Task unit) (ts : list (Task unit)) (j : Joined) : Joined :=
  match j with
  | Waiting =>
      match first_rejection ts with
      | Some e => Failed e
      | None => if forallb fulfilled ts then Continued after else Waiting
      end
  | _ => j
  end.

Definition initial (m : MapThen) (w : World) : State :=
  {| chains := mapped m;
     after := continuation m;
     joined := settle (continuation m) (mapped m) Waiting;
     world := w |}.

Inductive Turn :=
| Chain (i : nat)
| Continuation.

(** One operation of the chain whose turn it is; [None] when that chain
    has nothing left to do. *)
Definition step (turn : Turn) (s : State) : option State :=
  match turn with
  | Chain i =>
      match chains s !! i with
      | Some t =>
          if settled t then None
          else
            let '(t', w') := advance t (world s) in
            let ts := <[i := t']> (chains s) in
            Some {| chains := ts;
                    after := after s;
                    joined := settle (after s) ts (joined s);
                    world := w' |}
      | None => None
      end
  | Continuation =>
      match joined s with
      | Continued t =>
          if settled t then None
          else
            let '(t', w') := advance t (world s) in
            Some {| chains := chains s;
                    after := after s;
                    joined := Continued t';
                    world := w' |}
      | _ => None
      end
  end.

Fixpoint steps (schedule : list Turn) (s : State) : option State :=
  match schedule with
  | [] => Some s
  | turn :: rest =>
      match step turn s with
      | Some s' => steps rest s'
      | None => None
      end
  end.

(** The continuation has been started. *)
Definition continued (s : State) : bool :=
  match joined s with
  | Continued _ => true
  | _ => false
  end.

End Bluebird.

(** ** The entry point [build] *)
Module Main.
Import JS Runtime.

Record BuildOptions := {
  platform : option string;
  architecture : option string
}.

(** The members of the enumerations [BuildConfig.Platform] and
    [BuildConfig.Architecture] that [build] names; [BuildConfig] is not
    among the sources. *)
Record BuildConfigNames := {
  Platform_Host : string;
  Platform_Android : string;
  Architecture_Host : string;
  Architecture_armeabi : string
}.

Definition upper (c : ascii) : ascii :=
  let n := nat_of_ascii c in
  if (97 <=? n)%nat && (n <=? 122)%nat then ascii_of_nat (n - 32) else c.

(** [s.toUpperCase()], the string given by its UTF-8 bytes: the ASCII
    letters, and the dotless i (U+0131, the bytes 196 and 177), whose
    upper case is [I].  The other characters outside ASCII are left as
    they are: none of them has an upper case made of ASCII letters, and
    the result is only compared with [ANDROID]. *)
Fixpoint toUpperCase (s : string) : string :=
  match s with
  | EmptyString => EmptyString
  | String c s' =>
      match s' with
      | String c' s'' =>
          if (nat_of_ascii c =? 196)%nat && (nat_of_ascii c' =? 177)%nat
          then String "I" (toUpperCase s'')
          else String (upper c) (toUpperCase s')
      | EmptyString => String (upper c) EmptyString
      end
  end.

Definition buildSettings (names : BuildConfigNames) (options : BuildOptions)
  : BuildConfig.Build :=
  if truthy_opt (platform options)
     && str_eqb (toUpperCase (default "" (platform options))) "ANDROID"
  then {| BuildConfig.isDeploy := false;
          BuildConfig.platform := Platform_Android names;
          BuildConfig.architecture := Architecture_armeabi names |}
  else {| BuildConfig.isDeploy := false;
          BuildConfig.platform := Platform_Host names;
          BuildConfig.architecture := Architecture_Host names |}.

(** [_.map(array, descriptor => createDependency(descriptor))] over the
    elements of the array, which are descriptor objects. *)
Fixpoint map_createDependency (elements : list Heap.loc)
  : Task (list Raft.Dependency) :=
  match elements with
  | [] => Ret []
  | l :: rest =>
      o ← call (Deref l);
      match o with
      | Some (Heap.ObjDescriptor d) =>
          match Raft.createDependency d with
          | inl e => Throw e
          | inr dependency =>
              dependencies ← map_createDependency rest;
              Ret (dependency :: dependencies)
          end
      | _ => Throw TypeError
      end
  end.

(** The callback given to [Project.find(...).then]: everything up to the
    call of [Promise.map], and the chains and the continuation it is
    called with.  [RaftFile.createDependency] and
    [Dependency.getDependency] are not among the sources; the functions
    of these names in [Raft.ts] stand for them. *)
Definition build_callback (raftCmakeFile : Raft.Path) (settings : BuildConfig.Build)
  (project : Project) : Task Bluebird.MapThen :=
  a ← Project.dependencies project;
  o ← call (Deref a);
  match o with
  | Some (Heap.ObjArray elements) =>
      dependencies ← map_createDependency elements;
      Raft.raftlog "Project"
        ("Getting " +:+ pretty (length dependencies) +:+ " for the project");;
      Ret {| Bluebird.mapped :=
               map (fun dependency =>
                      Raft.getDependency
                        {| Raft.root := root project |}
                        dependency
                        {| Raft.platform := BuildConfig.platform settings;
                           Raft.architecture := BuildConfig.architecture settings |})
                   dependencies;
             Bluebird.continuation := Project.build raftCmakeFile project settings |}
  | _ => Throw TypeError
  end.

(** [build]: the result is [None] when the loop of [Project.find] has not
    ended within [fuel]. *)
Definition build (fuel : nat) (names : BuildConfigNames) (raftCmakeFile : Raft.Path)
  (options : BuildOptions) : Task (option Bluebird.MapThen) :=
  let settings := buildSettings names options in
  cwd ← Raft.Path.cwd;
  match Project.find fuel cwd with
  | None => Ret None
  | Some found =>
      project ← found;
      m ← build_callback raftCmakeFile settings project;
      Ret (Some m)
  end.

End Main.

(** ** Vocabulary of the statements *)

(** No slash occurs in the string. *)
Fixpoint slash_free (s : string) : bool :=
  match s with
  | EmptyString => true
  | String c s' => negb (JS.is_slash c) && slash_free s'
  end.

(** A path part that [normalizeArray] pushes as it is. *)
Definition plain (s : string) : Prop :=
  s ≠ "" ∧ s ≠ "." ∧ s ≠ ".." ∧ slash_free s = true.

Definition dots (k : nat) : list string := replicate k "..".

(** The shape of what [normalizeArray] returns: leading [..] (only when
    they are allowed), then plain names. *)
Definition normal (allow : bool) (parts : list string) : Prop :=
  ∃ k names,
    parts = dots k ++ names ∧ (allow = false → k = 0) ∧ Forall plain names.

(** [normalize] from the three things it computes from the path. *)
Definition render (isAbs trailingSlash : bool) (parts : list string) : string :=
  let path1 := JS.join "/" parts in
  let path2 := if negb (JS.truthy path1) && negb isAbs then "." else path1 in
  let path3 := if JS.truthy path2 && trailingSlash then path2 +:+ "/" else path2 in
  (if isAbs then "/" else "") +:+ path3.

(** The parsed root of the path is empty. *)
Definition relative (P : Raft.Path) : Prop :=
  NodePath.root (NodePath.parse (Raft.path P)) = "".

(** The chain [P], [parent P], ... up to and including the first path
    with [isRoot]. *)
Inductive ancestor_chain : Raft.Path → list Raft.Path → Prop :=
| chain_root P :
    Raft.Path.isRoot P = true → ancestor_chain P [P]
| chain_parent P chain :
    Raft.Path.isRoot P = false →
    ancestor_chain (Raft.Path.parent P) chain →
    ancestor_chain P (P :: chain).

(** The marker directory [Raft] exists in the candidate. *)
Definition has_marker (w : Runtime.World) (candidate : Raft.Path) : bool :=
  Fs.accessible (Runtime.fs w)
    (Raft.path (Raft.Path.append candidate [Raft.Obj (Raft.mkPath "Raft")])).

(** The tag [execute] logs with: [options.tag || command]. *)
Definition effective_tag (command : string) (options : option Raft.System.ExecuteOptions)
  : string :=
  match options with
  | Some o =>
      match Raft.System.tag o with
      | Some t => if JS.truthy t then t else command
      | None => command
      end
  | None => command
  end.

(** The events an execution adds to the trace. *)
Definition events {A} (t : Runtime.Task A) (w : Runtime.World) : list Runtime.Event :=
  drop (length (Runtime.trace w)) (Runtime.trace (Runtime.run t w).2).

(** The continuation runs only when every chain is fulfilled. *)
Definition joined_ok (s : Bluebird.State) : Prop :=
  Bluebird.continued s = true →
  Forall (λ t, Runtime.fulfilled t = true) (Bluebird.chains s).


(** ** A world for the examples *)
Module Example.
Import Runtime.

(** A host on which every command succeeds and leaves the file system
    alone, and that knows one manifest. *)
Definition manifest : RaftFile.Root :=
  {| RaftFile.dependencies :=
       Some [ {| RaftFile.name := "foo";
                 RaftFile.repository :=
                   {| RaftFile.type := Some "git";
                      RaftFile.location := "https://example/foo.git" |};
                 RaftFile.buildSystem := "cmake" |} ] |}.

Definition host : Host :=
  {| spawn := λ _ _ disk, (inr {| stdout := ""; stderr := "" |}, disk);
     json := λ data, if JS.str_eqb data "manifest" then Some manifest else None;
     stringify := λ _ _, "manifest" |}.

(** A project in [/home/user/game], nested in one in [/home/user]. *)
Definition disk : Fs.FS :=
  {| Fs.entries :=
       list_to_map
         [ (["home"], Fs.Directory);
           (["home"; "user"], Fs.Directory);
           (["home"; "user"; "Raft"], Fs.Directory);
           (["home"; "user"; "game"], Fs.Directory);
           (["home"; "user"; "game"; "Raft"], Fs.Directory);
           (["home"; "user"; "game"; "Raft"; "raftfile.json"], Fs.File "manifest");
           (["home"; "user"; "game"; "src"], Fs.Directory) ];
     Fs.cwd := ["home"; "user"; "game"; "src"] |}.

Definition world : World :=
  {| Runtime.fs := disk; Runtime.heap := ∅; Runtime.trace := [];
     Runtime.host := host |}.


(** The project of [/home/user/game], loaded. *)
Definition loaded : World :=
  (run (Project.load (mkProject (Raft.mkPath "/home/user/game") None)) Example.world).2.

Definition project : Project :=
  mkProject (Raft.mkPath "/home/user/game") (Some 3%positive).

Definition settings : BuildConfig.Build :=
  {| BuildConfig.isDeploy := false;
     BuildConfig.platform := "host";
     BuildConfig.architecture := "host" |}.

Definition raftCmakeFile : Raft.Path := Raft.mkPath "/opt/raft/raft.cmake".

Definition foo : Raft.Dependency :=
  Raft.CMakeDependency "foo" (Raft.GitRepository "https://example/foo.git").

(** What [build] hands to [Promise.map(...).then(...)] for it. *)
Definition fan_out : Bluebird.MapThen :=
  {| Bluebird.mapped :=
       [Raft.getDependency {| Raft.root := Raft.mkPath "/home/user/game" |} foo
          {| Raft.platform := "host"; Raft.architecture := "host" |}];
     Bluebird.continuation := Project.build raftCmakeFile project settings |}.

End Example.

(** ** More vocabulary: layout, commands and the loaded manifest *)

(** The path of the directory reached from the directory [r] through the
    names [names]: the normal form of [r], a slash and the names joined
    with slashes. *)
Definition located (r : string) (names : list string) : string :=
  (if NodePath.isAbsolute r then "/" else "")
  +:+ JS.join "/"
        (NodePath.normalizeArray (JS.split r) (negb (NodePath.isAbsolute r))
         ++ names).

(** The commands spawned in a trace, each with its working directory. *)
Definition spawned (events : list Runtime.Event) : list (string * option string) :=
  omap (λ e, match e with
             | Runtime.Executed command cwd _ => Some (command, cwd)
             | _ => None
             end) events.

(** Every command succeeds on the host. *)
Definition all_succeed (h : Runtime.Host) : Prop :=
  ∀ command cwd disk, Runtime.is_inr (Runtime.spawn h command cwd disk).1 = true.

(** The chain is fulfilled in [w], having spawned the commands [commands]
    and nothing else, on the same host. *)
Definition runs_ok {A} (t : Runtime.Task A) (w : Runtime.World)
    (commands : list (string * option string)) : Prop :=
  ∃ a w', Runtime.run t w = (Runtime.Resolved a, w')
          ∧ spawned (Runtime.trace w') = spawned (Runtime.trace w) ++ commands
          ∧ Runtime.host w' = Runtime.host w.

(** The world in which [execute] spawns the command: after the first log
    line and, with a working directory, after [createDirectory] and the
    line about it. *)
Definition execute_started (command : string)
    (options : option Raft.System.ExecuteOptions) (w : Runtime.World) : Runtime.World :=
  let tag := effective_tag command options in
  match options ≫= Raft.System.cwd with
  | Some dir =>
      let w1 := Runtime.emit
                  (Runtime.Logged command ("Running in " +:+ Raft.Path.toString dir)) w in
      let r := Fs.mkdirp (Runtime.fs w1) (Raft.path dir) in
      let w2 := Runtime.emit
                  (Runtime.MadeDirectory (Raft.path dir) (bool_decide (r.1 = None)))
                  (Runtime.set_fs r.2 w1) in
      if bool_decide (r.1 = None)
      then Runtime.emit
             (Runtime.Logged tag ("Created " +:+ Raft.Path.toString dir)) w2
      else w2
  | None =>
      Runtime.emit (Runtime.Logged tag "Running in the current working directory") w
  end.

(** [createDependency] on the descriptors in turn: the dependencies, or
    the error of the first descriptor that has one. *)
Fixpoint createDependencies (ds : list RaftFile.DependencyDescriptor)
  : Runtime.Error + list Raft.Dependency :=
  match ds with
  | [] => inr []
  | d :: rest =>
      match Raft.createDependency d with
      | inl e => inl e
      | inr dependency =>
          match createDependencies rest with
          | inl e => inl e
          | inr dependencies => inr (dependency :: dependencies)
          end
      end
  end.

(** The array at [a] holds objects for the descriptors [ds], in order. *)
Definition holds_descriptors (h : gmap Heap.loc Heap.Obj) (a : Heap.loc)
    (ds : list RaftFile.DependencyDescriptor) : Prop :=
  ∃ elements,
    h !! a = Some (Heap.ObjArray elements)
    ∧ Forall2 (λ l d, h !! l = Some (Heap.ObjDescriptor d)) elements ds.

(** The project is loaded, with the descriptors [ds] in its manifest. *)
Definition loaded_with (this : Project) (h : gmap Heap.loc Heap.Obj)
    (ds : list RaftFile.DependencyDescriptor) : Prop :=
  ∃ r a,
    raftfile this = Some r
    ∧ h !! r = Some (Heap.ObjRoot (Some a))
    ∧ holds_descriptors h a ds.

(** ** Worlds where things go wrong *)
Module Faults.
Import Runtime.

(** A host without network: every command fails. *)
Definition offline_host : Host :=
  {| spawn := λ _ _ disk, (inl (ExecError "offline"), disk);
     json := json Example.host;
     stringify := stringify Example.host |}.

Definition offline : World :=
  {| Runtime.fs := Example.disk; Runtime.heap := ∅; Runtime.trace := [];
     Runtime.host := offline_host |}.

(** A descriptor with a build system that is not known. *)
Definition scons : RaftFile.DependencyDescriptor :=
  {| RaftFile.name := "bar";
     RaftFile.repository :=
       {| RaftFile.type := Some "git"; RaftFile.location := "https://example/bar.git" |};
     RaftFile.buildSystem := "scons" |}.

(** A world with a loaded manifest of this one descriptor. *)
Definition loaded_scons : World :=
  set_heap
    (<[3%positive := Heap.ObjRoot (Some 2%positive)]>
       (<[2%positive := Heap.ObjArray [1%positive]]>
          (<[1%positive := Heap.ObjDescriptor scons]> ∅)))
    Example.world.











End Faults.


(* ===================================================================== *)
(** * Part II: lemmas and theorems                                         *)
(* ===================================================================== *)

(** ** Strings, [split] and [join] *)
Section Strings.
Import JS.

Lemma str_eqb_eq s t : str_eqb s t = true ↔ s = t.
Proof. unfold str_eqb. apply bool_decide_eq_true. Qed.

Lemma str_eqb_neq s t : str_eqb s t = false ↔ s ≠ t.
Proof. unfold str_eqb. apply bool_decide_eq_false. Qed.

Lemma truthy_true s : truthy s = true ↔ s ≠ "".
Proof. unfold truthy. rewrite negb_true_iff. apply str_eqb_neq. Qed.

Lemma truthy_false s : truthy s = false ↔ s = "".
Proof. unfold truthy. rewrite negb_false_iff. apply str_eqb_eq. Qed.

Lemma str_app_nil_r s : s +:+ "" = s.
Proof. induction s as [|c s IH]; simpl; congruence. Qed.

Lemma str_app_assoc s t u : (s +:+ t) +:+ u = s +:+ t +:+ u.
Proof. induction s as [|c s IH]; simpl; congruence. Qed.

Lemma str_app_eq_nil s t : s +:+ t = "" → s = "" ∧ t = "".
Proof. destruct s; simpl; [auto | discriminate]. Qed.

Lemma str_app_length s t :
  String.length (s +:+ t) = String.length s + String.length t.
Proof. induction s as [|c s IH]; simpl; congruence. Qed.

Lemma starts_with_slash_app s t :
  s ≠ "" → starts_with_slash (s +:+ t) = starts_with_slash s.
Proof. destruct s; [congruence | reflexivity]. Qed.

Lemma ends_with_slash_app s t :
  t ≠ "" → ends_with_slash (s +:+ t) = ends_with_slash t.
Proof.
  intros Ht. induction s as [|c s IH]; [reflexivity|].
  simpl. destruct (s +:+ t) eqn:E.
  - apply str_app_eq_nil in E as [_ ?]. congruence.
  - exact IH.
Qed.

Lemma ends_with_slash_snoc s : ends_with_slash (s +:+ "/") = true.
Proof. rewrite ends_with_slash_app; [reflexivity | discriminate]. Qed.

Lemma slash_free_app s t :
  slash_free (s +:+ t) = slash_free s && slash_free t.
Proof.
  induction s as [|c s IH]; simpl; [reflexivity|].
  rewrite IH. by rewrite andb_assoc.
Qed.

Lemma slash_free_starts s : slash_free s = true → starts_with_slash s = false.
Proof.
  destruct s as [|c s]; simpl; [reflexivity|].
  intros [H _]%andb_true_iff. by apply negb_true_iff.
Qed.

Lemma slash_free_ends s : slash_free s = true → ends_with_slash s = false.
Proof.
  induction s as [|c s IH]; simpl; [reflexivity|].
  intros [H1 H2]%andb_true_iff. destruct s; [by apply negb_true_iff | auto].
Qed.

Lemma split_not_nil s : split s ≠ [].
Proof.
  destruct s as [|c s]; simpl; [discriminate|].
  destruct (is_slash c); [discriminate|]. by destruct (split s).
Qed.

Lemma split_app_slash s t : split (s +:+ "/" +:+ t) = split s ++ split t.
Proof.
  change ("/" +:+ t) with (String slash t).
  induction s as [|c s IH]; simpl; [reflexivity|].
  destruct (is_slash c); [by rewrite IH|].
  rewrite IH. destruct (split s) eqn:E; [by apply split_not_nil in E | reflexivity].
Qed.

Lemma split_snoc_slash s : split (s +:+ "/") = split s ++ [""].
Proof. apply (split_app_slash s ""). Qed.

Lemma split_slash_free s : slash_free s = true → split s = [s].
Proof.
  induction s as [|c s IH]; simpl; [reflexivity|].
  intros [H1 H2]%andb_true_iff. apply negb_true_iff in H1. rewrite H1.
  by rewrite (IH H2).
Qed.

Lemma split_parts_slash_free s : Forall (λ p, slash_free p = true) (split s).
Proof.
  induction s as [|c s IH]; simpl; [by repeat constructor|].
  destruct (is_slash c) eqn:E; [by constructor|].
  destruct (split s) as [|h t].
  - constructor; [simpl; by rewrite E | constructor].
  - inversion IH; subst. constructor; [|assumption]. simpl. by rewrite E.
Qed.

Lemma join_cons sep p q rest :
  join sep (p :: q :: rest) = p +:+ sep +:+ join sep (q :: rest).
Proof. reflexivity. Qed.

Lemma split_join parts :
  parts ≠ [] → Forall (λ p, slash_free p = true) parts →
  split (join "/" parts) = parts.
Proof.
  induction parts as [|p rest IH]; [congruence|].
  intros _ H. inversion H as [|? ? Hp Hrest]; subst.
  destruct rest as [|q rest].
  - by apply split_slash_free.
  - rewrite join_cons, split_app_slash, (split_slash_free _ Hp).
    simpl. f_equal. apply IH; [discriminate | assumption].
Qed.

Lemma join_snoc parts p :
  parts ≠ [] → join "/" (parts ++ [p]) = join "/" parts +:+ "/" +:+ p.
Proof.
  induction parts as [|q rest IH]; [congruence|]. intros _.
  destruct rest as [|r rest]; [reflexivity|].
  change ((q :: r :: rest) ++ [p]) with (q :: r :: (rest ++ [p])).
  rewrite !join_cons. rewrite !str_app_assoc. do 2 f_equal.
  apply (IH ltac:(discriminate)).
Qed.

Lemma join_eq_nil parts :
  Forall (λ p, p ≠ "") parts → join "/" parts = "" → parts = [].
Proof.
  destruct parts as [|p rest]; [reflexivity|].
  intros H. inversion H; subst. destruct rest; simpl.
  - congruence.
  - intros [? _]%str_app_eq_nil. congruence.
Qed.

Lemma join_starts p rest :
  p ≠ "" → starts_with_slash (join "/" (p :: rest)) = starts_with_slash p.
Proof.
  intros Hp. destruct rest; [reflexivity|].
  rewrite join_cons. by apply starts_with_slash_app.
Qed.

End Strings.

(** ** [normalizeArray] and [normalize] *)
Section Normalize.
Import JS NodePath.

Lemma normalizeArray_from_app res l1 l2 allow :
  normalizeArray_from res (l1 ++ l2) allow =
  normalizeArray_from (normalizeArray_from res l1 allow) l2 allow.
Proof.
  revert res. induction l1 as [|p l1 IH]; intros res; simpl; [reflexivity|].
  repeat case_match; apply IH.
Qed.

Lemma normalizeArray_from_skip res p rest allow :
  p = "" ∨ p = "." →
  normalizeArray_from res (p :: rest) allow = normalizeArray_from res rest allow.
Proof. intros [-> | ->]; reflexivity. Qed.

Lemma normalizeArray_from_push res p rest allow :
  plain p →
  normalizeArray_from res (p :: rest) allow =
  normalizeArray_from (res ++ [p]) rest allow.
Proof.
  intros (H1 & H2 & H3 & _). simpl.
  apply str_eqb_neq in H1, H2, H3. by rewrite H1, H2, H3.
Qed.

Lemma normalizeArray_from_plain res names allow :
  Forall plain names → normalizeArray_from res names allow = res ++ names.
Proof.
  intros H. revert res. induction H as [|p names Hp _ IH]; intros res.
  - by rewrite app_nil_r.
  - rewrite normalizeArray_from_push, IH by done. by rewrite <- app_assoc.
Qed.

Lemma normalizeArray_from_dotdot res rest allow :
  normalizeArray_from res (".." :: rest) allow =
  match last res with
  | Some top =>
      if negb (str_eqb top "..") then
        normalizeArray_from (removelast res) rest allow
      else if allow then normalizeArray_from (res ++ [".."]) rest allow
      else normalizeArray_from res rest allow
  | None =>
      if allow then normalizeArray_from (res ++ [".."]) rest allow
      else normalizeArray_from res rest allow
  end.
Proof. reflexivity. Qed.

Lemma last_dots k : last (dots (S k)) = Some "..".
Proof. induction k as [|k IH]; [reflexivity|]. exact IH. Qed.

Lemma dots_snoc k : dots k ++ [".."] = dots (S k).
Proof. unfold dots. induction k as [|k IH]; simpl in *; [reflexivity|]. by f_equal. Qed.

Lemma normalizeArray_from_dots j k rest :
  normalizeArray_from (dots j) (dots k ++ rest) true =
  normalizeArray_from (dots (j + k)) rest true.
Proof.
  revert j. induction k as [|k IH]; intros j.
  - by rewrite Nat.add_0_r.
  - change (dots (S k) ++ rest) with (".." :: (dots k ++ rest)).
    assert (normalizeArray_from (dots j) (".." :: dots k ++ rest) true
            = normalizeArray_from (dots (S j)) (dots k ++ rest) true) as ->.
    { rewrite normalizeArray_from_dotdot. destruct j as [|j].
      - reflexivity.
      - rewrite last_dots. cbn [str_eqb negb]. by rewrite dots_snoc. }
    rewrite IH. f_equal. f_equal. lia.
Qed.

Lemma normal_nil allow : normal allow [].
Proof. exists 0, []. by repeat split. Qed.

Lemma normalizeArray_normal_fixed allow parts :
  normal allow parts → normalizeArray parts allow = parts.
Proof.
  intros (k & names & -> & Hk & Hnames). unfold normalizeArray.
  destruct allow.
  - etrans; [apply (normalizeArray_from_dots 0 k names)|].
    by apply normalizeArray_from_plain.
  - rewrite (Hk eq_refl). simpl. by apply (normalizeArray_from_plain []).
Qed.

Lemma last_plain_not_dotdot names p :
  Forall plain names → last names = Some p → p ≠ "..".
Proof.
  intros H Hl. apply last_Some_elem_of in Hl.
  rewrite Forall_forall in H. by destruct (H p Hl) as (_ & _ & ? & _).
Qed.

Lemma normalizeArray_from_normal res parts allow :
  normal allow res →
  Forall (λ p, slash_free p = true) parts →
  normal allow (normalizeArray_from res parts allow).
Proof.
  intros Hres Hparts. revert res Hres.
  induction Hparts as [|p parts Hp _ IH]; intros res Hres; [exact Hres|].
  destruct (decide (p = "" ∨ p = ".")) as [Hskip|Hskip].
  { rewrite normalizeArray_from_skip by done. by apply IH. }
  destruct Hres as (k & names & -> & Hk & Hnames).
  destruct (decide (p = "..")) as [->|Hdd].
  - rewrite normalizeArray_from_dotdot.
    destruct names as [|n names _] using rev_ind.
    + rewrite app_nil_r. destruct k as [|k].
      * cbn [dots replicate last]. destruct allow; apply IH.
        -- exists 1, []. by repeat split.
        -- apply normal_nil.
      * rewrite last_dots. cbn [str_eqb negb bool_decide]. 
        assert (str_eqb ".." ".." = true) as -> by reflexivity.
        cbn [negb]. destruct allow.
        -- apply IH. rewrite dots_snoc. exists (S (S k)), [].
           rewrite app_nil_r. by repeat split.
        -- by specialize (Hk eq_refl).
    + rewrite app_assoc, last_snoc.
      apply Forall_app in Hnames as [Hnames Hn].
      inversion Hn as [|? ? Hn' _]; subst.
      destruct Hn' as (_ & _ & Hn' & _). apply str_eqb_neq in Hn'.
      rewrite Hn'. cbn [negb]. rewrite removelast_last.
      apply IH. by exists k, names.
  - assert (plain p) as Hplain by (unfold plain; naive_solver).
    rewrite normalizeArray_from_push by done. apply IH.
    exists k, (names ++ [p]). rewrite app_assoc. repeat split; [done|].
    apply Forall_app. split; [done|]. by constructor.
Qed.

Lemma normalizeArray_normal parts allow :
  Forall (λ p, slash_free p = true) parts →
  normal allow (normalizeArray parts allow).
Proof. apply normalizeArray_from_normal, normal_nil. Qed.

Lemma normalize_render path :
  normalize path =
  render (isAbsolute path) (ends_with_slash path)
    (normalizeArray (split path) (negb (isAbsolute path))).
Proof. reflexivity. Qed.

Lemma normal_parts allow parts :
  normal allow parts → Forall (λ p, p ≠ "" ∧ slash_free p = true) parts.
Proof.
  intros (k & names & -> & _ & Hnames). apply Forall_app. split.
  - apply Forall_replicate. by split.
  - eapply Forall_impl; [exact Hnames|]. by intros p (? & _ & _ & ?).
Qed.

Lemma normal_slash_free allow parts :
  normal allow parts → Forall (λ p, slash_free p = true) parts.
Proof.
  intros H%normal_parts. eapply Forall_impl; [exact H|]. by intros p [_ ?].
Qed.

Lemma normal_join_truthy allow parts :
  normal allow parts → parts ≠ [] → truthy (JS.join "/" parts) = true.
Proof.
  intros H%normal_parts Hne. apply truthy_true. intros E.
  apply join_eq_nil in E; [done|].
  eapply Forall_impl; [exact H|]. by intros p [? _].
Qed.

Lemma render_nonempty isAbs trailingSlash parts allow :
  normal allow parts → parts ≠ [] →
  render isAbs trailingSlash parts =
  (if isAbs then "/" else "") +:+ JS.join "/" parts
    +:+ (if trailingSlash then "/" else "").
Proof.
  intros Hn Hne. unfold render.
  pose proof (normal_join_truthy _ _ Hn Hne) as Ht.
  rewrite Ht. cbn [negb andb]. rewrite Ht. cbn [andb].
  destruct trailingSlash; [reflexivity|]. by rewrite str_app_nil_r.
Qed.

Lemma render_not_empty isAbs trailingSlash parts allow :
  normal allow parts → render isAbs trailingSlash parts ≠ "".
Proof.
  intros Hn. destruct parts as [|p parts].
  - by destruct isAbs, trailingSlash.
  - rewrite (render_nonempty _ _ _ _ Hn) by done.
    intros [_ [E _]%str_app_eq_nil]%str_app_eq_nil.
    apply truthy_false in E. by rewrite (normal_join_truthy _ _ Hn) in E.
Qed.

Lemma render_isAbsolute isAbs trailingSlash parts :
  normal (negb isAbs) parts →
  isAbsolute (render isAbs trailingSlash parts) = isAbs.
Proof.
  intros Hn. destruct parts as [|p parts].
  - by destruct isAbs, trailingSlash.
  - rewrite (render_nonempty _ _ _ _ Hn) by done.
    destruct isAbs; [reflexivity|]. unfold isAbsolute.
    change ("" +:+ ?x) with x.
    pose proof (normal_parts _ _ Hn) as Hp. inversion Hp as [|? ? [Hp1 Hp2] _]; subst.
    rewrite starts_with_slash_app.
    + rewrite join_starts by done. by apply slash_free_starts.
    + apply truthy_true. by apply (normal_join_truthy _ _ Hn).
Qed.

(** The parts of a normalized path are the parts it was made of. *)
Lemma render_parts isAbs trailingSlash parts :
  normal (negb isAbs) parts →
  normalizeArray (split (render isAbs trailingSlash parts)) (negb isAbs) = parts.
Proof.
  intros Hn. destruct parts as [|p parts].
  - by destruct isAbs, trailingSlash.
  - rewrite (render_nonempty _ _ _ _ Hn) by done.
    pose proof (normal_slash_free _ _ Hn) as Hsf.
    assert (split (JS.join "/" (p :: parts) +:+ (if trailingSlash then "/" else ""))
            = (p :: parts) ++ (if trailingSlash then [""] else [])) as Hsplit.
    { destruct trailingSlash.
      - by rewrite split_snoc_slash, split_join.
      - by rewrite str_app_nil_r, app_nil_r, split_join. }
    assert (normalizeArray ((p :: parts) ++ (if trailingSlash then [""] else []))
              (negb isAbs) = p :: parts) as Hfix.
    { unfold normalizeArray. rewrite normalizeArray_from_app.
      fold (normalizeArray (p :: parts) (negb isAbs)).
      rewrite (normalizeArray_normal_fixed _ _ Hn). by destruct trailingSlash. }
    destruct isAbs.
    + change ("/" +:+ ?x) with ("" +:+ "/" +:+ x).
      rewrite split_app_slash, Hsplit. exact Hfix.
    + change ("" +:+ ?x) with x. rewrite Hsplit. exact Hfix.
Qed.

Lemma join_ends parts allow :
  normal allow parts → ends_with_slash (JS.join "/" parts) = false.
Proof.
  intros H%normal_parts. induction H as [|p parts [Hp1 Hp2] Hparts IH]; [reflexivity|].
  destruct parts as [|q parts]; [by apply slash_free_ends|].
  rewrite join_cons, !ends_with_slash_app; [exact IH | |].
  - intros E. apply join_eq_nil in E; [done|].
    eapply Forall_impl; [exact Hparts|]. by intros ? [? _].
  - discriminate.
Qed.

(** Only the root forgets whether the path ended in a slash. *)
Lemma render_trailing isAbs trailingSlash parts allow :
  normal allow parts →
  render isAbs (ends_with_slash (render isAbs trailingSlash parts)) parts
  = render isAbs trailingSlash parts.
Proof.
  intros Hn. destruct parts as [|p parts].
  - by destruct isAbs, trailingSlash.
  - f_equal. rewrite (render_nonempty _ _ _ _ Hn) by done.
    destruct trailingSlash.
    + rewrite <- !str_app_assoc. apply ends_with_slash_snoc.
    + rewrite str_app_nil_r, ends_with_slash_app.
      * by apply (join_ends _ _ Hn).
      * apply truthy_true. by apply (normal_join_truthy _ _ Hn).
Qed.

Lemma normalize_parts_normal path :
  normal (negb (isAbsolute path))
    (normalizeArray (split path) (negb (isAbsolute path))).
Proof. apply normalizeArray_normal, split_parts_slash_free. Qed.

Lemma normalize_not_empty path : normalize path ≠ "".
Proof.
  rewrite normalize_render.
  apply (render_not_empty _ _ _ _ (normalize_parts_normal path)).
Qed.

Lemma normalize_isAbsolute path : isAbsolute (normalize path) = isAbsolute path.
Proof.
  rewrite normalize_render. apply render_isAbsolute, normalize_parts_normal.
Qed.

Lemma normalize_parts path :
  normalizeArray (split (normalize path)) (negb (isAbsolute path))
  = normalizeArray (split path) (negb (isAbsolute path)).
Proof.
  rewrite normalize_render. apply render_parts, normalize_parts_normal.
Qed.

Lemma normalize_idem path : normalize (normalize path) = normalize path.
Proof.
  rewrite (normalize_render (normalize path)).
  rewrite normalize_isAbsolute, normalize_parts.
  rewrite (normalize_render path) at 1.
  rewrite (render_trailing _ _ _ _ (normalize_parts_normal path)).
  symmetry. apply normalize_render.
Qed.

(** Appending to a path and to its normal form gives the same normal
    form. *)
Lemma normalize_app_slash s t :
  s ≠ "" →
  normalize (normalize s +:+ "/" +:+ t) = normalize (s +:+ "/" +:+ t).
Proof.
  intros Hs. rewrite (normalize_render (normalize s +:+ _)).
  rewrite (normalize_render (s +:+ _)).
  unfold isAbsolute.
  rewrite !starts_with_slash_app by (done || apply normalize_not_empty).
  fold (isAbsolute (normalize s)). rewrite normalize_isAbsolute.
  fold (isAbsolute s).
  rewrite !(ends_with_slash_app _ ("/" +:+ t)) by discriminate.
  rewrite !split_app_slash. unfold normalizeArray.
  rewrite !normalizeArray_from_app.
  fold (normalizeArray (split (normalize s)) (negb (isAbsolute s))).
  by rewrite normalize_parts.
Qed.

Lemma normalize_dot_slash t :
  t ≠ "" → isAbsolute t = false → normalize ("." +:+ "/" +:+ t) = normalize t.
Proof.
  intros Ht Hrel. rewrite !normalize_render.
  rewrite split_app_slash.
  rewrite (ends_with_slash_app "." ("/" +:+ t)) by discriminate.
  rewrite (ends_with_slash_app "/" t) by done.
  rewrite Hrel. reflexivity.
Qed.

Lemma join_loop_app path l1 l2 :
  join_loop path (l1 ++ l2) = join_loop (join_loop path l1) l2.
Proof.
  revert path. induction l1 as [|x l1 IH]; intros path; simpl; [reflexivity|].
  repeat case_match; apply IH.
Qed.

Lemma join_loop_skip path rest :
  join_loop path ("" :: rest) = join_loop path rest.
Proof. reflexivity. Qed.

Lemma join_loop_first x rest :
  x ≠ "" → join_loop "" (x :: rest) = join_loop x rest.
Proof.
  intros Hx. cbn [join_loop]. by rewrite (proj2 (truthy_true _) Hx).
Qed.

Lemma join_loop_next path x rest :
  path ≠ "" → x ≠ "" →
  join_loop path (x :: rest) = join_loop (path +:+ "/" +:+ x) rest.
Proof.
  intros Hp Hx. cbn [join_loop].
  by rewrite (proj2 (truthy_true _) Hx), (proj2 (truthy_true _) Hp).
Qed.

Lemma join_loop_truthy path segments :
  path ≠ "" → join_loop path segments ≠ "".
Proof.
  revert path. induction segments as [|x l IH]; intros path Hp; [done|].
  destruct (decide (x = "")) as [->|Hx]; [by apply IH|].
  rewrite join_loop_next by done. apply IH.
  by intros [? _]%str_app_eq_nil.
Qed.

Lemma join_loop_prefix path segments :
  path ≠ "" →
  join_loop path segments =
  if truthy (join_loop "" segments)
  then path +:+ "/" +:+ join_loop "" segments
  else path.
Proof.
  revert path. induction segments as [|x l IH]; intros path Hp; [reflexivity|].
  destruct (decide (x = "")) as [->|Hx]; [by apply IH|].
  rewrite join_loop_next, join_loop_first by done.
  rewrite (IH (path +:+ "/" +:+ x)) by (by intros [? _]%str_app_eq_nil).
  rewrite (IH x Hx).
  destruct (truthy (join_loop "" l)) eqn:El.
  - assert (truthy (x +:+ "/" +:+ join_loop "" l) = true) as ->.
    { apply truthy_true. by intros [? _]%str_app_eq_nil. }
    by rewrite !str_app_assoc.
  - by rewrite (proj2 (truthy_true _) Hx).
Qed.

Lemma normalize_join_loop x x' segments :
  x ≠ "" → x' ≠ "" → normalize x = normalize x' →
  normalize (join_loop x segments) = normalize (join_loop x' segments).
Proof.
  revert x x'. induction segments as [|y l IH]; intros x x' Hx Hx' E; [exact E|].
  destruct (decide (y = "")) as [->|Hy]; [by apply IH|].
  rewrite !join_loop_next by done.
  apply IH; try (by intros [? _]%str_app_eq_nil).
  rewrite <- (normalize_app_slash x), <- (normalize_app_slash x') by done.
  by rewrite E.
Qed.

(** [join] of a joined path and more segments. *)
Lemma join_join xs ys :
  join_loop "" xs ≠ "" ∨ isAbsolute (join_loop "" ys) = false →
  NodePath.join (NodePath.join xs :: ys) = NodePath.join (xs ++ ys).
Proof.
  intros H. unfold NodePath.join at 1 3.
  rewrite join_loop_app.
  pose proof (normalize_not_empty (join_loop "" xs)) as Hr.
  rewrite join_loop_first by exact Hr.
  destruct (decide (join_loop "" xs = "")) as [E|Hne].
  - destruct H as [H|H]; [done|]. unfold NodePath.join. rewrite E.
    change (normalize "") with ".".
    rewrite join_loop_prefix by done.
    destruct (truthy (join_loop "" ys)) eqn:Ey; [|by apply truthy_false in Ey as ->].
    apply normalize_dot_slash; [by apply truthy_true | done].
  - apply normalize_join_loop; [exact Hr | exact Hne | apply normalize_idem].
Qed.

End Normalize.

(** ** [Path.append] and the derived directories *)
Section Append.
Import JS NodePath.

Lemma join_loop_exists segments :
  Exists (λ x, x ≠ "") segments → join_loop "" segments ≠ "".
Proof.
  induction 1 as [x l Hx|x l _ IH].
  - rewrite join_loop_first by done. by apply join_loop_truthy.
  - destruct (decide (x = "")) as [->|Hx]; [exact IH|].
    rewrite join_loop_first by done. by apply join_loop_truthy.
Qed.

Lemma plain_not_empty p : plain p → p ≠ "".
Proof. by intros [? _]. Qed.

Lemma plain_slash_free p : plain p → slash_free p = true.
Proof. by intros (_ & _ & _ & ?). Qed.

(** What [join_loop] makes of plain names after a path. *)
Lemma join_loop_plain s names :
  s ≠ "" → Forall plain names →
  split (join_loop s names) = split s ++ names
  ∧ isAbsolute (join_loop s names) = isAbsolute s
  ∧ (names ≠ [] → ends_with_slash (join_loop s names) = false).
Proof.
  intros Hs H. revert s Hs. induction H as [|n rest Hn _ IH]; intros s Hs.
  - rewrite app_nil_r. by repeat split.
  - rewrite join_loop_next by (done || by apply plain_not_empty).
    destruct (IH (s +:+ "/" +:+ n)) as (IH1 & IH2 & IH3).
    { by intros [? _]%str_app_eq_nil. }
    rewrite IH1, IH2. repeat split.
    + rewrite split_app_slash, (split_slash_free n) by (by apply plain_slash_free).
      by rewrite <- app_assoc.
    + unfold isAbsolute. by apply starts_with_slash_app.
    + intros _. destruct rest as [|m rest]; [|by apply IH3].
      cbn [join_loop]. rewrite ends_with_slash_app by discriminate.
      change ("/" +:+ n) with ("" +:+ "/" +:+ n).
      rewrite (ends_with_slash_app "" ("/" +:+ n)) by discriminate.
      rewrite (ends_with_slash_app "/" n) by (by apply plain_not_empty).
      by apply slash_free_ends, plain_slash_free.
Qed.

Lemma normal_app_plain allow parts names :
  normal allow parts → Forall plain names → normal allow (parts ++ names).
Proof.
  intros (k & ns & -> & Hk & Hns) Hnames.
  exists k, (ns ++ names). rewrite app_assoc. repeat split; [done|].
  by apply Forall_app.
Qed.

(** The path [join] makes of arbitrary segments followed by plain
    names. *)
Lemma join_plain xs names :
  join_loop "" xs ≠ "" → Forall plain names → names ≠ [] →
  NodePath.join (xs ++ names) =
  (if isAbsolute (join_loop "" xs) then "/" else "")
  +:+ JS.join "/"
        (normalizeArray (split (join_loop "" xs))
           (negb (isAbsolute (join_loop "" xs))) ++ names).
Proof.
  intros Hxs Hnames Hne. unfold NodePath.join. rewrite join_loop_app.
  set (s := join_loop "" xs) in *.
  destruct (join_loop_plain s names Hxs Hnames) as (H1 & H2 & H3).
  rewrite normalize_render, H1, H2, (H3 Hne).
  unfold normalizeArray at 1. rewrite normalizeArray_from_app.
  fold (normalizeArray (split s) (negb (isAbsolute s))).
  rewrite normalizeArray_from_plain by done.
  assert (normal (negb (isAbsolute s))
            (normalizeArray (split s) (negb (isAbsolute s)) ++ names)) as Hn.
  { apply normal_app_plain; [apply normalize_parts_normal | done]. }
  rewrite (render_nonempty _ _ _ _ Hn).
  - by rewrite str_app_nil_r.
  - intros [_ ?]%app_eq_nil. done.
Qed.

Lemma join_plain_inj xs names1 names2 :
  join_loop "" xs ≠ "" →
  Forall plain names1 → Forall plain names2 → names1 ≠ [] → names2 ≠ [] →
  NodePath.join (xs ++ names1) = NodePath.join (xs ++ names2) →
  names1 = names2.
Proof.
  intros Hxs H1 H2 Hne1 Hne2 E.
  rewrite !join_plain in E by done.
  apply (inj (String.app _)) in E.
  apply (f_equal split) in E.
  set (R := normalizeArray _ _) in *.
  assert (Forall (λ p, slash_free p = true) R) as HR.
  { apply (normal_slash_free (negb (isAbsolute (join_loop "" xs)))),
      normalize_parts_normal. }
  rewrite !split_join in E.
  - by apply app_inv_head in E.
  - intros [_ ?]%app_eq_nil. done.
  - apply Forall_app. split; [done|].
    eapply Forall_impl; [exact H2|]. apply plain_slash_free.
  - intros [_ ?]%app_eq_nil. done.
  - apply Forall_app. split; [done|].
    eapply Forall_impl; [exact H1|]. apply plain_slash_free.
Qed.

End Append.

Import Raft(mkPath, Str, Obj).

(** C8 (as stated): [append] is not associative for every path and
    segments: from the empty path and two empty segments, an absolute
    segment appended in a second call has lost its root. *)
Lemma append_assoc_counterexample :
  ¬ (∀ (p : Raft.Path) (a b c : Raft.Segment),
       Raft.Path.append (Raft.Path.append p [a; b]) [c]
       = Raft.Path.append p [a; b; c]).
Proof.
  intros H.
  specialize (H (mkPath "") (Str "") (Str "") (Str "/x")).
  vm_compute in H. discriminate H.
Qed.

(** C8 (amended): [append] is a function of the path and the segments
    alone, and [p.append(a, b).append(c)] equals [p.append(a, b, c)]
    whenever [p], [a] and [b] are not all empty or [c] is not absolute. *)
Theorem append_assoc (p : Raft.Path) (a b c : Raft.Segment) :
  Raft.path p ≠ ""
  ∨ Raft.Path.segmentToString a ≠ ""
  ∨ Raft.Path.segmentToString b ≠ ""
  ∨ NodePath.isAbsolute (Raft.Path.segmentToString c) = false →
  Raft.Path.append (Raft.Path.append p [a; b]) [c]
  = Raft.Path.append p [a; b; c].
Proof.
  intros H. unfold Raft.Path.append. f_equal. cbn [map Raft.path].
  apply (join_join [Raft.path p; _; _] [_]).
  destruct H as [H|[H|[H|H]]].
  - left. apply join_loop_exists. by constructor.
  - left. apply join_loop_exists. by do 1 constructor 2; constructor.
  - left. apply join_loop_exists. by do 2 constructor 2; constructor.
  - right. cbn [NodePath.join_loop].
    destruct (JS.truthy _); [exact H | reflexivity].
Qed.

Lemma append_assoc_witness :
  Raft.path (mkPath "/home/user/game") ≠ ""
  ∧ Raft.Path.append
      (Raft.Path.append (mkPath "/home/user/game") [Str "Raft"; Obj (mkPath "libs")])
      [Str "../src/"]
    = Raft.Path.append (mkPath "/home/user/game")
        [Str "Raft"; Obj (mkPath "libs"); Str "../src/"].
Proof.
  split; [discriminate|]. apply append_assoc. left. discriminate.
Defined.

Section Derived.

Lemma DEPENDENCY_BUILD_DIR_eq :
  Project.DEPENDENCY_BUILD_DIR = mkPath "Raft/libs/build".
Proof. reflexivity. Qed.

Lemma DEPENDENCY_INSTALL_DIR_eq :
  Project.DEPENDENCY_INSTALL_DIR = mkPath "Raft/libs/install".
Proof. reflexivity. Qed.

Lemma dirForDependencyBuild_join this name build :
  Project.dirForDependencyBuild this name build =
  mkPath (NodePath.join
            ([Raft.path (root this); "Raft/libs/build"]
             ++ [BuildConfig.platform build; BuildConfig.architecture build; name])).
Proof. reflexivity. Qed.

Lemma dirForDependencyInstall_join this build :
  Project.dirForDependencyInstall this build =
  mkPath (NodePath.join
            ([Raft.path (root this); "Raft/libs/install"]
             ++ [BuildConfig.platform build; BuildConfig.architecture build])).
Proof. reflexivity. Qed.

End Derived.

(** C4 (as stated): the install directory of a target is the same for all
    dependency names, and a name that is not a plain path segment can lead
    to the build directory of another name. *)
Lemma derived_dirs_counterexample :
  ¬ (∀ (this : Project) (n1 n2 : string) (b1 b2 : BuildConfig.Build),
       (n1, BuildConfig.platform b1, BuildConfig.architecture b1)
       ≠ (n2, BuildConfig.platform b2, BuildConfig.architecture b2) →
       Project.dirForDependencyBuild this n1 b1 ≠ Project.dirForDependencyBuild this n2 b2
       ∧ Project.dirForDependencyInstall this b1 ≠ Project.dirForDependencyInstall this b2)
  ∧ Project.dirForDependencyBuild (mkProject (mkPath "/p") None) "foo/."
      {| BuildConfig.isDeploy := false; BuildConfig.platform := "host";
         BuildConfig.architecture := "host" |}
    = Project.dirForDependencyBuild (mkProject (mkPath "/p") None) "foo"
      {| BuildConfig.isDeploy := false; BuildConfig.platform := "host";
         BuildConfig.architecture := "host" |}.
Proof.
  split; [|reflexivity].
  intros H.
  destruct (H (mkProject (mkPath "/p") None) "foo" "bar"
              {| BuildConfig.isDeploy := false; BuildConfig.platform := "host";
         BuildConfig.architecture := "host" |}
              {| BuildConfig.isDeploy := false; BuildConfig.platform := "host";
         BuildConfig.architecture := "host" |}) as [_ Hinstall].
  - discriminate.
  - by apply Hinstall.
Qed.

(** C4 (amended): for names, platforms and architectures that are plain
    path segments (not empty, without a slash, neither [.] nor [..]), the
    build directory is injective in the triple of name, platform and
    architecture, and the install directory, which does not depend on the
    name, is injective in the pair of platform and architecture. *)
Theorem derived_dirs_injective (this : Project) (n1 n2 : string)
    (b1 b2 : BuildConfig.Build) :
  plain n1 → plain n2 →
  plain (BuildConfig.platform b1) → plain (BuildConfig.platform b2) →
  plain (BuildConfig.architecture b1) → plain (BuildConfig.architecture b2) →
  ((n1, BuildConfig.platform b1, BuildConfig.architecture b1)
   ≠ (n2, BuildConfig.platform b2, BuildConfig.architecture b2) →
   Project.dirForDependencyBuild this n1 b1 ≠ Project.dirForDependencyBuild this n2 b2)
  ∧ ((BuildConfig.platform b1, BuildConfig.architecture b1)
     ≠ (BuildConfig.platform b2, BuildConfig.architecture b2) →
     Project.dirForDependencyInstall this b1 ≠ Project.dirForDependencyInstall this b2).
Proof.
  intros Hn1 Hn2 Hp1 Hp2 Ha1 Ha2. split; intros Hne E; apply Hne; clear Hne.
  - rewrite !dirForDependencyBuild_join in E. injection E as E.
    apply (join_plain_inj [_; _] [_; _; _] [_; _; _]) in E;
      [by injection E as -> -> -> | | | | |].
    + apply join_loop_exists. by constructor 2; constructor.
    + repeat (apply Forall_cons_2; [assumption|]). apply Forall_nil_2.
    + repeat (apply Forall_cons_2; [assumption|]). apply Forall_nil_2.
    + discriminate.
    + discriminate.
  - rewrite !dirForDependencyInstall_join in E. injection E as E.
    apply (join_plain_inj [_; _] [_; _] [_; _]) in E;
      [by injection E as -> -> | | | | |].
    + apply join_loop_exists. by constructor 2; constructor.
    + repeat (apply Forall_cons_2; [assumption|]). apply Forall_nil_2.
    + repeat (apply Forall_cons_2; [assumption|]). apply Forall_nil_2.
    + discriminate.
    + discriminate.
Qed.

Lemma derived_dirs_injective_witness :
  plain "foo" ∧ plain "bar" ∧ plain "host" ∧ plain "android" ∧ plain "armeabi"
  ∧ Project.dirForDependencyBuild (mkProject (mkPath "/home/user/game") None) "foo"
      {| BuildConfig.isDeploy := false; BuildConfig.platform := "host";
         BuildConfig.architecture := "host" |}
    ≠ Project.dirForDependencyBuild (mkProject (mkPath "/home/user/game") None) "bar"
        {| BuildConfig.isDeploy := false; BuildConfig.platform := "android";
           BuildConfig.architecture := "armeabi" |}.
Proof.
  assert (∀ s, s ≠ "" → s ≠ "." → s ≠ ".." → slash_free s = true → plain s) as Hplain.
  { intros s ? ? ? ?. by repeat split. }
  repeat (split;
    [apply Hplain; [discriminate | discriminate | discriminate | reflexivity] |]).
  apply (derived_dirs_injective (mkProject (mkPath "/home/user/game") None) "foo" "bar"
           {| BuildConfig.isDeploy := false; BuildConfig.platform := "host";
              BuildConfig.architecture := "host" |}
           {| BuildConfig.isDeploy := false; BuildConfig.platform := "android";
              BuildConfig.architecture := "armeabi" |});
    try (apply Hplain; [discriminate | discriminate | discriminate | reflexivity]).
  discriminate.
Defined.

(** ** [dirname], [parse] and the loop of [Project.find] *)
Section Ancestors.
Import JS NodePath.

Lemma slash_at_0 s : slash_at s 0 = starts_with_slash s.
Proof. by destruct s. Qed.

Lemma slice0_length n s : n ≤ String.length s → String.length (slice0 n s) = n.
Proof.
  unfold slice0. revert s. induction n as [|n IH]; intros [|c s] H; simpl in *;
    try reflexivity; try lia.
  f_equal. apply IH. lia.
Qed.

Lemma slice0_starts n s :
  starts_with_slash (slice0 (S n) s) = starts_with_slash s.
Proof. by destruct s. Qed.

Lemma dirname_scan_bound s i m e :
  dirname_scan s i m = Some e → 1 ≤ e ≤ i ∧ (m = true → e < i).
Proof.
  revert m. induction i as [|i IH]; intros m; [discriminate|].
  cbn [dirname_scan]. destruct (slash_at s (S i)).
  - destruct m; cbn [negb].
    + intros H%IH. lia.
    + intros [= <-]. split; [lia | discriminate].
  - intros H%IH. lia.
Qed.

Lemma parse_root s :
  root (parse s) = if isAbsolute s then "/" else "".
Proof.
  unfold parse, isAbsolute. destruct s as [|c s]; [reflexivity|].
  cbn [String.length Nat.eqb]. by rewrite slash_at_0.
Qed.

Lemma absolute_length_1 s : isAbsolute s = true → String.length s ≤ 1 → s = "/".
Proof.
  destruct s as [|c [|c' s]]; simpl; try discriminate; try lia.
  unfold is_slash. by intros ->%bool_decide_eq_true.
Qed.

(** The parent of an absolute path is absolute and, unless the path is a
    single slash, shorter. *)
Lemma dirname_absolute s :
  isAbsolute s = true →
  isAbsolute (dirname s) = true
  ∧ (2 ≤ String.length s → String.length (dirname s) < String.length s).
Proof.
  intros Habs. unfold dirname.
  destruct (String.length s =? 0)%nat eqn:E0.
  { apply Nat.eqb_eq in E0. by destruct s. }
  rewrite slash_at_0. unfold isAbsolute in Habs. rewrite Habs.
  destruct (dirname_scan s (String.length s - 1) true) as [e|] eqn:Es.
  - apply dirname_scan_bound in Es as [He1 He2]. specialize (He2 eq_refl).
    cbn [andb]. destruct (e =? 1)%nat eqn:E1.
    + split; [reflexivity|]. apply Nat.eqb_eq in E1. simpl. lia.
    + apply Nat.eqb_neq in E1. destruct e as [|e]; [lia|].
      unfold isAbsolute. rewrite slice0_starts, slice0_length by lia.
      split; [done | lia].
  - split; [reflexivity | simpl; lia].
Qed.

(** The parent of a relative path is relative, and either [.] or
    shorter. *)
Lemma dirname_relative s :
  isAbsolute s = false →
  isAbsolute (dirname s) = false
  ∧ (dirname s = "." ∨ String.length (dirname s) < String.length s).
Proof.
  intros Hrel. unfold dirname.
  destruct (String.length s =? 0)%nat eqn:E0; [by split; [|left]|].
  rewrite slash_at_0. unfold isAbsolute in Hrel. rewrite Hrel.
  destruct (dirname_scan s (String.length s - 1) true) as [e|] eqn:Es.
  - apply dirname_scan_bound in Es as [He1 He2]. specialize (He2 eq_refl).
    cbn [andb]. destruct e as [|e]; [lia|].
    unfold isAbsolute. rewrite slice0_starts, slice0_length by lia.
    split; [done | right; lia].
  - by split; [|left].
Qed.

Import Raft (Path, mkPath).

Lemma relative_isAbsolute P :
  relative P ↔ isAbsolute (Raft.path P) = false.
Proof.
  unfold relative. rewrite parse_root.
  destruct (isAbsolute (Raft.path P)); split; done.
Qed.

Lemma not_relative_isAbsolute P :
  ¬ relative P ↔ isAbsolute (Raft.path P) = true.
Proof. rewrite relative_isAbsolute. by destruct (isAbsolute _). Qed.

Lemma isRoot_relative P : relative P → Raft.Path.isRoot P = false.
Proof.
  unfold relative, Raft.Path.isRoot. intros ->.
  apply andb_false_intro2. reflexivity.
Qed.

Lemma parent_relative P : relative P → relative (Raft.Path.parent P).
Proof.
  rewrite !relative_isAbsolute. intros H.
  by destruct (dirname_relative _ H).
Qed.

Lemma iter_parent_relative n P :
  relative P → relative (Nat.iter n Raft.Path.parent P).
Proof. intros H. induction n as [|n IH]; [done|]. by apply parent_relative. Qed.

Lemma iter_parent_S n P :
  Nat.iter (S n) Raft.Path.parent P = Nat.iter n Raft.Path.parent (Raft.Path.parent P).
Proof. induction n as [|n IH]; [done|]. simpl in *. by rewrite IH. Qed.

Lemma parent_dot : Raft.Path.parent (mkPath ".") = mkPath ".".
Proof. reflexivity. Qed.

Lemma iter_parent_dot n : Nat.iter n Raft.Path.parent (mkPath ".") = mkPath ".".
Proof. induction n as [|n IH]; [done|]. simpl. by rewrite IH. Qed.

Lemma parent_reaches_dot P :
  relative P →
  ∀ m, String.length (Raft.path P) < m →
       Nat.iter m Raft.Path.parent P = mkPath ".".
Proof.
  intros Hrel m. revert P Hrel.
  induction m as [|m IH]; intros P Hrel Hlen; [lia|].
  rewrite iter_parent_S.
  pose proof (proj1 (relative_isAbsolute P) Hrel) as Hrel'.
  destruct (dirname_relative _ Hrel') as [_ [Hdot|Hlt]].
  - unfold Raft.Path.parent. rewrite Hdot. apply iter_parent_dot.
  - apply IH; [by apply parent_relative | simpl; lia].
Qed.

Lemma find_loop_relative fuel paths P :
  last paths = Some P → relative P → Raft.Project.find_loop fuel paths = None.
Proof.
  revert paths P. induction fuel as [|fuel IH]; intros paths P Hlast Hrel; [done|].
  cbn [Raft.Project.find_loop]. rewrite Hlast, (isRoot_relative _ Hrel).
  cbn [negb]. apply (IH _ (Raft.Path.parent P)).
  - apply last_snoc.
  - by apply parent_relative.
Qed.

Lemma isRoot_slash : Raft.Path.isRoot (mkPath "/") = true.
Proof. reflexivity. Qed.

Lemma ancestor_chain_absolute P :
  ¬ relative P → ∃ chain, ancestor_chain P chain.
Proof.
  intros Habs%not_relative_isAbsolute.
  remember (String.length (Raft.path P)) as n eqn:Hn.
  revert P Habs Hn. induction n as [n IH] using lt_wf_ind. intros P Habs Hn.
  destruct (Raft.Path.isRoot P) eqn:Eroot.
  { exists [P]. by constructor. }
  destruct (dirname_absolute _ Habs) as [Habs' Hlt].
  destruct (decide (String.length (Raft.path P) ≤ 1)) as [Hle|Hgt].
  { apply absolute_length_1 in Hle; [|done]. destruct P as [s]. simpl in Hle.
    subst s. by rewrite isRoot_slash in Eroot. }
  destruct (IH (String.length (dirname (Raft.path P)))
              ltac:(lia) (Raft.Path.parent P) Habs' eq_refl) as [chain Hchain].
  exists (P :: chain). by constructor.
Qed.

Lemma ancestor_chain_length P chain : ancestor_chain P chain → 1 ≤ length chain.
Proof. destruct 1; simpl; lia. Qed.

(** With enough fuel the loop of [find] ends, with the chain. *)
Lemma find_loop_chain P chain :
  ancestor_chain P chain →
  ∀ fuel pre, length chain ≤ fuel →
    Raft.Project.find_loop fuel (pre ++ [P]) = Some (pre ++ chain).
Proof.
  induction 1 as [P Hroot|P chain Hroot _ IH]; intros fuel pre Hfuel.
  - destruct fuel as [|fuel]; [simpl in Hfuel; lia|].
    cbn [Raft.Project.find_loop]. by rewrite last_snoc, Hroot.
  - destruct fuel as [|fuel]; [simpl in Hfuel; lia|].
    cbn [Raft.Project.find_loop]. rewrite last_snoc, Hroot. cbn [negb].
    rewrite (IH fuel (pre ++ [P])) by (simpl in Hfuel; lia).
    by rewrite <- app_assoc.
Qed.

Lemma ancestor_chain_relative P chain : ancestor_chain P chain → ¬ relative P.
Proof.
  induction 1 as [P Hroot|P chain Hroot _ IH]; intros Hrel.
  - by rewrite (isRoot_relative _ Hrel) in Hroot.
  - by apply IH, parent_relative.
Qed.

End Ancestors.

(** C9: for a relative path (its parsed root is empty) [isRoot] is false
    for the path and for every iterate of [parent], the iterates are [.]
    from some point on, and the loop of [Project.find] does not end,
    whatever the number of iterations granted; for an absolute path the
    loop ends. *)
Theorem find_loop_termination (P : Raft.Path) :
  (relative P →
     (∀ n, Raft.Path.isRoot (Nat.iter n Raft.Path.parent P) = false)
     ∧ (∃ n, ∀ m, n ≤ m → Nat.iter m Raft.Path.parent P = Raft.mkPath ".")
     ∧ Raft.Path.parent (Raft.mkPath ".") = Raft.mkPath "."
     ∧ (∀ fuel, Raft.Project.find_loop fuel [P] = None))
  ∧ (¬ relative P →
     ∃ fuel paths, Raft.Project.find_loop fuel [P] = Some paths).
Proof.
  split.
  - intros Hrel. repeat split.
    + intros n. by apply isRoot_relative, iter_parent_relative.
    + exists (S (String.length (Raft.path P))). intros m Hm.
      apply parent_reaches_dot; [done | lia].
    + intros fuel. by apply (find_loop_relative fuel [P] P).
  - intros Habs. destruct (ancestor_chain_absolute P Habs) as [chain Hchain].
    exists (length chain), chain.
    by apply (find_loop_chain P chain Hchain (length chain) []).
Qed.

Lemma find_loop_termination_witness :
  (relative (Raft.mkPath "src/engine")
   ∧ (∀ fuel, Raft.Project.find_loop fuel [Raft.mkPath "src/engine"] = None))
  ∧ (¬ relative (Raft.mkPath "/home/user/game")
     ∧ ∃ fuel paths,
         Raft.Project.find_loop fuel [Raft.mkPath "/home/user/game"] = Some paths).
Proof.
  split.
  - split; [reflexivity|].
    apply (proj1 (find_loop_termination (Raft.mkPath "src/engine"))). reflexivity.
  - split; [discriminate|].
    apply (proj2 (find_loop_termination (Raft.mkPath "/home/user/game"))). discriminate.
Defined.

(** ** Running promise chains *)
Section Running.
Import Runtime.

Lemma run_bind {A B} (t : Task A) (f : A → Task B) w :
  run (t ≫= f) w =
  match run t w with
  | (Resolved a, w') => run (f a) w'
  | (Rejected e, w') => (Rejected e, w')
  end.
Proof.
  unfold mbind, Task_bind. revert w.
  induction t as [a|e|X op k IH]; intros w; cbn [bind run]; try reflexivity.
  destruct (handle op w) as [x w']. apply IH.
Qed.

Lemma run_call {X} (op : Op X) w :
  run (call op) w = (Resolved (handle op w).1, (handle op w).2).
Proof. unfold call. cbn [run]. by destruct (handle op w). Qed.

Lemma run_ret {A} (a : A) w : run (mret a) w = (Resolved a, w).
Proof. reflexivity. Qed.

End Running.

(** ** [Project.find] *)
Section Find.
Import Runtime.
Import Raft (Path, mkPath, Obj).

Lemma run_filter_exists paths w :
  run (Raft.Project.filter_exists (mkPath "Raft") paths) w =
  (Resolved (List.filter (has_marker w) paths), w).
Proof.
  induction paths as [|p rest IH]; [reflexivity|].
  cbn [Raft.Project.filter_exists]. rewrite run_bind.
  unfold Raft.Path.exists_. rewrite run_call. cbn [handle fst snd].
  rewrite run_bind, IH. cbn [List.filter]. fold (has_marker w p).
  by destruct (has_marker w p).
Qed.

Lemma filter_nearest {A} (f : A → bool) pre C post :
  f C = true → Forall (λ x, f x = false) pre →
  head (List.filter f (pre ++ C :: post)) = Some C.
Proof.
  intros HC Hpre. induction Hpre as [|x pre Hx _ IH]; simpl.
  - by rewrite HC.
  - by rewrite Hx.
Qed.

Lemma filter_nothing {A} (f : A → bool) l :
  Forall (λ x, f x = false) l → List.filter f l = [].
Proof. induction 1 as [|x l Hx _ IH]; simpl; [done|]. by rewrite Hx. Qed.

Lemma load_root this w p w' :
  run (Project.load this) w = (Resolved p, w') → root p = root this.
Proof.
  unfold Project.load. rewrite run_bind.
  destruct (run (Project.Path_read _) w) as [[data|e] w1]; [|discriminate].
  rewrite run_bind. destruct (run (Raft.raftlog _ _) w1) as [[[]|e] w2]; [|discriminate].
  rewrite run_bind. destruct (run (call _) w2) as [[[l|]|e] w3]; try discriminate.
  rewrite run_bind. destruct (run (call _) w3) as [[text|e] w4]; [|discriminate].
  rewrite run_bind. destruct (run (Raft.raftlog _ _) w4) as [[[]|e] w5]; [|discriminate].
  rewrite run_ret. by intros [= <- _].
Qed.

End Find.

(** ** [createRepository] and [createDependency] *)
Section Create.
Import JS Runtime.

Lemma createDependency_unknown_buildSystem d :
  RaftFile.buildSystem d ≠ "cmake" → ∃ e, Raft.createDependency d = inl e.
Proof.
  intros H. unfold Raft.createDependency.
  destruct (Raft.createRepository _); [by eexists|].
  apply str_eqb_neq in H. rewrite H. by eexists.
Qed.

Lemma createDependency_unknown_buildSystem_error d :
  truthy_opt (RaftFile.type (RaftFile.repository d)) = true →
  RaftFile.buildSystem d ≠ "cmake" →
  Raft.createDependency d = inl (JsError "unknown build system type").
Proof.
  intros Ht H. unfold Raft.createDependency, Raft.createRepository.
  rewrite Ht. apply str_eqb_neq in H. by rewrite H.
Qed.

Lemma createRepository_missing_type r :
  RaftFile.type r = None ∨ RaftFile.type r = Some "" →
  Raft.createRepository r = inl (JsError "Unknown repository type").
Proof. unfold Raft.createRepository. by intros [-> | ->]. Qed.

(** Any type that is not empty is taken for a git repository. *)
Lemma createRepository_any_type r t :
  RaftFile.type r = Some t → t ≠ "" →
  Raft.createRepository r = inr (Raft.GitRepository (RaftFile.location r)).
Proof.
  intros Ht Hne. unfold Raft.createRepository. rewrite Ht. cbn [truthy_opt].
  by rewrite (proj2 (truthy_true _) Hne).
Qed.

End Create.

(** C5: the repository type [svn] is not rejected: [createRepository]
    returns a git repository for it, and [createDependency] a dependency
    that clones with git. *)
Theorem createRepository_svn_is_git :
  Raft.createRepository
    {| RaftFile.type := Some "svn"; RaftFile.location := "https://example/foo" |}
  = inr (Raft.GitRepository "https://example/foo")
  ∧ Raft.createDependency
      {| RaftFile.name := "foo";
         RaftFile.repository :=
           {| RaftFile.type := Some "svn"; RaftFile.location := "https://example/foo" |};
         RaftFile.buildSystem := "cmake" |}
    = inr (Raft.CMakeDependency "foo" (Raft.GitRepository "https://example/foo")).
Proof. split; reflexivity. Qed.

(** ** [mkdirp] and [Path.createDirectory] *)
Section Mkdirp.
Import Runtime.

Lemma mkdir_ok fs k fs' :
  Fs.mkdir fs k = inr fs' → Fs.isDirectory fs' k = true.
Proof.
  unfold Fs.mkdir, Fs.isDirectory, Fs.stat.
  destruct k as [|x k]; [discriminate|].
  destruct (Fs.entries fs !! (x :: k)); [discriminate|].
  repeat case_match; try discriminate; intros [= <-]; simplify_eq; simpl in *;
    by simplify_map_eq.
Qed.

Lemma mkdirP_directory fuel k fs fs' :
  Fs.mkdirP fuel k fs = Some (None, fs') → Fs.isDirectory fs' k = true.
Proof.
  revert k fs fs'. induction fuel as [|fuel IH]; intros k fs fs'; [discriminate|].
  cbn [Fs.mkdirP]. destruct (Fs.mkdir fs k) as [er|fs1] eqn:E.
  - destruct er;
      try (destruct (Fs.isDirectory fs k) eqn:Ed; intros [= <-]; exact Ed).
    destruct (Fs.mkdirP fuel (removelast k) fs) as [[[er|] fs1]|]; try discriminate.
    apply IH.
  - intros [= <-]. by apply mkdir_ok in E.
Qed.

Lemma mkdir_ENOENT fs k :
  Fs.mkdir fs k = inl Fs.ENOENT → k ≠ [] ∧ Fs.stat fs (removelast k) = None.
Proof.
  unfold Fs.mkdir. destruct k as [|x k]; [discriminate|].
  destruct (Fs.stat fs (x :: k)); [discriminate|].
  destruct (Fs.stat fs (removelast (x :: k))) as [[]|]; try discriminate. done.
Qed.

Lemma mkdirP_parent_directory fuel k fs :
  Fs.isDirectory fs (removelast k) = true → Fs.mkdirP (S fuel) k fs ≠ None.
Proof.
  intros Hd. cbn [Fs.mkdirP]. destruct (Fs.mkdir fs k) as [er|fs1] eqn:E; [|done].
  destruct er; try (by destruct (Fs.isDirectory fs k)).
  apply mkdir_ENOENT in E as [_ E]. unfold Fs.isDirectory in Hd.
  by rewrite E in Hd.
Qed.

(** The recursion of [mkdirP] is never deeper than the path is long. *)
Lemma mkdirP_enough_fuel fuel k fs :
  length k < fuel → Fs.mkdirP fuel k fs ≠ None.
Proof.
  revert k fs. induction fuel as [|fuel IH]; intros k fs Hlen; [lia|].
  cbn [Fs.mkdirP]. destruct (Fs.mkdir fs k) as [er|fs1] eqn:E; [|done].
  destruct er; try (by destruct (Fs.isDirectory fs k)).
  apply mkdir_ENOENT in E as [Hk _].
  assert (length (removelast k) < fuel) as Hlen'.
  { destruct k as [|x k] using rev_ind; [done|].
    rewrite removelast_last. rewrite length_app in Hlen. simpl in Hlen. lia. }
  destruct (Fs.mkdirP fuel (removelast k) fs) as [[[er|] fs1]|] eqn:Ep.
  - done.
  - apply mkdirP_directory in Ep. destruct fuel as [|fuel]; [lia|].
    by apply mkdirP_parent_directory.
  - by apply IH in Ep.
Qed.

(** On a directory that exists [mkdirp] reports no error and changes
    nothing. *)
Lemma mkdirp_existing fs path :
  Fs.isDirectory fs (Fs.resolve fs path) = true →
  Fs.mkdirp fs path = (None, fs).
Proof.
  intros Hd. unfold Fs.mkdirp. rewrite Nat.add_succ_r. cbn [Fs.mkdirP].
  unfold Fs.mkdir. unfold Fs.isDirectory in Hd.
  destruct (Fs.stat fs (Fs.resolve fs path)) as [[]|] eqn:E; try discriminate.
  unfold Fs.isDirectory. by rewrite E.
Qed.

(** [createDirectory] on a directory that exists resolves to [true]. *)
Lemma createDirectory_existing (p : Raft.Path) w :
  Fs.isDirectory (fs w) (Fs.resolve (fs w) (Raft.path p)) = true →
  run (Raft.Path.createDirectory p) w =
  (Resolved true, emit (MadeDirectory (Raft.path p) true) w).
Proof.
  intros Hd. unfold Raft.Path.createDirectory, call, mbind, Task_bind.
  cbn [bind catch run handle]. rewrite (mkdirp_existing _ _ Hd).
  cbn [bind catch run]. by destruct w.
Qed.

End Mkdirp.

(** C6: two calls of [createDirectory] in a row both resolve to [true];
    the directory is there after the first and the second leaves the
    file system as it is. *)
Theorem createDirectory_twice_true :
  let p := Raft.mkPath "/home/user/game/build/host" in
  let first := Runtime.run (Raft.Path.createDirectory p) Example.world in
  let second := Runtime.run (Raft.Path.createDirectory p) first.2 in
  Fs.accessible (Runtime.fs Example.world) (Raft.path p) = false
  ∧ first.1 = Runtime.Resolved true
  ∧ Fs.accessible (Runtime.fs first.2) (Raft.path p) = true
  ∧ second.1 = Runtime.Resolved true
  ∧ Runtime.fs second.2 = Runtime.fs first.2.
Proof. vm_compute. repeat split. Qed.

(** ** [System.execute] *)
Section Execute.
Import Runtime.

Lemma handle_trace {X} (op : Op X) w :
  ∃ Δ, trace (handle op w).2 = trace w ++ Δ.
Proof.
  destruct op; cbn [handle]; repeat case_match; cbn [snd trace emit set_fs set_heap];
    try (by exists []; rewrite app_nil_r); by eexists [_].
Qed.

Lemma run_trace {A} (t : Task A) w :
  ∃ Δ, trace (run t w).2 = trace w ++ Δ.
Proof.
  revert w. induction t as [a|e|X op k IH]; intros w; cbn [run].
  - exists []. by rewrite app_nil_r.
  - exists []. by rewrite app_nil_r.
  - destruct (handle op w) as [x w'] eqn:E.
    destruct (handle_trace op w) as [Δ1 H1]. rewrite E in H1. cbn [snd] in H1.
    destruct (IH x w') as [Δ2 H2]. exists (Δ1 ++ Δ2).
    by rewrite H2, H1, app_assoc.
Qed.

Lemma run_events {A} (t : Task A) w :
  trace (run t w).2 = trace w ++ events t w.
Proof.
  unfold events. destruct (run_trace t w) as [Δ ->].
  by rewrite drop_app_length.
Qed.

Lemma events_log_first {A} tag message (k : unit → Task A) w :
  head (events (Vis (ConsoleLog tag message) k) w) = Some (Logged tag message).
Proof.
  unfold events. cbn [run handle].
  destruct (run_trace (k tt) (emit (Logged tag message) w)) as [Δ ->].
  cbn [emit trace]. by rewrite <- app_assoc, drop_app_length.
Qed.

(** Without a working directory the first line has the tag. *)
Lemma execute_start_no_cwd command tag w :
  head (events (Raft.System.execute command
                  (Some {| Raft.System.cwd := None; Raft.System.tag := tag |})) w)
  = Some (Logged
            (effective_tag command
               (Some {| Raft.System.cwd := None; Raft.System.tag := tag |}))
            "Running in the current working directory").
Proof.
  unfold Raft.System.execute, Raft.raftlog, call, mbind, Task_bind.
  cbn [default from_option id Raft.System.cwd Raft.System.tag bind effective_tag].
  apply events_log_first.
Qed.

(** With a working directory the first line has the command for its
    tag, whatever tag was asked for. *)
Lemma execute_start_cwd command dir tag w :
  head (events (Raft.System.execute command
                  (Some {| Raft.System.cwd := Some dir; Raft.System.tag := tag |})) w)
  = Some (Logged command ("Running in " +:+ Raft.Path.toString dir)).
Proof.
  unfold Raft.System.execute, Raft.raftlog, call, mbind, Task_bind.
  cbn [default from_option id Raft.System.cwd Raft.System.tag bind].
  apply events_log_first.
Qed.

(** A command that succeeds is followed by a line with the tag. *)
Lemma execute_finish command options w out w' :
  run (Raft.System.execute command options) w = (Resolved out, w') →
  last (trace w') = Some (Logged (effective_tag command options) "Finished successfullly").
Proof.
  destruct options as [[[dir|] tg]|]; unfold Raft.System.execute;
    cbn [default from_option id Raft.System.cwd Raft.System.tag effective_tag];
    rewrite run_bind;
    (destruct (run _ w) as [[[]|e] w1]; [|discriminate]);
    rewrite run_bind;
    (destruct (run _ w1) as [[buffers|e] w2]; [|discriminate]);
    rewrite run_bind; unfold Raft.raftlog at 1; rewrite run_call;
    cbn [handle fst snd]; rewrite run_ret; intros [= <- <-];
    cbn [emit trace]; by rewrite last_snoc.
Qed.

End Execute.

(** C7: with a working directory and a tag, the line logged at the start
    of [execute] is tagged with the command, not with the tag; the lines
    after it are tagged with the tag. *)
Theorem execute_start_tagged_with_command :
  events
    (Raft.System.execute "make -j8"
       (Some {| Raft.System.cwd := Some (Raft.mkPath "/home/user/game/src");
                Raft.System.tag := Some "game" |}))
    Example.world
  = [ Runtime.Logged "make -j8" "Running in /home/user/game/src";
      Runtime.MadeDirectory "/home/user/game/src" true;
      Runtime.Logged "game" "Created /home/user/game/src";
      Runtime.Executed "make -j8" (Some "/home/user/game/src") true;
      Runtime.Logged "game" "Finished successfullly" ].
Proof. vm_compute. reflexivity. Qed.

(** ** [Project.dependencies] *)
Section Dependencies.
Import Runtime Heap Heap.

Lemma mutate_frame a m (h : gmap loc Obj) l :
  l ≠ a → mutate a m h !! l = h !! l.
Proof.
  intros Hne. destruct m; cbn [mutate]; unfold array_set, array_push, array_pop;
    repeat case_match; by simplify_map_eq.
Qed.

Lemma mutate_all_frame a ms (h : gmap loc Obj) l :
  l ≠ a → mutate_all a ms h !! l = h !! l.
Proof.
  intros Hne. unfold mutate_all. revert h.
  induction ms as [|m ms IH]; intros h; [done|].
  cbn [foldl]. by rewrite IH, mutate_frame.
Qed.

Lemma mutate_keeps a m (h : gmap loc Obj) l :
  is_Some (h !! l) → is_Some (mutate a m h !! l).
Proof.
  intros Hl. destruct (decide (l = a)) as [->|Hne].
  - destruct m; cbn [mutate]; unfold array_set, array_push, array_pop;
      repeat case_match; by simplify_map_eq.
  - by rewrite mutate_frame.
Qed.

Lemma mutate_all_keeps a ms (h : gmap loc Obj) l :
  is_Some (h !! l) → is_Some (mutate_all a ms h !! l).
Proof.
  unfold mutate_all. revert h.
  induction ms as [|m ms IH]; intros h Hl; [done|].
  cbn [foldl]. by apply IH, mutate_keeps.
Qed.

Lemma run_dependencies this w r a elements :
  raftfile this = Some r →
  heap w !! r = Some (ObjRoot (Some a)) →
  heap w !! a = Some (ObjArray elements) →
  run (Project.dependencies this) w =
  (Resolved (fresh (dom (heap w))),
   set_heap (<[fresh (dom (heap w)) := ObjArray elements]> (heap w)) w).
Proof.
  intros Hr Hroot Harr. unfold Project.dependencies. rewrite Hr.
  rewrite run_bind, run_call. cbn [handle fst snd]. rewrite Hroot.
  rewrite run_bind, run_call. cbn [handle]. unfold slice0. rewrite Harr.
  reflexivity.
Qed.

Lemma fresh_unused (h : gmap loc Obj) : h !! fresh (dom h) = None.
Proof. apply not_elem_of_dom, is_fresh. Qed.

End Dependencies.

(** C10: on a loaded project, [dependencies()] returns a new array with
    the elements of the manifest's array; whatever is done to the returned
    array ([a[i] = x], [push], [pop], any number of times), the manifest
    and its array stay as they are and the next call returns an array with
    the same elements again. *)
Theorem dependencies_fresh_copy (this : Project) (w : Runtime.World)
    (r a : Heap.loc) (elements : list Heap.loc) :
  raftfile this = Some r →
  Runtime.heap w !! r = Some (Heap.ObjRoot (Some a)) →
  Runtime.heap w !! a = Some (Heap.ObjArray elements) →
  ∃ a1 w1,
    Runtime.run (Project.dependencies this) w = (Runtime.Resolved a1, w1)
    ∧ Runtime.heap w !! a1 = None
    ∧ Runtime.heap w1 !! a1 = Some (Heap.ObjArray elements)
    ∧ Runtime.heap w1 !! a = Some (Heap.ObjArray elements)
    ∧ ∀ ms : list Heap.Mutation,
        let h := Heap.mutate_all a1 ms (Runtime.heap w1) in
        h !! r = Some (Heap.ObjRoot (Some a))
        ∧ h !! a = Some (Heap.ObjArray elements)
        ∧ ∃ a2 w2,
            Runtime.run (Project.dependencies this) (Runtime.set_heap h w1)
            = (Runtime.Resolved a2, w2)
            ∧ a2 ≠ a1
            ∧ Runtime.heap w2 !! a2 = Some (Heap.ObjArray elements).
Proof.
  intros Hr Hroot Harr.
  pose proof (fresh_unused (Runtime.heap w)) as Hfresh.
  set (a1 := fresh (dom (Runtime.heap w))) in *.
  assert (r ≠ a1) as Hr1 by congruence.
  assert (a ≠ a1) as Ha1 by congruence.
  eexists a1, _. split; [by apply (run_dependencies this w r a elements)|].
  cbn [Runtime.set_heap Runtime.heap].
  split; [done|]. split; [by simplify_map_eq|]. split; [by simplify_map_eq|].
  intros ms. set (h := Heap.mutate_all a1 ms _).
  assert (h !! r = Some (Heap.ObjRoot (Some a))) as Hroot'.
  { subst h. rewrite mutate_all_frame by done. by simplify_map_eq. }
  assert (h !! a = Some (Heap.ObjArray elements)) as Harr'.
  { subst h. rewrite mutate_all_frame by done. by simplify_map_eq. }
  split; [done|]. split; [done|].
  eexists _, _.
  split; [by apply (run_dependencies this (Runtime.set_heap h w) r a elements)|].
  cbn [Runtime.set_heap Runtime.heap]. split; [|by simplify_map_eq].
  intros E. pose proof (fresh_unused h) as Hf. rewrite E in Hf.
  assert (is_Some (h !! a1)) as [o Ho]; [|congruence].
  subst h. apply mutate_all_keeps. by simplify_map_eq.
Qed.

Lemma dependencies_fresh_copy_witness :
  let d := {| RaftFile.name := "foo";
              RaftFile.repository :=
                {| RaftFile.type := Some "git";
                   RaftFile.location := "https://example/foo.git" |};
              RaftFile.buildSystem := "cmake" |} in
  let h : gmap Heap.loc Heap.Obj :=
    <[3%positive := Heap.ObjRoot (Some 2%positive)]>
      (<[2%positive := Heap.ObjArray [1%positive]]>
         (<[1%positive := Heap.ObjDescriptor d]> ∅)) in
  let w := Runtime.set_heap h Example.world in
  let this := mkProject (Raft.mkPath "/home/user/game") (Some 3%positive) in
  ∃ a1 w1,
    Runtime.run (Project.dependencies this) w = (Runtime.Resolved a1, w1)
    ∧ Runtime.heap w1 !! a1 = Some (Heap.ObjArray [1%positive])
    ∧ Heap.mutate_all a1 [Heap.Push 3%positive; Heap.SetAt 0 2%positive]
        (Runtime.heap w1) !! 2%positive
      = Some (Heap.ObjArray [1%positive]).
Proof.
  intros d h w this.
  destruct (dependencies_fresh_copy this w 3%positive 2%positive [1%positive])
    as (a1 & w1 & Hrun & _ & H1 & _ & Hmut).
  - reflexivity.
  - reflexivity.
  - reflexivity.
  - exists a1, w1. split; [exact Hrun|]. split; [exact H1|].
    apply (Hmut [Heap.Push 3%positive; Heap.SetAt 0 2%positive]).
Defined.

(** ** [getDependency] *)
Section Pipeline.
Import Runtime.

Lemma run_raftlog tag message w :
  run (Raft.raftlog tag message) w = (Resolved tt, emit (Logged tag message) w).
Proof. reflexivity. Qed.

Lemma events_emit {A} (t : Task A) e w :
  trace (run t (emit e w)).2 = trace w ++ e :: events t (emit e w).
Proof. rewrite run_events. cbn [emit trace]. by rewrite <- app_assoc. Qed.

End Pipeline.

(** C3: [getDependency] logs [Downloading] and runs [download] to its end;
    only if that is fulfilled it logs [Building] and runs [build] in the
    world [download] left, and only if that is fulfilled it logs
    [Installing] and runs [install] in the world [build] left.  A stage
    that is rejected ends the pipeline there, with the rejection of the
    stage as the rejection of the pipeline and the world as the stage
    left it: nothing of a later stage has happened.  In the trace all
    events of a stage come before the line that announces the next
    stage. *)
Theorem getDependency_sequential (project : Raft.Project) (dependency : Raft.Dependency)
    (build_ : Raft.Build) (w : Runtime.World) :
  let name := Raft.name dependency in
  let w0 := Runtime.emit (Runtime.Logged name "Downloading") w in
  let downloaded := Runtime.run (Raft.download dependency project build_) w0 in
  let w1 := Runtime.emit (Runtime.Logged name "Building") downloaded.2 in
  let built := Runtime.run (Raft.build dependency project build_) w1 in
  let w2 := Runtime.emit (Runtime.Logged name "Installing") built.2 in
  let installed := Runtime.run (Raft.install dependency project build_) w2 in
  Runtime.run (Raft.getDependency project dependency build_) w =
    match downloaded.1 with
    | Runtime.Rejected e => (Runtime.Rejected e, downloaded.2)
    | Runtime.Resolved _ =>
        match built.1 with
        | Runtime.Rejected e => (Runtime.Rejected e, built.2)
        | Runtime.Resolved _ =>
            match installed.1 with
            | Runtime.Rejected e => (Runtime.Rejected e, installed.2)
            | Runtime.Resolved _ =>
                (Runtime.Resolved tt,
                 Runtime.emit (Runtime.Logged name "Ready") installed.2)
            end
        end
    end
  ∧ Runtime.trace downloaded.2
    = Runtime.trace w
      ++ Runtime.Logged name "Downloading"
      :: events (Raft.download dependency project build_) w0
  ∧ Runtime.trace built.2
    = Runtime.trace downloaded.2
      ++ Runtime.Logged name "Building"
      :: events (Raft.build dependency project build_) w1
  ∧ Runtime.trace installed.2
    = Runtime.trace built.2
      ++ Runtime.Logged name "Installing"
      :: events (Raft.install dependency project build_) w2.
Proof.
  intros name w0 downloaded w1 built w2 installed.
  split; [|repeat split; apply events_emit].
  unfold Raft.getDependency.
  rewrite run_bind, run_raftlog. fold name w0.
  rewrite run_bind. fold downloaded.
  destruct downloaded as [[[]|e] wd] eqn:Ed; cbn [fst snd] in *; [|reflexivity].
  rewrite run_bind, run_raftlog. fold w1.
  rewrite run_bind. fold built.
  destruct built as [[[]|e] wb] eqn:Eb; cbn [fst snd] in *; [|reflexivity].
  rewrite run_bind, run_raftlog. fold w2.
  rewrite run_bind. fold installed.
  destruct installed as [[[]|e] wi] eqn:Ei; cbn [fst snd] in *; [|reflexivity].
  apply run_raftlog.
Qed.

(** The pipeline of the dependency [foo] of the example, from the project
    in [/home/user/game] for the host. *)
Example getDependency_foo :
  events
    (Raft.getDependency {| Raft.root := Raft.mkPath "/home/user/game" |}
       (Raft.CMakeDependency "foo" (Raft.GitRepository "https://example/foo.git"))
       {| Raft.platform := "host"; Raft.architecture := "host" |})
    Example.world
  = [ Runtime.Logged "foo" "Downloading";
      Runtime.Logged
        "git clone https://example/foo.git /home/user/game/Raft/libs/src/foo"
        "Running in the current working directory";
      Runtime.Executed
        "git clone https://example/foo.git /home/user/game/Raft/libs/src/foo" None true;
      Runtime.Logged
        "git clone https://example/foo.git /home/user/game/Raft/libs/src/foo"
        "Finished successfullly";
      Runtime.Logged "foo" "Building";
      Runtime.Logged
        "cmake /home/user/game/Raft/libs/src/foo -DCMAKE_INSTALL_PREFIX=/home/user/game/Raft/libs/install/host/host"
        "Running in /home/user/game/Raft/libs/build/host/host/foo";
      Runtime.MadeDirectory "/home/user/game/Raft/libs/build/host/host/foo" true;
      Runtime.Logged
        "cmake /home/user/game/Raft/libs/src/foo -DCMAKE_INSTALL_PREFIX=/home/user/game/Raft/libs/install/host/host"
        "Created /home/user/game/Raft/libs/build/host/host/foo";
      Runtime.Executed
        "cmake /home/user/game/Raft/libs/src/foo -DCMAKE_INSTALL_PREFIX=/home/user/game/Raft/libs/install/host/host"
        (Some "/home/user/game/Raft/libs/build/host/host/foo") true;
      Runtime.Logged
        "cmake /home/user/game/Raft/libs/src/foo -DCMAKE_INSTALL_PREFIX=/home/user/game/Raft/libs/install/host/host"
        "Finished successfullly";
      Runtime.Logged "make -j8" "Running in /home/user/game/Raft/libs/build/host/host/foo";
      Runtime.MadeDirectory "/home/user/game/Raft/libs/build/host/host/foo" true;
      Runtime.Logged "make -j8" "Created /home/user/game/Raft/libs/build/host/host/foo";
      Runtime.Executed "make -j8"
        (Some "/home/user/game/Raft/libs/build/host/host/foo") true;
      Runtime.Logged "make -j8" "Finished successfullly";
      Runtime.Logged "foo" "Installing";
      Runtime.Logged "make install"
        "Running in /home/user/game/Raft/libs/build/host/host/foo";
      Runtime.MadeDirectory "/home/user/game/Raft/libs/build/host/host/foo" true;
      Runtime.Logged "make install"
        "Created /home/user/game/Raft/libs/build/host/host/foo";
      Runtime.Executed "make install"
        (Some "/home/user/game/Raft/libs/build/host/host/foo") true;
      Runtime.Logged "make install" "Finished successfullly";
      Runtime.Logged "foo" "Ready" ].
Proof. vm_compute. reflexivity. Qed.

(** ** [Promise.map(...).then(...)] *)
Section Join.
Import Runtime Bluebird.

Lemma fulfilled_settled {A} (t : Task A) : fulfilled t = true → settled t = true.
Proof. by destruct t. Qed.



Lemma settle_fulfilled after ts t :
  settle after ts Waiting = Continued t → Forall (λ t, fulfilled t = true) ts.
Proof.
  cbn [settle]. destruct (first_rejection ts); [discriminate|].
  destruct (forallb fulfilled ts) eqn:E; [|discriminate].
  intros _. apply Forall_forall. intros x Hx%list_elem_of_In.
  by apply (proj1 (List.forallb_forall _ _) E).
Qed.

Lemma initial_ok m w : joined_ok (initial m w).
Proof.
  unfold joined_ok, continued, initial. cbn [joined chains].
  destruct (settle _ _ Waiting) eqn:E; try discriminate.
  intros _. by apply settle_fulfilled in E.
Qed.

Lemma step_chain_unsettled i s s' :
  step (Chain i) s = Some s' →
  ∃ t, chains s !! i = Some t ∧ settled t = false
       ∧ chains s' = <[i := (advance t (world s)).1]> (chains s)
       ∧ world s' = (advance t (world s)).2
       ∧ joined s' = settle (after s) (chains s') (joined s)
       ∧ after s' = after s.
Proof.
  cbn [step]. destruct (chains s !! i) as [t|] eqn:Et; [|discriminate].
  destruct (settled t) eqn:Es; [discriminate|].
  destruct (advance t (world s)) as [t' w'] eqn:Ea.
  intros [= <-]. exists t. cbn [chains world joined after].
  rewrite Ea. by repeat split.
Qed.

Lemma step_continuation s s' :
  step Continuation s = Some s' →
  chains s' = chains s ∧ continued s = true ∧ continued s' = true.
Proof.
  cbn [step]. destruct (joined s) as [|t|e] eqn:Ej; try discriminate.
  destruct (settled t); [discriminate|].
  destruct (advance t (world s)) as [t' w'].
  intros [= <-]. unfold continued. cbn [chains joined]. by rewrite Ej.
Qed.

Lemma step_ok turn s s' : joined_ok s → step turn s = Some s' → joined_ok s'.
Proof.
  intros Hs Hstep. destruct turn as [i|].
  - apply step_chain_unsettled in Hstep
      as (t & Ht & Hun & Hchains & _ & Hj & _).
    unfold joined_ok, continued. rewrite Hj.
    destruct (joined s) as [|t0|e] eqn:Ej.
    + destruct (settle _ _ Waiting) eqn:E; try discriminate.
      intros _. by apply settle_fulfilled in E.
    + intros _. exfalso.
      assert (Forall (λ t, fulfilled t = true) (chains s)) as Hall.
      { apply Hs. unfold continued. by rewrite Ej. }
      rewrite Forall_lookup in Hall. specialize (Hall i t Ht).
      apply fulfilled_settled in Hall. congruence.
    + discriminate.
  - apply step_continuation in Hstep as (Hc & H1 & _).
    unfold joined_ok. rewrite Hc. intros _. by apply Hs.
Qed.

Lemma steps_ok schedule s s' :
  joined_ok s → steps schedule s = Some s' → joined_ok s'.
Proof.
  revert s. induction schedule as [|turn rest IH]; intros s Hs; cbn [steps].
  - by intros [= <-].
  - destruct (step turn s) as [s1|] eqn:E; [|discriminate].
    apply IH. by eapply step_ok.
Qed.




(** A chain with something left to do can take its turn, whatever has
    become of the others. *)
Lemma step_chain_enabled i s t :
  chains s !! i = Some t → settled t = false →
  ∃ s', step (Chain i) s = Some s'
        ∧ chains s' !! i = Some (advance t (world s)).1.
Proof.
  intros Ht Hun. cbn [step]. rewrite Ht, Hun.
  destruct (advance t (world s)) as [t' w'] eqn:Ea.
  eexists. split; [reflexivity|]. cbn [chains fst].
  apply list_lookup_insert_eq. by eapply lookup_lt_Some.
Qed.


End Join.

(** ** [Promise.map(...).then(...)]: what the chains can reach *)
Section JoinMore.
Import Runtime Bluebird.













End JoinMore.



(* ===================================================================== *)
(** * Part III: further properties of the code                           *)
(* ===================================================================== *)

(** ** More on [Path]: [isRoot], [parent] and [append] *)
Section PathShape.
Import JS NodePath.

Lemma parse_scan_dirname_scan s n m :
  parse_scan s 1 n m =
  match dirname_scan s n m with
  | Some e => e + 1
  | None => 0
  end.
Proof.
  revert m. induction n as [|n IH]; intros m; [reflexivity|].
  cbn [parse_scan dirname_scan]. change (1 + n) with (S n).
  destruct (slash_at s (S n)); [|apply IH].
  destruct m; cbn [negb]; [apply IH | reflexivity].
Qed.

Lemma slice0_1 s : starts_with_slash s = true → slice0 1 s = "/".
Proof.
  destruct s as [|c s]; [discriminate|]. simpl.
  unfold is_slash. intros ->%bool_decide_eq_true. by destruct s.
Qed.

(** [isRoot] of an absolute path, from the scan of [dirname]. *)
Lemma isRoot_absolute s :
  isAbsolute s = true →
  Raft.Path.isRoot (Raft.mkPath s) =
  match dirname_scan s (String.length s - 1) true with
  | None => true
  | Some e => bool_decide (e = 1)
  end.
Proof.
  intros Habs. unfold Raft.Path.isRoot, parse. cbn [Raft.path].
  destruct (String.length s =? 0)%nat eqn:E0.
  { apply Nat.eqb_eq in E0. by destruct s. }
  rewrite slash_at_0. unfold isAbsolute in Habs. rewrite Habs.
  cbn [root dir]. rewrite parse_scan_dirname_scan.
  destruct (dirname_scan s (String.length s - 1) true) as [e|] eqn:Es;
    [|reflexivity].
  apply dirname_scan_bound in Es as [He _].
  assert ((0 <? e + 1)%nat = true) as -> by (apply Nat.ltb_lt; lia).
  replace (e + 1 - 1) with e by lia.
  rewrite andb_true_r. unfold str_eqb.
  destruct (decide (e = 1)) as [->|Hne].
  - rewrite slice0_1 by done. by rewrite !bool_decide_eq_true_2.
  - rewrite (bool_decide_eq_false_2 (e = 1)) by done.
    apply bool_decide_eq_false_2. intros E.
    apply (f_equal String.length) in E. rewrite slice0_length in E by lia.
    simpl in E. lia.
Qed.

Lemma slash_free_slash_at s i : slash_free s = true → slash_at s i = false.
Proof.
  unfold slash_at. revert i. induction s as [|c s IH]; intros i H; [by destruct i|].
  simpl in H. apply andb_true_iff in H as [Hc Hs]. destruct i as [|i]; simpl.
  - by apply negb_true_iff.
  - by apply IH.
Qed.

Lemma dirname_scan_no_slash c name i m :
  slash_free name = true → dirname_scan (String c name) i m = None.
Proof.
  intros H. revert m. induction i as [|i IH]; intros m; [reflexivity|].
  cbn [dirname_scan].
  assert (slash_at (String c name) (S i) = false) as ->.
  { unfold slash_at. simpl. by apply (slash_free_slash_at name i). }
  apply IH.
Qed.


Lemma slice0_prefix n s :
  n ≤ String.length s →
  ∃ rest, s = slice0 n s +:+ rest ∧ String.length rest = String.length s - n.
Proof.
  unfold slice0. revert s. induction n as [|n IH]; intros s Hn.
  - exists s. destruct s; simpl; split; (reflexivity || lia).
  - destruct s as [|c s]; [simpl in Hn; lia|].
    destruct (IH s) as (rest & E & Hlen); [simpl in Hn; lia|].
    exists rest. simpl. split; [by rewrite <- E | exact Hlen].
Qed.

End PathShape.

(** X1: [isRoot()] holds for every directory directly below the root, not
    only for the root: it is true of [/name] for every name without a
    slash, and whenever it is true of an absolute path the parent of the
    path is [/] or [//]. *)
Theorem isRoot_below_root (name s : string) :
  slash_free name = true →
  NodePath.isAbsolute s = true →
  Raft.Path.isRoot (Raft.mkPath ("/" +:+ name)) = true
  ∧ (Raft.Path.isRoot (Raft.mkPath s) = true →
     Raft.Path.parent (Raft.mkPath s) = Raft.mkPath "/"
     ∨ Raft.Path.parent (Raft.mkPath s) = Raft.mkPath "//").
Proof.
  intros Hname Habs. split.
  - rewrite isRoot_absolute by reflexivity.
    change ("/" +:+ name) with (String JS.slash name).
    by rewrite dirname_scan_no_slash.
  - rewrite isRoot_absolute by done. unfold Raft.Path.parent, NodePath.dirname.
    cbn [Raft.path].
    destruct (String.length s =? 0)%nat eqn:E0.
    { apply Nat.eqb_eq in E0. by destruct s. }
    rewrite slash_at_0. unfold NodePath.isAbsolute in Habs. rewrite Habs.
    destruct (NodePath.dirname_scan s (String.length s - 1) true) as [e|];
      [|by left].
    intros ->%bool_decide_eq_true. by right.
Qed.

Lemma isRoot_below_root_witness :
  slash_free "home" = true ∧ NodePath.isAbsolute "/home/" = true
  ∧ Raft.Path.isRoot (Raft.mkPath "/home") = true
  ∧ (Raft.Path.parent (Raft.mkPath "/home/") = Raft.mkPath "/"
     ∨ Raft.Path.parent (Raft.mkPath "/home/") = Raft.mkPath "//").
Proof.
  split; [reflexivity|]. split; [reflexivity|].
  destruct (isRoot_below_root "home" "/home/" eq_refl eq_refl) as [H1 H2].
  split; [exact H1 | apply H2; reflexivity].
Defined.



(** X3: the parent of a path is [.], [/], [//] or a proper prefix of the
    path that is not empty: [parent] never returns the empty path and adds
    no characters of its own to a path that has a directory part. *)
Theorem parent_shape (p : Raft.Path) :
  let d := Raft.path (Raft.Path.parent p) in
  d = "." ∨ d = "/" ∨ d = "//"
  ∨ (d ≠ "" ∧ ∃ rest, rest ≠ "" ∧ Raft.path p = d +:+ rest).
Proof.
  destruct p as [s]. cbn [Raft.Path.parent Raft.path]. unfold NodePath.dirname.
  destruct (String.length s =? 0)%nat; [by left|].
  destruct (NodePath.dirname_scan s (String.length s - 1) true) as [e|] eqn:Es.
  - apply dirname_scan_bound in Es as [He1 He2]. specialize (He2 eq_refl).
    destruct (JS.slash_at s 0 && (e =? 1)%nat); [by right; right; left|].
    right. right. right.
    destruct (slice0_prefix e s) as (rest & E & Hlen); [lia|]. split.
    + intros E0. apply (f_equal String.length) in E0.
      rewrite slice0_length in E0 by lia. simpl in E0. lia.
    + exists rest. split; [|exact E]. intros ->. simpl in Hlen. lia.
  - destruct (JS.slash_at s 0); [by right; left | by left].
Qed.

(** ** More on [Path.append] and the layout of a project *)
Section Layout.
Import JS NodePath.

Lemma join_loop_names names :
  Forall (λ n, n ≠ "") names → join_loop "" names = JS.join "/" names.
Proof.
  induction 1 as [|n rest Hn Hrest IH]; [reflexivity|].
  rewrite join_loop_first by done. destruct rest as [|m rest]; [reflexivity|].
  rewrite join_loop_prefix by done. rewrite IH.
  inversion Hrest as [|? ? Hm _]; subst.
  assert (truthy (JS.join "/" (m :: rest)) = true) as ->; [|reflexivity].
  apply truthy_true. intros E. by apply join_eq_nil in E.
Qed.

Lemma plain_names_not_empty names :
  Forall plain names → Forall (λ n, n ≠ "") names.
Proof. intros H. eapply Forall_impl; [exact H|]. by intros ? [? _]. Qed.

Lemma plain_names_slash_free names :
  Forall plain names → Forall (λ n, slash_free n = true) names.
Proof. intros H. eapply Forall_impl; [exact H|]. apply plain_slash_free. Qed.

(** [join] of a directory and plain names. *)
Lemma join_located r names :
  Forall plain names → names ≠ [] → NodePath.join (r :: names) = located r names.
Proof.
  intros Hnames Hne. destruct (decide (r = "")) as [->|Hr].
  - unfold NodePath.join. rewrite join_loop_skip.
    rewrite join_loop_names by (by apply plain_names_not_empty).
    rewrite normalize_render.
    assert (isAbsolute (JS.join "/" names) = false) as Hrel.
    { destruct names as [|n rest]; [done|]. inversion Hnames as [|? ? Hn _]; subst.
      unfold isAbsolute. rewrite join_starts by (by apply plain_not_empty).
      by apply slash_free_starts, plain_slash_free. }
    rewrite Hrel. cbn [negb].
    rewrite split_join by (done || by apply plain_names_slash_free).
    assert (normal true names) as Hn by (by exists 0, names).
    rewrite (normalizeArray_normal_fixed _ _ Hn).
    rewrite (join_ends _ _ Hn).
    rewrite (render_nonempty _ _ _ _ Hn Hne).
    unfold located. cbn. by rewrite str_app_nil_r.
  - assert (join_loop "" [r] = r) as Er by (by rewrite join_loop_first).
    pose proof (join_plain [r] names) as H. rewrite Er in H.
    by apply H.
Qed.

(** A segment that is itself plain names joined by slashes counts as
    these names. *)
Lemma join_flatten r base names :
  Forall plain base → base ≠ [] →
  NodePath.join (r :: JS.join "/" base :: names) = NodePath.join (r :: base ++ names).
Proof.
  intros Hbase Hne. unfold NodePath.join. f_equal.
  change (r :: JS.join "/" base :: names) with ([r; JS.join "/" base] ++ names).
  change (r :: base ++ names) with ((r :: base) ++ names).
  rewrite !join_loop_app. f_equal.
  assert (JS.join "/" base ≠ "") as HB.
  { intros E. apply join_eq_nil in E; [done|]. by apply plain_names_not_empty. }
  destruct (decide (r = "")) as [->|Hr].
  - rewrite !join_loop_skip. rewrite (join_loop_first _ [] HB).
    rewrite join_loop_names by (by apply plain_names_not_empty). reflexivity.
  - rewrite !(join_loop_first r) by exact Hr.
    rewrite (join_loop_next r _ [] Hr HB).
    rewrite (join_loop_prefix r base Hr).
    rewrite join_loop_names by (by apply plain_names_not_empty).
    by rewrite (proj2 (truthy_true _) HB).
Qed.

Lemma located_normal r names :
  Forall plain names →
  normal (negb (isAbsolute r))
    (normalizeArray (split r) (negb (isAbsolute r)) ++ names).
Proof. intros H. apply normal_app_plain; [apply normalize_parts_normal | done]. Qed.

Lemma located_render r names :
  Forall plain names → names ≠ [] →
  located r names =
  render (isAbsolute r) false
    (normalizeArray (split r) (negb (isAbsolute r)) ++ names).
Proof.
  intros H Hne. rewrite (render_nonempty _ _ _ _ (located_normal r names H)).
  - by rewrite str_app_nil_r.
  - by intros [_ ?]%app_eq_nil.
Qed.

(** Going on from a located directory. *)
Lemma located_located r names more :
  Forall plain names → names ≠ [] → Forall plain more →
  located (located r names) more = located r (names ++ more).
Proof.
  intros H Hne Hmore. unfold located at 1.
  rewrite (located_render r names H Hne).
  rewrite render_isAbsolute by (by apply located_normal).
  rewrite render_parts by (by apply located_normal).
  unfold located. by rewrite <- app_assoc.
Qed.

Lemma located_inj r names1 names2 :
  Forall plain names1 → Forall plain names2 → names1 ≠ [] → names2 ≠ [] →
  located r names1 = located r names2 → names1 = names2.
Proof.
  intros H1 H2 Hne1 Hne2 E. unfold located in E.
  apply (inj (String.app _)) in E. apply (f_equal split) in E.
  assert (Forall (λ p, slash_free p = true)
            (normalizeArray (split r) (negb (isAbsolute r)))) as HR.
  { apply (normal_slash_free (negb (isAbsolute r))), normalize_parts_normal. }
  rewrite !split_join in E.
  - by apply app_inv_head in E.
  - by intros [_ ?]%app_eq_nil.
  - apply Forall_app. split; [done | by apply plain_names_slash_free].
  - by intros [_ ?]%app_eq_nil.
  - apply Forall_app. split; [done | by apply plain_names_slash_free].
Qed.

Lemma join_app l1 l2 :
  l1 ≠ [] → l2 ≠ [] →
  JS.join "/" (l1 ++ l2) = JS.join "/" l1 +:+ "/" +:+ JS.join "/" l2.
Proof.
  intros H1 H2. induction l1 as [|d l1 IH]; [done|].
  destruct l1 as [|d' l1].
  - destruct l2; [done | reflexivity].
  - change ((d :: d' :: l1) ++ l2) with (d :: d' :: (l1 ++ l2)).
    rewrite !join_cons. rewrite !str_app_assoc. do 2 f_equal.
    apply (IH ltac:(discriminate)).
Qed.

(** Below a directory given in normal form the names are simply
    appended. *)
Lemma located_below dirs names :
  Forall plain dirs → dirs ≠ [] → Forall plain names → names ≠ [] →
  located ("/" +:+ JS.join "/" dirs) names
  = "/" +:+ JS.join "/" dirs +:+ "/" +:+ JS.join "/" names.
Proof.
  intros Hdirs Hne Hnames Hne'.
  assert (isAbsolute ("/" +:+ JS.join "/" dirs) = true) as Habs by reflexivity.
  assert (split ("/" +:+ JS.join "/" dirs) = "" :: dirs) as Hsplit.
  { change ("/" +:+ JS.join "/" dirs) with ("" +:+ "/" +:+ JS.join "/" dirs).
    rewrite split_app_slash.
    by rewrite split_join by (done || by apply plain_names_slash_free). }
  unfold located. rewrite Habs, Hsplit. cbn [negb]. unfold normalizeArray.
  rewrite normalizeArray_from_skip by (by left).
  rewrite normalizeArray_from_plain by done. cbn [app].
  f_equal. by apply join_app.
Qed.

Lemma plain_literal s :
  s ≠ "" → s ≠ "." → s ≠ ".." → slash_free s = true → plain s.
Proof. by repeat split. Qed.

End Layout.

Section ProjectLayout.
Import Raft (mkPath, Str, Obj).

Lemma dirForDependency_located this name :
  plain name →
  Raft.path (Project.dirForDependency this name)
  = located (Raft.path (root this)) ["Raft"; "libs"; "src"; name].
Proof.
  intros Hn.
  change (Project.dirForDependency this name)
    with (mkPath (NodePath.join (Raft.path (root this)
                    :: JS.join "/" ["Raft"; "libs"; "src"] :: [name]))).
  cbn [Raft.path].
  rewrite join_flatten; [apply join_located|..];
    repeat (apply Forall_cons_2; [done || (by apply plain_literal)|]);
    (apply Forall_nil_2 || discriminate).
Qed.

Lemma dirForDependencyBuild_located this name build :
  plain name → plain (BuildConfig.platform build) →
  plain (BuildConfig.architecture build) →
  Raft.path (Project.dirForDependencyBuild this name build)
  = located (Raft.path (root this))
      ["Raft"; "libs"; "build"; BuildConfig.platform build;
       BuildConfig.architecture build; name].
Proof.
  intros Hn Hp Ha.
  change (Project.dirForDependencyBuild this name build)
    with (mkPath (NodePath.join (Raft.path (root this)
                    :: JS.join "/" ["Raft"; "libs"; "build"]
                    :: [BuildConfig.platform build;
                        BuildConfig.architecture build; name]))).
  cbn [Raft.path].
  rewrite join_flatten; [apply join_located|..];
    repeat (apply Forall_cons_2; [done || (by apply plain_literal)|]);
    (apply Forall_nil_2 || discriminate).
Qed.

Lemma dirForDependencyInstall_located this build :
  plain (BuildConfig.platform build) → plain (BuildConfig.architecture build) →
  Raft.path (Project.dirForDependencyInstall this build)
  = located (Raft.path (root this))
      ["Raft"; "libs"; "install"; BuildConfig.platform build;
       BuildConfig.architecture build].
Proof.
  intros Hp Ha.
  change (Project.dirForDependencyInstall this build)
    with (mkPath (NodePath.join (Raft.path (root this)
                    :: JS.join "/" ["Raft"; "libs"; "install"]
                    :: [BuildConfig.platform build;
                        BuildConfig.architecture build]))).
  cbn [Raft.path].
  rewrite join_flatten; [apply join_located|..];
    repeat (apply Forall_cons_2; [done || (by apply plain_literal)|]);
    (apply Forall_nil_2 || discriminate).
Qed.

Lemma install_subdirectory this build sub :
  plain (BuildConfig.platform build) → plain (BuildConfig.architecture build) →
  plain sub →
  Raft.path (Raft.Path.append (Project.dirForDependencyInstall this build)
               [Obj (mkPath sub)])
  = located (Raft.path (root this))
      ["Raft"; "libs"; "install"; BuildConfig.platform build;
       BuildConfig.architecture build; sub].
Proof.
  intros Hp Ha Hs. unfold Raft.Path.append at 1.
  cbn [Raft.path map Raft.Path.segmentToString Raft.Path.toString].
  rewrite dirForDependencyInstall_located by done.
  rewrite join_located
    by ((apply Forall_cons_2; [done | apply Forall_nil_2]) || discriminate).
  rewrite located_located; [reflexivity|..];
    repeat (apply Forall_cons_2; [done || (by apply plain_literal)|]);
    (apply Forall_nil_2 || discriminate).
Qed.

Lemma dirForBuild_located this build :
  BuildConfig.isDeploy build = false →
  Project.dirForBuild this build
  = inr (mkPath (located (Raft.path (root this)) ["build"])).
Proof.
  intros Hd. unfold Project.dirForBuild. rewrite Hd. f_equal.
  unfold Raft.Path.append. f_equal.
  apply (join_located _ ["build"]); [|discriminate].
  apply Forall_cons_2; [by apply plain_literal | apply Forall_nil_2].
Qed.

End ProjectLayout.

Section AppendFacts.
Import JS NodePath.

Lemma join_loop_absolute segments :
  isAbsolute (join_loop "" segments) =
  match List.find truthy segments with
  | Some x => isAbsolute x
  | None => false
  end.
Proof.
  induction segments as [|x l IH]; [reflexivity|].
  cbn [List.find]. destruct (truthy x) eqn:Ex.
  - apply truthy_true in Ex. rewrite join_loop_first by done.
    rewrite join_loop_prefix by done.
    destruct (truthy (join_loop "" l)); [|done].
    unfold isAbsolute. by apply starts_with_slash_app.
  - apply truthy_false in Ex as ->. by rewrite join_loop_skip.
Qed.

Lemma join_loop_skip_middle l1 l2 :
  join_loop "" (l1 ++ "" :: l2) = join_loop "" (l1 ++ l2).
Proof. by rewrite !join_loop_app, join_loop_skip. Qed.

End AppendFacts.

(** X4: [append] returns a path in normal form: it is never empty,
    appending nothing to it gives it back, it is absolute exactly when the
    first non-empty string among the path and the segments is, and empty
    segments make no difference. *)
Theorem append_normalizes (p : Raft.Path) (xs ys : list Raft.Segment) :
  let strings := Raft.path p :: map Raft.Path.segmentToString (xs ++ ys) in
  Raft.path (Raft.Path.append p (xs ++ ys)) ≠ ""
  ∧ Raft.Path.append (Raft.Path.append p (xs ++ ys)) [] = Raft.Path.append p (xs ++ ys)
  ∧ NodePath.isAbsolute (Raft.path (Raft.Path.append p (xs ++ ys)))
    = match List.find JS.truthy strings with
      | Some x => NodePath.isAbsolute x
      | None => false
      end
  ∧ Raft.Path.append p (xs ++ Raft.Str "" :: ys) = Raft.Path.append p (xs ++ ys).
Proof.
  intros strings. unfold Raft.Path.append. cbn [Raft.path map]. fold strings.
  split; [apply normalize_not_empty|]. split; [|split].
  - f_equal. unfold NodePath.join at 1.
    rewrite join_loop_first by apply normalize_not_empty.
    apply normalize_idem.
  - unfold NodePath.join. rewrite normalize_isAbsolute. apply join_loop_absolute.
  - f_equal. unfold NodePath.join. f_equal. subst strings.
    rewrite !map_app. cbn [map Raft.Path.segmentToString].
    apply (join_loop_skip_middle (Raft.path p :: map _ xs)).
Qed.

(** X5: the layout of a project.  For a dependency name, a platform and
    an architecture that are plain path segments, the derived directories
    are the directories [Raft/libs/src/<name>],
    [Raft/libs/build/<platform>/<architecture>/<name>],
    [Raft/libs/install/<platform>/<architecture>] with its [lib] and
    [include], and [build], below the project root in normal form. *)
Theorem project_layout (this : Project) (name : string) (build : BuildConfig.Build) :
  plain name →
  plain (BuildConfig.platform build) →
  plain (BuildConfig.architecture build) →
  let r := Raft.path (root this) in
  let platform := BuildConfig.platform build in
  let architecture := BuildConfig.architecture build in
  Raft.path (Project.dirForDependency this name)
  = located r ["Raft"; "libs"; "src"; name]
  ∧ Raft.path (Project.dirForDependencyBuild this name build)
    = located r ["Raft"; "libs"; "build"; platform; architecture; name]
  ∧ Raft.path (Project.dirForDependencyInstall this build)
    = located r ["Raft"; "libs"; "install"; platform; architecture]
  ∧ Raft.path (Project.dirForDependencyLib this build)
    = located r ["Raft"; "libs"; "install"; platform; architecture; "lib"]
  ∧ Raft.path (Project.dirForDependencyInc this build)
    = located r ["Raft"; "libs"; "install"; platform; architecture; "include"]
  ∧ (BuildConfig.isDeploy build = false →
     Project.dirForBuild this build = inr (Raft.mkPath (located r ["build"])))
  ∧ ∀ dirs names,
      Forall plain dirs → dirs ≠ [] → Forall plain names → names ≠ [] →
      located ("/" +:+ JS.join "/" dirs) names
      = "/" +:+ JS.join "/" dirs +:+ "/" +:+ JS.join "/" names.
Proof.
  intros Hn Hp Ha r platform architecture.
  split; [by apply dirForDependency_located|].
  split; [by apply dirForDependencyBuild_located|].
  split; [by apply dirForDependencyInstall_located|].
  split; [apply install_subdirectory; (done || by apply plain_literal)|].
  split; [apply install_subdirectory; (done || by apply plain_literal)|].
  split; [apply dirForBuild_located|].
  intros dirs names. apply located_below.
Qed.

Lemma project_layout_witness :
  plain "foo" ∧ plain "host"
  ∧ Raft.path
      (Project.dirForDependencyBuild (mkProject (Raft.mkPath "/home/user/../me/game/") None)
         "foo"
         {| BuildConfig.isDeploy := false; BuildConfig.platform := "host";
            BuildConfig.architecture := "host" |})
    = located "/home/user/../me/game/" ["Raft"; "libs"; "build"; "host"; "host"; "foo"].
Proof.
  assert (plain "foo") as Hfoo by (by apply plain_literal).
  assert (plain "host") as Hhost by (by apply plain_literal).
  split; [exact Hfoo|]. split; [exact Hhost|].
  apply (project_layout (mkProject (Raft.mkPath "/home/user/../me/game/") None) "foo"
           {| BuildConfig.isDeploy := false; BuildConfig.platform := "host";
              BuildConfig.architecture := "host" |} Hfoo Hhost Hhost).
Defined.

(** X6: for plain names, platforms and architectures, the source
    directory of a dependency is injective in its name, and the source
    directories, the build directories, the install directories and the
    build directory of the project itself are never one another's. *)
Theorem derived_dirs_disjoint (this : Project) (n1 n2 : string)
    (b1 b2 : BuildConfig.Build) :
  plain n1 → plain n2 →
  plain (BuildConfig.platform b1) → plain (BuildConfig.architecture b1) →
  plain (BuildConfig.platform b2) → plain (BuildConfig.architecture b2) →
  (Project.dirForDependency this n1 = Project.dirForDependency this n2 → n1 = n2)
  ∧ Project.dirForDependency this n1 ≠ Project.dirForDependencyBuild this n2 b1
  ∧ Project.dirForDependency this n1 ≠ Project.dirForDependencyInstall this b1
  ∧ Project.dirForDependencyBuild this n1 b1 ≠ Project.dirForDependencyInstall this b2
  ∧ ∀ d, Project.dirForBuild this b1 = inr d →
         d ≠ Project.dirForDependency this n1
         ∧ d ≠ Project.dirForDependencyBuild this n1 b1
         ∧ d ≠ Project.dirForDependencyInstall this b1.
Proof.
  intros Hn1 Hn2 Hp1 Ha1 Hp2 Ha2.
  assert (∀ names1 names2,
            Forall plain names1 → Forall plain names2 →
            names1 ≠ [] → names2 ≠ [] → names1 ≠ names2 →
            located (Raft.path (root this)) names1
            ≠ located (Raft.path (root this)) names2) as Hdiff.
  { intros names1 names2 H1 H2 Hne1 Hne2 Hne E. apply Hne.
    by apply (located_inj (Raft.path (root this))). }
  assert (plain "Raft" ∧ plain "libs" ∧ plain "src" ∧ plain "build" ∧ plain "install")
    as (HR & HL & HS & HB & HI) by (repeat split; discriminate || reflexivity).
  split; [|split; [|split; [|split]]].
  - intros E%(f_equal Raft.path). rewrite !dirForDependency_located in E by done.
    apply located_inj in E; [by injection E | | | discriminate | discriminate];
      repeat (apply Forall_cons_2; [done|]); apply Forall_nil_2.
  - intros E%(f_equal Raft.path).
    rewrite dirForDependency_located, dirForDependencyBuild_located in E by done.
    revert E. apply Hdiff; try discriminate;
      repeat (apply Forall_cons_2; [done|]); apply Forall_nil_2.
  - intros E%(f_equal Raft.path).
    rewrite dirForDependency_located, dirForDependencyInstall_located in E by done.
    revert E. apply Hdiff; try discriminate;
      repeat (apply Forall_cons_2; [done|]); apply Forall_nil_2.
  - intros E%(f_equal Raft.path).
    rewrite dirForDependencyBuild_located, dirForDependencyInstall_located in E by done.
    revert E. apply Hdiff; try discriminate;
      repeat (apply Forall_cons_2; [done|]); apply Forall_nil_2.
  - intros d Hd.
    destruct (BuildConfig.isDeploy b1) eqn:Edeploy.
    { unfold Project.dirForBuild in Hd. rewrite Edeploy in Hd. discriminate. }
    rewrite (dirForBuild_located this b1 Edeploy) in Hd. injection Hd as <-.
    repeat split; intros E%(f_equal Raft.path); cbn [Raft.path] in E;
      rewrite ?dirForDependency_located, ?dirForDependencyBuild_located,
        ?dirForDependencyInstall_located in E by done;
      revert E; apply Hdiff; try discriminate;
      repeat (apply Forall_cons_2; [done|]); apply Forall_nil_2.
Qed.

(** ** More on [createDirectory] and [execute] *)
Section ExecuteMore.
Import Runtime.

Lemma mkdir_grows disk k disk' :
  Fs.mkdir disk k = inr disk' →
  Fs.cwd disk' = Fs.cwd disk ∧ Fs.entries disk ⊆ Fs.entries disk'.
Proof.
  unfold Fs.mkdir. destruct (Fs.stat disk k) eqn:Ek; [discriminate|].
  destruct (Fs.stat disk (removelast k)) as [[]|]; try discriminate.
  intros [= <-]. cbn [Fs.cwd Fs.entries]. split; [reflexivity|].
  apply insert_subseteq. by destruct k.
Qed.

Lemma mkdirP_grows fuel k disk er disk' :
  Fs.mkdirP fuel k disk = Some (er, disk') →
  Fs.cwd disk' = Fs.cwd disk ∧ Fs.entries disk ⊆ Fs.entries disk'.
Proof.
  revert k disk er disk'. induction fuel as [|fuel IH]; intros k disk er disk';
    [discriminate|].
  cbn [Fs.mkdirP]. destruct (Fs.mkdir disk k) as [code|disk1] eqn:E.
  - destruct code;
      try (destruct (Fs.isDirectory disk k); by intros [= <- <-]).
    destruct (Fs.mkdirP fuel (removelast k) disk) as [[[er1|] disk1]|] eqn:Ep;
      try discriminate.
    + intros [= <- <-]. by apply IH in Ep.
    + intros Hretry. apply IH in Ep as [Hc1 Hs1]. apply IH in Hretry as [Hc2 Hs2].
      split; [congruence | by etrans].
  - intros [= <- <-]. by apply mkdir_grows in E.
Qed.

Lemma mkdirp_grows disk path :
  Fs.cwd (Fs.mkdirp disk path).2 = Fs.cwd disk
  ∧ Fs.entries disk ⊆ Fs.entries (Fs.mkdirp disk path).2.
Proof.
  unfold Fs.mkdirp.
  destruct (Fs.mkdirP _ _ disk) as [[er disk']|] eqn:E; [|done].
  by apply mkdirP_grows in E.
Qed.

Lemma mkdirp_directory disk path :
  (Fs.mkdirp disk path).1 = None →
  Fs.isDirectory (Fs.mkdirp disk path).2 (Fs.resolve disk path) = true.
Proof.
  unfold Fs.mkdirp.
  destruct (Fs.mkdirP _ _ disk) as [[er disk']|] eqn:E; [|discriminate].
  cbn [fst snd]. intros ->. by apply mkdirP_directory in E.
Qed.

Lemma run_createDirectory (p : Raft.Path) w :
  run (Raft.Path.createDirectory p) w =
  (Resolved (bool_decide ((Fs.mkdirp (fs w) (Raft.path p)).1 = None)),
   emit (MadeDirectory (Raft.path p)
           (bool_decide ((Fs.mkdirp (fs w) (Raft.path p)).1 = None)))
     (set_fs (Fs.mkdirp (fs w) (Raft.path p)).2 w)).
Proof.
  unfold Raft.Path.createDirectory, call, mbind, Task_bind.
  cbn [bind catch run handle].
  destruct (Fs.mkdirp (fs w) (Raft.path p)) as [[code|] disk']; reflexivity.
Qed.

(** [execute] step by step: the start, the command, the last line. *)
Lemma run_execute command options w :
  run (Raft.System.execute command options) w =
  let w1 := execute_started command options w in
  let cwd := Raft.Path.toString <$> (options ≫= Raft.System.cwd) in
  let r := spawn (host w1) command cwd (fs w1) in
  let w2 := emit (Executed command cwd (is_inr r.1)) (set_fs r.2 w1) in
  match r.1 with
  | inl e => (Rejected e, w2)
  | inr out =>
      (Resolved out,
       emit (Logged (effective_tag command options) "Finished successfullly") w2)
  end.
Proof.
  destruct options as [[[dir|] tg]|]; unfold Raft.System.execute, execute_started;
    cbn [default from_option id Raft.System.cwd Raft.System.tag effective_tag
         mbind option_bind fmap option_fmap option_map];
    rewrite run_bind.
  - rewrite run_bind, run_raftlog, run_bind, run_createDirectory.
    set (w1 := emit (Logged command _) w).
    destruct (bool_decide ((Fs.mkdirp (fs w1) (Raft.path dir)).1 = None)) eqn:Eok.
    + rewrite run_raftlog. rewrite run_bind, run_bind, run_call.
      cbn [handle fst snd].
      match goal with |- context [spawn ?h ?c ?d ?f] =>
        destruct (spawn h c d f) as [[e|out] disk'] end; reflexivity.
    + rewrite run_ret. rewrite run_bind, run_bind, run_call.
      cbn [handle fst snd].
      match goal with |- context [spawn ?h ?c ?d ?f] =>
        destruct (spawn h c d f) as [[e|out] disk'] end; reflexivity.
  - rewrite run_raftlog. rewrite run_bind, run_bind, run_call.
    cbn [handle fst snd].
    match goal with |- context [spawn ?h ?c ?d ?f] =>
      destruct (spawn h c d f) as [[e|out] disk'] end; reflexivity.
  - rewrite run_raftlog. rewrite run_bind, run_bind, run_call.
    cbn [handle fst snd].
    match goal with |- context [spawn ?h ?c ?d ?f] =>
      destruct (spawn h c d f) as [[e|out] disk'] end; reflexivity.
Qed.

Lemma spawned_app l1 l2 : spawned (l1 ++ l2) = spawned l1 ++ spawned l2.
Proof. unfold spawned. apply omap_app. Qed.

Lemma execute_started_quiet command options w :
  spawned (trace (execute_started command options w)) = spawned (trace w)
  ∧ host (execute_started command options w) = host w
  ∧ heap (execute_started command options w) = heap w.
Proof.
  unfold execute_started. destruct (options ≫= Raft.System.cwd) as [dir|].
  - destruct (bool_decide _); cbn [emit set_fs trace host heap];
      rewrite ?spawned_app; cbn; by rewrite ?app_nil_r.
  - cbn [emit trace host heap]. rewrite spawned_app. cbn. by rewrite app_nil_r.
Qed.

Lemma spawned_events {A} (t : Task A) w commands :
  spawned (trace (run t w).2) = spawned (trace w) ++ commands →
  spawned (events t w) = commands.
Proof.
  rewrite run_events, spawned_app. by intros ?%app_inv_head.
Qed.

Lemma runs_ok_bind {A B} (t : Task A) (f : A → Task B) w c1 c2 :
  runs_ok t w c1 →
  (∀ a w', host w' = host w → runs_ok (f a) w' c2) →
  runs_ok (t ≫= f) w (c1 ++ c2).
Proof.
  intros (a & w1 & Hrun & Hsp & Hh) Hf.
  destruct (Hf a w1 Hh) as (b & w2 & Hrun2 & Hsp2 & Hh2).
  exists b, w2. rewrite run_bind, Hrun. split; [exact Hrun2|].
  split; [by rewrite Hsp2, Hsp, app_assoc | congruence].
Qed.

Lemma runs_ok_raftlog tag message w : runs_ok (Raft.raftlog tag message) w [].
Proof.
  exists tt, (emit (Logged tag message) w). split; [reflexivity|].
  cbn [emit trace host]. rewrite spawned_app. cbn. by rewrite !app_nil_r.
Qed.

Lemma runs_ok_any {A} (t : Task A) w c : runs_ok t w c → runs_ok (Raft.any t) w c.
Proof.
  intros H. unfold Raft.any. rewrite <- (app_nil_r c).
  apply runs_ok_bind; [exact H|]. intros a w' _.
  exists tt, w'. split; [reflexivity|]. by rewrite app_nil_r.
Qed.

Lemma runs_ok_execute command options w :
  all_succeed (host w) →
  runs_ok (Raft.System.execute command options) w
    [(command, Raft.Path.toString <$> (options ≫= Raft.System.cwd))].
Proof.
  intros Hok. unfold runs_ok. rewrite run_execute. cbn zeta.
  destruct (execute_started_quiet command options w) as (Hsp & Hh & _).
  set (w1 := execute_started command options w) in *.
  set (cwd := Raft.Path.toString <$> _).
  pose proof (Hok command cwd (fs w1)) as Hs. rewrite <- Hh in Hs.
  destruct (spawn (host w1) command cwd (fs w1)) as [[e|out] disk'];
    [discriminate|].
  eexists _, _. split; [reflexivity|].
  cbn [emit set_fs trace host fst snd is_inr].
  rewrite !spawned_app, Hsp. cbn. by rewrite app_nil_r.
Qed.

Lemma run_execute_fails command options w e :
  (spawn (host (execute_started command options w)) command
     (Raft.Path.toString <$> (options ≫= Raft.System.cwd))
     (fs (execute_started command options w))).1 = inl e →
  ∃ w', run (Raft.System.execute command options) w = (Rejected e, w')
        ∧ spawned (trace w')
          = spawned (trace w)
            ++ [(command, Raft.Path.toString <$> (options ≫= Raft.System.cwd))].
Proof.
  intros Hfail. rewrite run_execute. cbn zeta. rewrite Hfail.
  eexists. split; [reflexivity|].
  destruct (execute_started_quiet command options w) as (Hsp & _ & _).
  cbn [emit set_fs trace]. rewrite spawned_app, Hsp. reflexivity.
Qed.

Lemma runs_ok_getRepo uri destination w :
  all_succeed (host w) →
  runs_ok (Raft.Git.getRepo uri destination) w
    [("git clone " +:+ uri +:+ " " +:+ Raft.path destination, None)].
Proof. intros Hok. exact (runs_ok_execute _ None w Hok). Qed.

Lemma runs_ok_configure srcPath buildPath options w :
  all_succeed (host w) →
  runs_ok (Raft.CMake.configure srcPath buildPath options) w
    [("cmake " +:+ Raft.path srcPath +:+ " "
      +:+ JS.join " " (map (λ option, "-D" +:+ option.1 +:+ "=" +:+ option.2) options),
      Some (Raft.path buildPath))].
Proof.
  intros Hok.
  exact (runs_ok_execute _
           (Some {| Raft.System.cwd := Some buildPath; Raft.System.tag := None |})
           w Hok).
Qed.

Lemma runs_ok_build buildPath w :
  all_succeed (host w) →
  runs_ok (Raft.CMake.build buildPath) w [("make -j8", Some (Raft.path buildPath))].
Proof.
  intros Hok.
  exact (runs_ok_execute "make -j8"
           (Some {| Raft.System.cwd := Some buildPath; Raft.System.tag := None |})
           w Hok).
Qed.

Lemma runs_ok_install buildPath w :
  all_succeed (host w) →
  runs_ok (Raft.CMake.install buildPath) w
    [("make install", Some (Raft.path buildPath))].
Proof.
  intros Hok.
  exact (runs_ok_execute "make install"
           (Some {| Raft.System.cwd := Some buildPath; Raft.System.tag := None |})
           w Hok).
Qed.

End ExecuteMore.

(** X7: [createDirectory] never rejects; when it resolves to [true] the
    path is a directory afterwards; and whatever it resolves to, nothing
    that was in the file system is gone or changed, and the working
    directory and the heap are as before. *)
Theorem createDirectory_outcome (p : Raft.Path) (w : Runtime.World) :
  ∃ created w',
    Runtime.run (Raft.Path.createDirectory p) w = (Runtime.Resolved created, w')
    ∧ (created = true →
       Fs.isDirectory (Runtime.fs w') (Fs.resolve (Runtime.fs w) (Raft.path p)) = true)
    ∧ Fs.entries (Runtime.fs w) ⊆ Fs.entries (Runtime.fs w')
    ∧ Fs.cwd (Runtime.fs w') = Fs.cwd (Runtime.fs w)
    ∧ Runtime.heap w' = Runtime.heap w.
Proof.
  eexists _, _. split; [apply run_createDirectory|].
  cbn [Runtime.emit Runtime.set_fs Runtime.fs Runtime.heap].
  destruct (mkdirp_grows (Runtime.fs w) (Raft.path p)) as [Hcwd Hsub].
  split; [|by repeat split].
  intros Hc%bool_decide_eq_true. by apply mkdirp_directory.
Qed.

(** X8: every call of [execute] spawns the command exactly once, in the
    working directory asked for, also when that directory could not be
    created; it is fulfilled with the [Finished successfullly] line of
    its tag as the last event, or rejected with the failed command as the
    last event. *)
Theorem execute_spawns_once (command : string)
    (options : option Raft.System.ExecuteOptions) (w : Runtime.World) :
  let result := Runtime.run (Raft.System.execute command options) w in
  let cwd := Raft.Path.toString <$> (options ≫= Raft.System.cwd) in
  spawned (events (Raft.System.execute command options) w) = [(command, cwd)]
  ∧ (∀ out, result.1 = Runtime.Resolved out →
       last (Runtime.trace result.2)
       = Some (Runtime.Logged (effective_tag command options) "Finished successfullly"))
  ∧ (∀ e, result.1 = Runtime.Rejected e →
       last (Runtime.trace result.2) = Some (Runtime.Executed command cwd false)).
Proof.
  intros result cwd.
  destruct (execute_started_quiet command options w) as (Hsp & _ & _).
  assert (result =
          let w1 := execute_started command options w in
          let r := Runtime.spawn (Runtime.host w1) command cwd (Runtime.fs w1) in
          let w2 := Runtime.emit (Runtime.Executed command cwd (Runtime.is_inr r.1))
                      (Runtime.set_fs r.2 w1) in
          match r.1 with
          | inl e => (Runtime.Rejected e, w2)
          | inr out =>
              (Runtime.Resolved out,
               Runtime.emit
                 (Runtime.Logged (effective_tag command options)
                    "Finished successfullly") w2)
          end) as Hresult by apply run_execute.
  cbn zeta in Hresult.
  set (w1 := execute_started command options w) in *.
  destruct (Runtime.spawn (Runtime.host w1) command cwd (Runtime.fs w1))
    as [[e|out] disk']; cbn [fst snd Runtime.is_inr] in Hresult.
  - split; [|split].
    + apply spawned_events. fold result. rewrite Hresult.
      cbn [snd Runtime.emit Runtime.set_fs Runtime.trace].
      rewrite spawned_app, Hsp. reflexivity.
    + intros out. rewrite Hresult. discriminate.
    + intros e'. rewrite Hresult. intros _.
      cbn [snd Runtime.emit Runtime.set_fs Runtime.trace]. apply last_snoc.
  - split; [|split].
    + apply spawned_events. fold result. rewrite Hresult.
      cbn [snd Runtime.emit Runtime.set_fs Runtime.trace].
      rewrite !spawned_app, Hsp. cbn. by rewrite app_nil_r.
    + intros out'. rewrite Hresult. intros _.
      cbn [snd Runtime.emit Runtime.set_fs Runtime.trace]. apply last_snoc.
    + intros e. rewrite Hresult. discriminate.
Qed.


(** X9: on a host where every command succeeds, the pipeline of a CMake
    dependency from a git repository is fulfilled and spawns exactly four
    commands, in this order: the clone into the source directory (in the
    current working directory), then [cmake] with the install prefix,
    [make -j8] and [make install], all three in the build directory. *)
Theorem cmake_pipeline_commands (project : Raft.Project) (name uri : string)
    (build_ : Raft.Build) (w : Runtime.World) :
  all_succeed (Runtime.host w) →
  let pipeline :=
    Raft.getDependency project (Raft.CMakeDependency name (Raft.GitRepository uri)) build_ in
  let src := Raft.path (Raft.Project.dirForDependency project name) in
  let bld := Raft.path (Raft.Project.dirForDependencyBuild project name build_) in
  let inst := Raft.path (Raft.Project.dirForDependencyInstall project build_) in
  (Runtime.run pipeline w).1 = Runtime.Resolved tt
  ∧ spawned (events pipeline w)
    = [ ("git clone " +:+ uri +:+ " " +:+ src, None);
        ("cmake " +:+ src +:+ " -DCMAKE_INSTALL_PREFIX=" +:+ inst, Some bld);
        ("make -j8", Some bld);
        ("make install", Some bld) ].
Proof.
  intros Hok pipeline src bld inst.
  assert (∀ w', Runtime.host w' = Runtime.host w → all_succeed (Runtime.host w'))
    as Hok' by (by intros w' ->).
  assert (runs_ok pipeline w
            ([] ++ [("git clone " +:+ uri +:+ " " +:+ src, None)]
             ++ [] ++ ([("cmake " +:+ src +:+ " -DCMAKE_INSTALL_PREFIX=" +:+ inst,
                         Some bld)]
                       ++ [("make -j8", Some bld)])
             ++ [] ++ [("make install", Some bld)] ++ []))
    as (a & w' & Hrun & Hsp & _).
  { unfold pipeline, Raft.getDependency.
    apply runs_ok_bind; [apply runs_ok_raftlog|]. intros _ w1 H1.
    apply runs_ok_bind.
    { apply runs_ok_any, runs_ok_getRepo. by apply Hok'. }
    intros _ w2 H2. apply runs_ok_bind; [apply runs_ok_raftlog|]. intros _ w3 H3.
    apply runs_ok_bind.
    { cbn [Raft.build Raft.CMakeDependency]. apply runs_ok_bind.
      - exact (runs_ok_configure
                 (Raft.Project.dirForDependency project name)
                 (Raft.Project.dirForDependencyBuild project name build_)
                 [("CMAKE_INSTALL_PREFIX",
                   Raft.Path.toString
                     (Raft.Project.dirForDependencyInstall project build_))]
                 w3 (Hok' w3 ltac:(congruence))).
      - intros _ w4 H4. apply runs_ok_any, runs_ok_build.
        apply Hok'. congruence. }
    intros _ w5 H5. apply runs_ok_bind; [apply runs_ok_raftlog|]. intros _ w6 H6.
    apply runs_ok_bind.
    { apply runs_ok_any, runs_ok_install. apply Hok'. congruence. }
    intros _ w7 H7. apply runs_ok_raftlog. }
  split.
  - rewrite Hrun. by destruct a.
  - apply spawned_events. rewrite Hrun. exact Hsp.
Qed.

Lemma cmake_pipeline_commands_witness :
  all_succeed (Runtime.host Example.world)
  ∧ spawned
      (events
         (Raft.getDependency {| Raft.root := Raft.mkPath "/home/user/game" |}
            (Raft.CMakeDependency "foo" (Raft.GitRepository "https://example/foo.git"))
            {| Raft.platform := "host"; Raft.architecture := "host" |})
         Example.world)
    = [ ("git clone https://example/foo.git /home/user/game/Raft/libs/src/foo", None);
        ("cmake /home/user/game/Raft/libs/src/foo -DCMAKE_INSTALL_PREFIX=/home/user/game/Raft/libs/install/host/host",
         Some "/home/user/game/Raft/libs/build/host/host/foo");
        ("make -j8", Some "/home/user/game/Raft/libs/build/host/host/foo");
        ("make install", Some "/home/user/game/Raft/libs/build/host/host/foo") ].
Proof.
  assert (all_succeed (Runtime.host Example.world)) as Hok.
  { intros command cwd disk. reflexivity. }
  split; [exact Hok|].
  apply (cmake_pipeline_commands {| Raft.root := Raft.mkPath "/home/user/game" |}
           "foo" "https://example/foo.git"
           {| Raft.platform := "host"; Raft.architecture := "host" |}
           Example.world Hok).
Defined.

(** X10: when the clone fails, the pipeline of the dependency is rejected
    with the error of the clone and no other command is spawned. *)
Theorem pipeline_stops_at_failed_clone (project : Raft.Project) (name uri : string)
    (build_ : Raft.Build) (w : Runtime.World) (e : Runtime.Error) :
  let pipeline :=
    Raft.getDependency project (Raft.CMakeDependency name (Raft.GitRepository uri)) build_ in
  let clone :=
    "git clone " +:+ uri +:+ " "
    +:+ Raft.path (Raft.Project.dirForDependency project name) in
  (Runtime.spawn (Runtime.host w) clone None (Runtime.fs w)).1 = inl e →
  (Runtime.run pipeline w).1 = Runtime.Rejected e
  ∧ spawned (events pipeline w) = [(clone, None)].
Proof.
  intros pipeline clone Hfail.
  assert (∃ w', Runtime.run pipeline w = (Runtime.Rejected e, w')
                ∧ spawned (Runtime.trace w') = spawned (Runtime.trace w) ++ [(clone, None)])
    as (w' & Hrun & Hsp).
  { unfold pipeline, Raft.getDependency. rewrite run_bind, run_raftlog, run_bind.
    cbn [Raft.download Raft.CMakeDependency Raft.RepositoryDependency
         Raft.Repository_download Raft.GitRepository].
    unfold Raft.any, Raft.Git.getRepo. rewrite run_bind.
    destruct (run_execute_fails clone None
                (Runtime.emit (Runtime.Logged name "Downloading") w) e Hfail)
      as (w' & Hrun & Hsp).
    match goal with
    | |- context [Runtime.run (Raft.System.execute ?c None) ?w0] =>
        change (Runtime.run (Raft.System.execute c None) w0)
          with (Runtime.run (Raft.System.execute clone None)
                  (Runtime.emit (Runtime.Logged name "Downloading") w))
    end.
    rewrite Hrun.
    exists w'. split; [reflexivity|]. rewrite Hsp.
    cbn [Runtime.emit Runtime.trace]. rewrite spawned_app. cbn.
    by rewrite app_nil_r. }
  split.
  - by rewrite Hrun.
  - apply spawned_events. rewrite Hrun. exact Hsp.
Qed.

(** ** The manifest: [load], [dependencies] and the start of [build] *)
Section Manifest.
Import Runtime.

Lemma alloc_fresh o (h : gmap Heap.loc Heap.Obj) l h' :
  Heap.alloc o h = (l, h') → h !! l = None ∧ h' = <[l := o]> h.
Proof. unfold Heap.alloc. intros [= <- <-]. split; [apply fresh_unused | done]. Qed.

Lemma alloc_all_spec os (h : gmap Heap.loc Heap.Obj) ls h' :
  Heap.alloc_all os h = (ls, h') →
  h ⊆ h' ∧ Forall2 (λ l o, h' !! l = Some o) ls os.
Proof.
  revert h ls h'. induction os as [|o os IH]; intros h ls h'; cbn [Heap.alloc_all].
  - intros [= <- <-]. split; [done | constructor].
  - destruct (Heap.alloc o h) as [l h1] eqn:E1.
    destruct (Heap.alloc_all os h1) as [ls' h2] eqn:E2.
    intros [= <- <-]. apply alloc_fresh in E1 as [Hl ->].
    apply IH in E2 as [Hsub Hall]. split.
    + etrans; [|exact Hsub]. by apply insert_subseteq.
    + constructor; [|exact Hall].
      eapply lookup_weaken; [|exact Hsub]. by simplify_map_eq.
Qed.

Lemma alloc_root_spec ds (h : gmap Heap.loc Heap.Obj) r h' :
  Heap.alloc_root {| RaftFile.dependencies := Some ds |} h = (r, h') →
  h ⊆ h' ∧ ∃ a, h' !! r = Some (Heap.ObjRoot (Some a)) ∧ holds_descriptors h' a ds.
Proof.
  unfold Heap.alloc_root. cbn [RaftFile.dependencies].
  destruct (Heap.alloc_all _ h) as [ls h1] eqn:E1.
  destruct (Heap.alloc _ h1) as [a h2] eqn:E2.
  intros E3. apply alloc_all_spec in E1 as [Hsub1 Hall].
  apply alloc_fresh in E2 as [Ha ->]. apply alloc_fresh in E3 as [Hr ->].
  assert (h1 ⊆ <[a := Heap.ObjArray ls]> h1) as Hsub2.
  { apply insert_subseteq. exact Ha. }
  assert (<[a := Heap.ObjArray ls]> h1
          ⊆ <[r := Heap.ObjRoot (Some a)]> (<[a := Heap.ObjArray ls]> h1)) as Hsub3.
  { apply insert_subseteq. exact Hr. }
  split; [by etrans; [|etrans]|].
  exists a. split; [by simplify_map_eq|]. exists ls. split.
  - eapply lookup_weaken; [|exact Hsub3]. by simplify_map_eq.
  - apply Forall2_fmap_r in Hall. 
    eapply Forall2_impl; [exact Hall|]. intros l d Hl. cbn in Hl.
    eapply lookup_weaken; [|exact Hsub3]. by eapply lookup_weaken.
Qed.

Lemma holds_descriptors_weaken (h h' : gmap Heap.loc Heap.Obj) a ds :
  h ⊆ h' → holds_descriptors h a ds → holds_descriptors h' a ds.
Proof.
  intros Hsub (ls & Ha & Hall). exists ls.
  split; [eapply lookup_weaken; [exact Ha | exact Hsub]|].
  eapply Forall2_impl; [exact Hall|]. intros l d Hl.
  eapply lookup_weaken; [exact Hl | exact Hsub].
Qed.

Lemma run_map_createDependency elements ds w :
  Forall2 (λ l d, heap w !! l = Some (Heap.ObjDescriptor d)) elements ds →
  run (Main.map_createDependency elements) w =
  (match createDependencies ds with
   | inl e => Rejected e
   | inr dependencies => Resolved dependencies
   end, w).
Proof.
  induction 1 as [|l d elements ds Hl _ IH]; [reflexivity|].
  cbn [Main.map_createDependency createDependencies].
  rewrite run_bind, run_call. cbn [handle fst snd]. rewrite Hl.
  destruct (Raft.createDependency d) as [e|dependency]; [reflexivity|].
  rewrite run_bind, IH. by destruct (createDependencies ds).
Qed.

(** The start of [build] on a loaded project. *)
Lemma run_build_callback raftCmakeFile settings this w ds :
  loaded_with this (heap w) ds →
  ∃ w',
    run (Main.build_callback raftCmakeFile settings this) w =
    (match createDependencies ds with
     | inl e => Rejected e
     | inr dependencies =>
         Resolved
           {| Bluebird.mapped :=
                map (λ dependency,
                       Raft.getDependency {| Raft.root := root this |} dependency
                         {| Raft.platform := BuildConfig.platform settings;
                            Raft.architecture := BuildConfig.architecture settings |})
                    dependencies;
              Bluebird.continuation := Project.build raftCmakeFile this settings |}
     end, w')
    ∧ fs w' = fs w
    ∧ trace w' =
      trace w ++
      match createDependencies ds with
      | inl e => []
      | inr dependencies =>
          [Logged "Project"
             ("Getting " +:+ pretty (length dependencies) +:+ " for the project")]
      end.
Proof.
  intros (r & a & Hr & Hroot & elements & Ha & Hall).
  unfold Main.build_callback.
  rewrite run_bind, (run_dependencies this w r a elements Hr Hroot Ha).
  set (a1 := fresh (dom (heap w))).
  set (w1 := set_heap _ w).
  assert (heap w ⊆ heap w1) as Hsub.
  { apply insert_subseteq, fresh_unused. }
  rewrite run_bind, run_call. cbn [handle fst snd].
  assert (heap w1 !! a1 = Some (Heap.ObjArray elements)) as -> by (by simplify_map_eq).
  rewrite run_bind.
  rewrite (run_map_createDependency elements ds w1).
  2:{ eapply Forall2_impl; [exact Hall|]. intros l d Hl.
      eapply lookup_weaken; [exact Hl | exact Hsub]. }
  destruct (createDependencies ds) as [e|dependencies].
  - exists w1. by rewrite app_nil_r.
  - rewrite run_bind, run_raftlog, run_ret. eexists. split; [reflexivity|]. done.
Qed.

End Manifest.

Section ManifestMore.
Import Runtime.

Lemma createDependencies_error pre d post e :
  Forall (λ d, Runtime.is_inr (Raft.createDependency d) = true) pre →
  Raft.createDependency d = inl e →
  createDependencies (pre ++ d :: post) = inl e.
Proof.
  intros Hpre Hd. induction Hpre as [|x pre Hx _ IH]; cbn [app createDependencies].
  - by rewrite Hd.
  - destruct (Raft.createDependency x); [discriminate|]. by rewrite IH.
Qed.

Lemma createDependencies_ok ds dependencies :
  createDependencies ds = inr dependencies →
  Forall2 (λ d dependency, Raft.createDependency d = inr dependency) ds dependencies.
Proof.
  revert dependencies. induction ds as [|d ds IH]; intros dependencies;
    cbn [createDependencies].
  - intros [= <-]. constructor.
  - destruct (Raft.createDependency d) as [e|dependency] eqn:Ed; [discriminate|].
    destruct (createDependencies ds) as [e|rest]; [discriminate|].
    intros [= <-]. constructor; [done | by apply IH].
Qed.

Lemma createDependency_name d dependency :
  Raft.createDependency d = inr dependency → Raft.name dependency = RaftFile.name d.
Proof.
  unfold Raft.createDependency. destruct (Raft.createRepository _); [discriminate|].
  destruct (JS.str_eqb _ _); [|discriminate]. by intros [= <-].
Qed.

Lemma run_load_ok this w data r :
  Fs.readFile (fs w)
    (Raft.path (Raft.Path.append (root this) [Raft.Obj Project.RAFT_FILE])) = inr data →
  json (host w) data = Some r →
  run (Project.load this) w =
  (Resolved (mkProject (root this) (Some (Heap.alloc_root r (heap w)).1)),
   emit (Logged "Project Data"
           (stringify (host w) (Heap.alloc_root r (heap w)).2
              (Heap.alloc_root r (heap w)).1))
     (set_heap (Heap.alloc_root r (heap w)).2
        (emit (Logged "Project Data" data) w))).
Proof.
  intros Hread Hjson. unfold Project.load, Project.Path_read.
  rewrite run_bind, run_bind, run_call. cbn [handle fst snd].
  unfold Raft.Path.toString. rewrite Hread. rewrite run_ret.
  rewrite run_bind, run_raftlog, run_bind, run_call.
  cbn [handle emit host heap]. rewrite Hjson.
  destruct (Heap.alloc_root r (heap w)) as [l h]. cbn [fst snd].
  rewrite run_bind, run_call. cbn [handle fst snd set_heap host heap].
  by rewrite run_bind, run_raftlog.
Qed.

End ManifestMore.

(** ** [find] of [Project.ts]: the project found is loaded *)
Section FindLoads.
Import Runtime.

Lemma run_load_unreadable this w code :
  Fs.readFile (fs w)
    (Raft.path (Raft.Path.append (root this) [Raft.Obj Project.RAFT_FILE])) = inl code →
  run (Project.load this) w = (Rejected (FsError code), w).
Proof.
  intros Hread. unfold Project.load, Project.Path_read.
  rewrite run_bind, run_bind, run_call. cbn [handle fst snd].
  unfold Raft.Path.toString. by rewrite Hread.
Qed.

Lemma run_load_unparsable this w data :
  Fs.readFile (fs w)
    (Raft.path (Raft.Path.append (root this) [Raft.Obj Project.RAFT_FILE])) = inr data →
  json (host w) data = None →
  run (Project.load this) w
  = (Rejected SyntaxError, emit (Logged "Project Data" data) w).
Proof.
  intros Hread Hjson. unfold Project.load, Project.Path_read.
  rewrite run_bind, run_bind, run_call. cbn [handle fst snd].
  unfold Raft.Path.toString. rewrite Hread, run_ret.
  rewrite run_bind, run_raftlog, run_bind, run_call.
  cbn [handle emit host]. by rewrite Hjson.
Qed.

End FindLoads.

(** C1 (as stated): a marker directory is not enough for [find] of
    [Project.ts].  From [/home/user/other/deep] the nearest candidate
    with the marker directory is [/home/user]; it has no manifest, and
    [find] is rejected with [ENOENT] where the claim has it return the
    project rooted there. *)
Lemma find_nearest_counterexample :
  ancestor_chain (Raft.mkPath "/home/user/other/deep")
    [Raft.mkPath "/home/user/other/deep"; Raft.mkPath "/home/user/other";
     Raft.mkPath "/home/user"; Raft.mkPath "/home"]
  ∧ has_marker Example.world (Raft.mkPath "/home/user/other/deep") = false
  ∧ has_marker Example.world (Raft.mkPath "/home/user/other") = false
  ∧ has_marker Example.world (Raft.mkPath "/home/user") = true
  ∧ ∃ found',
      Project.find 4 (Raft.mkPath "/home/user/other/deep") = Some found'
      ∧ Runtime.run found' Example.world
        = (Runtime.Rejected (Runtime.FsError Fs.ENOENT), Example.world)
      ∧ ¬ ∃ p w', Runtime.run found' Example.world = (Runtime.Resolved p, w').
Proof.
  split.
  { do 3 (apply chain_parent; [reflexivity|]). apply chain_root. reflexivity. }
  split; [reflexivity|]. split; [reflexivity|]. split; [reflexivity|].
  exists (default (Runtime.Throw Runtime.TypeError)
            (Project.find 4 (Raft.mkPath "/home/user/other/deep"))).
  split; [reflexivity|].
  assert (Runtime.run
            (default (Runtime.Throw Runtime.TypeError)
               (Project.find 4 (Raft.mkPath "/home/user/other/deep")))
            Example.world
          = (Runtime.Rejected (Runtime.FsError Fs.ENOENT), Example.world)) as E
    by (vm_compute; reflexivity).
  split; [exact E|].
  intros (p & w' & Hp). rewrite E in Hp. discriminate Hp.
Qed.

(** C1 (amended): when the loop of [Project.find] ends with the chain of
    [P], its parent, ... up to the first path with [isRoot], the first
    candidate [C] of the chain that has the marker directory [Raft] is
    the one that counts, whatever candidates follow it.  [find] of
    [Raft.ts] returns the project rooted at [C].  [find] of [Project.ts]
    loads the manifest [Raft/raftfile.json] of [C]: it is fulfilled with
    a project rooted at [C], loaded with the descriptors of the manifest,
    when the file can be read and [JSON.parse] accepts it; it is rejected
    with the error of the read when the file cannot be read, and with a
    [SyntaxError] when the text is not accepted.  When no candidate has
    the marker, [find] of [Raft.ts] returns [null] and [find] of
    [Project.ts] rejects with [null]. *)
Theorem find_nearest (P : Raft.Path) (chain : list Raft.Path) (w : Runtime.World) :
  ancestor_chain P chain →
  ∃ found found',
    (∀ fuel, length chain ≤ fuel →
       Raft.Project.find fuel P = Some found ∧ Project.find fuel P = Some found')
    ∧ (∀ pre C post,
         chain = pre ++ C :: post →
         has_marker w C = true →
         Forall (λ x, has_marker w x = false) pre →
         let manifest :=
           Fs.readFile (Runtime.fs w)
             (Raft.path (Raft.Path.append C [Raft.Obj Project.RAFT_FILE])) in
         Runtime.run found w = (Runtime.Resolved (Some {| Raft.root := C |}), w)
         ∧ Runtime.run found' w = Runtime.run (Project.load (mkProject C None)) w
         ∧ (∀ p w', Runtime.run found' w = (Runtime.Resolved p, w') → root p = C)
         ∧ (∀ data ds,
              manifest = inr data →
              Runtime.json (Runtime.host w) data
              = Some {| RaftFile.dependencies := Some ds |} →
              ∃ p w',
                Runtime.run found' w = (Runtime.Resolved p, w')
                ∧ root p = C
                ∧ loaded_with p (Runtime.heap w') ds
                ∧ Runtime.fs w' = Runtime.fs w)
         ∧ (∀ data r,
              manifest = inr data →
              Runtime.json (Runtime.host w) data = Some r →
              ∃ p w', Runtime.run found' w = (Runtime.Resolved p, w') ∧ root p = C)
         ∧ (∀ code,
              manifest = inl code →
              Runtime.run found' w = (Runtime.Rejected (Runtime.FsError code), w))
         ∧ (∀ data,
              manifest = inr data →
              Runtime.json (Runtime.host w) data = None →
              Runtime.run found' w
              = (Runtime.Rejected Runtime.SyntaxError,
                 Runtime.emit (Runtime.Logged "Project Data" data) w)))
    ∧ (Forall (λ x, has_marker w x = false) chain →
         Runtime.run found w = (Runtime.Resolved None, w)
         ∧ Runtime.run found' w = (Runtime.Rejected Runtime.RejectedNull, w)).
Proof.
  intros Hchain.
  pose proof (find_loop_chain P chain Hchain) as Hloop.
  eexists _, _. split; [|split].
  - intros fuel Hfuel. unfold Raft.Project.find, Project.find.
    pose proof (Hloop fuel [] Hfuel) as E. simpl in E. rewrite E.
    split; reflexivity.
  - intros pre C post -> HC Hpre manifest.
    rewrite !run_bind, !run_filter_exists, (filter_nearest _ _ _ _ HC Hpre).
    cbn [head fst snd].
    split; [reflexivity|]. split; [reflexivity|].
    split; [intros p w' Hload; by apply load_root in Hload|].
    split; [|split; [|split]].
    + intros data ds Hread Hjson.
      rewrite (run_load_ok (mkProject C None) w data _ Hread Hjson).
      eexists _, _. split; [reflexivity|].
      destruct (Heap.alloc_root _ (Runtime.heap w)) as [r h] eqn:E.
      apply alloc_root_spec in E as (Hsub & a & Hr & Hds).
      cbn [root raftfile fst snd Runtime.emit Runtime.set_heap Runtime.heap Runtime.fs].
      split; [done|]. split; [by exists r, a|done].
    + intros data r Hread Hjson.
      rewrite (run_load_ok (mkProject C None) w data _ Hread Hjson).
      by eexists _, _.
    + intros code Hread. by apply run_load_unreadable.
    + intros data Hread Hjson. by apply run_load_unparsable.
  - intros Hnone.
    rewrite !run_bind, !run_filter_exists, (filter_nothing _ _ Hnone).
    split; reflexivity.
Qed.

Lemma find_nearest_witness :
  ancestor_chain (Raft.mkPath "/home/user/game/src")
    [Raft.mkPath "/home/user/game/src"; Raft.mkPath "/home/user/game";
     Raft.mkPath "/home/user"; Raft.mkPath "/home"]
  ∧ ∃ found found',
      Raft.Project.find 4 (Raft.mkPath "/home/user/game/src") = Some found
      ∧ Project.find 4 (Raft.mkPath "/home/user/game/src") = Some found'
      ∧ Runtime.run found Example.world
        = (Runtime.Resolved (Some {| Raft.root := Raft.mkPath "/home/user/game" |}),
           Example.world)
      ∧ ∃ p w',
          Runtime.run found' Example.world = (Runtime.Resolved p, w')
          ∧ root p = Raft.mkPath "/home/user/game"
          ∧ loaded_with p (Runtime.heap w')
              (default [] (RaftFile.dependencies Example.manifest)).
Proof.
  assert (ancestor_chain (Raft.mkPath "/home/user/game/src")
            [Raft.mkPath "/home/user/game/src"; Raft.mkPath "/home/user/game";
             Raft.mkPath "/home/user"; Raft.mkPath "/home"]) as Hchain.
  { do 3 (apply chain_parent; [reflexivity|]). apply chain_root. reflexivity. }
  split; [exact Hchain|].
  destruct (find_nearest _ _ Example.world Hchain) as (found & found' & Hfind & Hnear & _).
  exists found, found'.
  destruct (Hfind 4 ltac:(simpl; lia)) as [Hf Hf'].
  split; [exact Hf|]. split; [exact Hf'|].
  destruct (Hnear [Raft.mkPath "/home/user/game/src"] (Raft.mkPath "/home/user/game")
              [Raft.mkPath "/home/user"; Raft.mkPath "/home"] eq_refl eq_refl
              ltac:(repeat constructor))
    as (Hraft & _ & _ & Hload & _).
  split; [exact Hraft|].
  destruct (Hload "manifest" (default [] (RaftFile.dependencies Example.manifest))
              eq_refl eq_refl) as (p & w' & Hrun & Hroot & Hloaded & _).
  exists p, w'. split; [exact Hrun|]. split; [exact Hroot|exact Hloaded].
Defined.

(** X11: [build] fails fast on a manifest it cannot resolve.  On a loaded
    project, when [createDependency] throws for a descriptor and for none
    before it, the start of [build] is rejected with that error, and
    nothing has been logged or spawned and the file system is as it
    was. *)
Theorem build_fails_fast (raftCmakeFile : Raft.Path) (settings : BuildConfig.Build)
    (this : Project) (w : Runtime.World)
    (pre post : list RaftFile.DependencyDescriptor) (d : RaftFile.DependencyDescriptor)
    (e : Runtime.Error) :
  loaded_with this (Runtime.heap w) (pre ++ d :: post) →
  Forall (λ d, Runtime.is_inr (Raft.createDependency d) = true) pre →
  Raft.createDependency d = inl e →
  let start := Main.build_callback raftCmakeFile settings this in
  (Runtime.run start w).1 = Runtime.Rejected e
  ∧ events start w = []
  ∧ Runtime.fs (Runtime.run start w).2 = Runtime.fs w.
Proof.
  intros Hloaded Hpre Hd start.
  destruct (run_build_callback raftCmakeFile settings this w _ Hloaded)
    as (w' & Hrun & Hfs & Htrace).
  rewrite (createDependencies_error _ _ _ _ Hpre Hd) in Hrun, Htrace.
  fold start in Hrun. unfold events. rewrite Hrun. cbn [fst snd].
  split; [done|]. split; [|done].
  rewrite Htrace, app_nil_r. apply drop_all.
Qed.

(** X12: on a loaded project whose descriptors all resolve, the start of
    [build] logs how many dependencies there are and hands one pipeline
    per descriptor to [Promise.map], in the order of the manifest and
    each for the dependency of the descriptor's name, with
    [Project.build] as what follows; with no dependencies at all what
    follows is started at once. *)
Theorem build_starts_pipelines (raftCmakeFile : Raft.Path) (settings : BuildConfig.Build)
    (this : Project) (w : Runtime.World) (ds : list RaftFile.DependencyDescriptor)
    (dependencies : list Raft.Dependency) :
  loaded_with this (Runtime.heap w) ds →
  createDependencies ds = inr dependencies →
  let start := Main.build_callback raftCmakeFile settings this in
  ∃ m w',
    Runtime.run start w = (Runtime.Resolved m, w')
    ∧ Bluebird.mapped m
      = map (λ dependency,
               Raft.getDependency {| Raft.root := root this |} dependency
                 {| Raft.platform := BuildConfig.platform settings;
                    Raft.architecture := BuildConfig.architecture settings |})
            dependencies
    ∧ map Raft.name dependencies = map RaftFile.name ds
    ∧ Bluebird.continuation m = Project.build raftCmakeFile this settings
    ∧ events start w
      = [Runtime.Logged "Project"
           ("Getting " +:+ pretty (length ds) +:+ " for the project")]
    ∧ (ds = [] → Bluebird.continued (Bluebird.initial m w') = true).
Proof.
  intros Hloaded Hok start.
  destruct (run_build_callback raftCmakeFile settings this w _ Hloaded)
    as (w' & Hrun & Hfs & Htrace).
  rewrite Hok in Hrun, Htrace. fold start in Hrun.
  pose proof (createDependencies_ok _ _ Hok) as Hall.
  eexists _, w'. split; [exact Hrun|]. cbn [Bluebird.mapped Bluebird.continuation].
  split; [reflexivity|]. split; [|split; [reflexivity|split]].
  - clear -Hall. induction Hall as [|d dep ds deps Hd _ IH]; [reflexivity|].
    cbn [map]. by rewrite IH, (createDependency_name _ _ Hd).
  - unfold events. rewrite Hrun. cbn [snd]. rewrite Htrace, drop_app_length.
    by rewrite (Forall2_length _ _ _ Hall).
  - intros ->. inversion Hall; subst. reflexivity.
Qed.

(** X13: what [load] puts on the heap is what [build] reads back.  When
    the manifest file can be read and [JSON.parse] accepts it, [load] is
    fulfilled with a project of the same root that is loaded with the
    descriptors of the manifest, in their order; it logs the text and the
    parsed manifest and leaves the file system as it is. *)
Theorem load_round_trip (this : Project) (w : Runtime.World) (data : string)
    (ds : list RaftFile.DependencyDescriptor) :
  Fs.readFile (Runtime.fs w)
    (Raft.path (Raft.Path.append (root this) [Raft.Obj Project.RAFT_FILE])) = inr data →
  Runtime.json (Runtime.host w) data = Some {| RaftFile.dependencies := Some ds |} →
  ∃ p w',
    Runtime.run (Project.load this) w = (Runtime.Resolved p, w')
    ∧ root p = root this
    ∧ loaded_with p (Runtime.heap w') ds
    ∧ Runtime.heap w ⊆ Runtime.heap w'
    ∧ Runtime.fs w' = Runtime.fs w
    ∧ ∃ text, events (Project.load this) w
              = [Runtime.Logged "Project Data" data; Runtime.Logged "Project Data" text].
Proof.
  intros Hread Hjson. eexists _, _. split; [by apply run_load_ok|].
  destruct (Heap.alloc_root _ (Runtime.heap w)) as [r h] eqn:E.
  apply alloc_root_spec in E as (Hsub & a & Hr & Hds).
  cbn [root raftfile fst snd Runtime.emit Runtime.set_heap Runtime.heap Runtime.fs].
  split; [done|]. split; [by exists r, a|]. split; [done|]. split; [done|].
  eexists. unfold events. rewrite (run_load_ok _ _ _ _ Hread Hjson).
  cbn [snd Runtime.emit Runtime.set_heap Runtime.trace].
  rewrite <- app_assoc, drop_app_length. reflexivity.
Qed.

(** X14: how [load] fails.  When the manifest file cannot be read, [load]
    is rejected with the error of the file system and the world is as it
    was; when [JSON.parse] rejects the text, [load] is rejected with a
    [SyntaxError] after the one log line with the text, the heap and the
    file system as they were. *)
Theorem load_failures (this : Project) (w : Runtime.World) :
  let file := Raft.path (Raft.Path.append (root this) [Raft.Obj Project.RAFT_FILE]) in
  (∀ code, Fs.readFile (Runtime.fs w) file = inl code →
     Runtime.run (Project.load this) w = (Runtime.Rejected (Runtime.FsError code), w))
  ∧ (∀ data, Fs.readFile (Runtime.fs w) file = inr data →
       Runtime.json (Runtime.host w) data = None →
       Runtime.run (Project.load this) w
       = (Runtime.Rejected Runtime.SyntaxError,
          Runtime.emit (Runtime.Logged "Project Data" data) w)).
Proof.
  intros file. split.
  - intros code Hread. unfold Project.load, Project.Path_read.
    rewrite run_bind, run_bind, run_call. cbn [Runtime.handle fst snd].
    unfold Raft.Path.toString. fold file. by rewrite Hread.
  - intros data Hread Hjson. unfold Project.load, Project.Path_read.
    rewrite run_bind, run_bind, run_call. cbn [Runtime.handle fst snd].
    unfold Raft.Path.toString. fold file. rewrite Hread, run_ret.
    rewrite run_bind, run_raftlog, run_bind, run_call.
    cbn [Runtime.handle Runtime.emit Runtime.host]. by rewrite Hjson.
Qed.

(** ** [build] from the current working directory *)
Section BuildStart.
Import Runtime.

Lemma ancestor_chain_bound P chain :
  ancestor_chain P chain → length chain ≤ String.length (Raft.path P).
Proof.
  induction 1 as [P Hroot|P chain Hroot Hchain IH].
  - destruct P as [[|c s]]; [discriminate | simpl; lia].
  - assert (NodePath.isAbsolute (Raft.path P) = true) as Habs.
    { apply not_relative_isAbsolute. intros Hrel.
      apply (ancestor_chain_relative _ _ Hchain). by apply parent_relative. }
    destruct (dirname_absolute _ Habs) as [_ Hlt].
    destruct (decide (String.length (Raft.path P) ≤ 1)) as [Hle|Hgt].
    { apply absolute_length_1 in Hle; [|done]. destruct P as [s].
      cbn [Raft.path] in Hle. subst s. by rewrite isRoot_slash in Hroot. }
    cbn [length]. cbn [Raft.Path.parent Raft.path] in IH. lia.
Qed.

Lemma cwd_absolute disk :
  NodePath.isAbsolute ("/" +:+ JS.join "/" (Fs.cwd disk)) = true.
Proof. reflexivity. Qed.

End BuildStart.

(** X15: [build] does not hang in [Project.find]: the path of the current
    working directory is absolute, and as many iterations of the loop as
    the path has characters are enough for the search to end; [build]
    then is fulfilled with what it hands to [Promise.map], or
    rejected. *)
Theorem build_find_terminates (fuel : nat) (names : Main.BuildConfigNames)
    (raftCmakeFile : Raft.Path) (options : Main.BuildOptions) (w : Runtime.World) :
  String.length ("/" +:+ JS.join "/" (Fs.cwd (Runtime.fs w))) ≤ fuel →
  ∀ w', Runtime.run (Main.build fuel names raftCmakeFile options) w
        ≠ (Runtime.Resolved None, w').
Proof.
  intros Hfuel w'. unfold Main.build.
  rewrite run_bind. unfold Raft.Path.cwd.
  rewrite run_bind, run_call. cbn [Runtime.handle fst snd]. rewrite run_ret.
  set (P := Raft.mkPath _).
  assert (¬ relative P) as Habs.
  { apply not_relative_isAbsolute. apply cwd_absolute. }
  destruct (ancestor_chain_absolute P Habs) as [chain Hchain].
  pose proof (ancestor_chain_bound P chain Hchain) as Hlen.
  pose proof (find_loop_chain P chain Hchain fuel [] ltac:(cbn [Raft.path P] in *; lia))
    as Hloop.
  cbn [app] in Hloop. unfold Project.find. rewrite Hloop.
  rewrite run_bind.
  match goal with |- context [Runtime.run ?t w] =>
    destruct (Runtime.run t w) as [[project|e] w1] end; [|discriminate].
  rewrite run_bind.
  match goal with |- context [Runtime.run ?t w1] =>
    destruct (Runtime.run t w1) as [[m|e] w2] end; discriminate.
Qed.

Lemma build_find_terminates_witness :
  String.length ("/" +:+ JS.join "/" (Fs.cwd (Runtime.fs Example.world))) ≤ 19
  ∧ ∀ w', Runtime.run
            (Main.build 19
               {| Main.Platform_Host := "host"; Main.Platform_Android := "android";
                  Main.Architecture_Host := "host";
                  Main.Architecture_armeabi := "armeabi" |}
               Example.raftCmakeFile
               {| Main.platform := None; Main.architecture := None |})
            Example.world
          ≠ (Runtime.Resolved None, w').
Proof.
  assert (String.length ("/" +:+ JS.join "/" (Fs.cwd (Runtime.fs Example.world))) ≤ 19)
    as Hlen by (vm_compute; lia).
  split; [exact Hlen|].
  exact (build_find_terminates 19 _ _ _ Example.world Hlen).
Defined.

(** X16: which descriptors [createDependency] accepts.  It returns a
    dependency exactly when the repository type is present and not empty
    and the build system is [cmake]; the dependency then has the name of
    the descriptor; a missing or empty repository type is reported before
    the build system is looked at. *)
Theorem createDependency_cases (d : RaftFile.DependencyDescriptor) :
  ((∃ dependency, Raft.createDependency d = inr dependency)
   ↔ JS.truthy_opt (RaftFile.type (RaftFile.repository d)) = true
     ∧ RaftFile.buildSystem d = "cmake")
  ∧ (∀ dependency, Raft.createDependency d = inr dependency →
       Raft.name dependency = RaftFile.name d)
  ∧ (JS.truthy_opt (RaftFile.type (RaftFile.repository d)) = false →
     Raft.createDependency d = inl (Runtime.JsError "Unknown repository type"))
  ∧ (JS.truthy_opt (RaftFile.type (RaftFile.repository d)) = true →
     RaftFile.buildSystem d ≠ "cmake" →
     Raft.createDependency d = inl (Runtime.JsError "unknown build system type")).
Proof.
  unfold Raft.createDependency, Raft.createRepository.
  destruct (JS.truthy_opt _) eqn:Et.
  - destruct (JS.str_eqb (RaftFile.buildSystem d) "cmake") eqn:Eb.
    + apply str_eqb_eq in Eb.
      split; [split; [done | intros _; by eexists]|].
      split; [by intros dependency [= <-]|].
      split; [discriminate | done].
    + apply str_eqb_neq in Eb.
      split; [split; [by intros [? ?] | by intros [_ ?]]|].
      split; [discriminate|]. split; [discriminate | done].
  - split; [split; [by intros [? ?] | by intros [? _]]|].
    split; [discriminate|]. split; [done | discriminate].
Qed.

(** ** The commands of [Project.build] and of a repository dependency *)
Section BuildCommands.
Import Runtime.

Lemma run_build_deploy raftCmakeFile this build w :
  BuildConfig.isDeploy build = true →
  run (Project.build raftCmakeFile this build) w
  = (Rejected (JsError "deploy has not been implemented"), w).
Proof. intros Hd. unfold Project.build, Project.dirForBuild. by rewrite Hd. Qed.

End BuildCommands.

(** X17: [Project.build].  For a deploy build it throws
    [deploy has not been implemented], which rejects the [then] that
    calls it, and nothing else happens.  Otherwise, on
    a host where every command succeeds, it is fulfilled and spawns
    exactly two commands in the build directory of the project: [cmake]
    on the project root with the six options of [cmakeOptions] in their
    order, then [make -j8]. *)
Theorem project_build_commands (raftCmakeFile : Raft.Path) (this : Project)
    (build : BuildConfig.Build) (w : Runtime.World) :
  let task := Project.build raftCmakeFile this build in
  (BuildConfig.isDeploy build = true →
   Runtime.run task w
   = (Runtime.Rejected (Runtime.JsError "deploy has not been implemented"), w))
  ∧ (BuildConfig.isDeploy build = false →
     all_succeed (Runtime.host w) →
     let dir := Raft.path (Raft.Path.append (root this) [Raft.Obj Project.BUILD_DIR]) in
     (Runtime.run task w).1 = Runtime.Resolved tt
     ∧ spawned (events task w)
       = [ ("cmake " +:+ Raft.path (root this)
            +:+ " -DRAFT=" +:+ Raft.path raftCmakeFile
            +:+ " -DRAFT_INCLUDE_DIR="
            +:+ Raft.path (Project.dirForDependencyInc this build)
            +:+ " -DRAFT_LIB_DIR="
            +:+ Raft.path (Project.dirForDependencyLib this build)
            +:+ " -DRAFT_IS_DESKTOP=true -DRAFT_IS_ANDROID=false -DCMAKE_INSTALL_PREFIX="
            +:+ Raft.path (Raft.Path.append (root this) [Raft.Str "install"]),
            Some dir);
           ("make -j8", Some dir) ]).
Proof.
  intros task. split; [apply run_build_deploy|].
  intros Hd Hok dir.
  assert (runs_ok task w
            ([("cmake " +:+ Raft.path (root this)
               +:+ " -DRAFT=" +:+ Raft.path raftCmakeFile
               +:+ " -DRAFT_INCLUDE_DIR="
               +:+ Raft.path (Project.dirForDependencyInc this build)
               +:+ " -DRAFT_LIB_DIR="
               +:+ Raft.path (Project.dirForDependencyLib this build)
               +:+ " -DRAFT_IS_DESKTOP=true -DRAFT_IS_ANDROID=false -DCMAKE_INSTALL_PREFIX="
               +:+ Raft.path (Raft.Path.append (root this) [Raft.Str "install"]),
               Some dir)]
             ++ [("make -j8", Some dir)])) as (a & w' & Hrun & Hsp & _).
  { unfold task, Project.build, Project.dirForBuild. rewrite Hd.
    apply runs_ok_bind.
    - pose proof (runs_ok_configure (root this)
                    (Raft.Path.append (root this) [Raft.Obj Project.BUILD_DIR])
                    (Project.cmakeOptions raftCmakeFile this this build) w Hok) as H.
      unfold Project.cmakeOptions in H.
      cbn [map JS.join fst snd Raft.Path.toString] in H.
      unfold Raft.Path.toString in H.
      replace (Raft.path (Raft.Path.append (root this) [Raft.Obj Project.BUILD_DIR])) with dir in H by reflexivity.
      match type of H with runs_ok _ _ [(?c, _)] =>
        match goal with |- runs_ok _ _ [(?c', _)] =>
          replace c' with c; [exact H|] end end.
      rewrite ?str_app_assoc. cbn [String.append]. reflexivity.
    - intros _ w1 H1. apply runs_ok_any, runs_ok_build. by rewrite H1. }
  split.
  - rewrite Hrun. by destruct a.
  - apply spawned_events. rewrite Hrun. exact Hsp.
Qed.

(** X18: the pipeline of a dependency that is only a repository.  On a
    host where every command succeeds it is fulfilled and the clone into
    the source directory is the only command it spawns: its build and
    install steps do nothing. *)
Theorem repository_pipeline_commands (project : Raft.Project) (name uri : string)
    (build_ : Raft.Build) (w : Runtime.World) :
  all_succeed (Runtime.host w) →
  let pipeline :=
    Raft.getDependency project
      (Raft.RepositoryDependency name (Raft.GitRepository uri)) build_ in
  (Runtime.run pipeline w).1 = Runtime.Resolved tt
  ∧ spawned (events pipeline w)
    = [ ("git clone " +:+ uri +:+ " "
         +:+ Raft.path (Raft.Project.dirForDependency project name), None) ].
Proof.
  intros Hok pipeline.
  assert (∀ w', Runtime.host w' = Runtime.host w → all_succeed (Runtime.host w'))
    as Hok' by (by intros w' ->).
  assert (runs_ok pipeline w
            ([] ++ [("git clone " +:+ uri +:+ " "
                     +:+ Raft.path (Raft.Project.dirForDependency project name), None)]
             ++ [] ++ [] ++ [] ++ [] ++ []))
    as (a & w' & Hrun & Hsp & _).
  { unfold pipeline, Raft.getDependency.
    apply runs_ok_bind; [apply runs_ok_raftlog|]. intros _ w1 H1.
    apply runs_ok_bind.
    { apply runs_ok_any, runs_ok_getRepo. by apply Hok'. }
    intros _ w2 H2. apply runs_ok_bind; [apply runs_ok_raftlog|]. intros _ w3 H3.
    apply runs_ok_bind.
    { exists tt, w3. cbn [Raft.build Raft.RepositoryDependency]. by rewrite app_nil_r. }
    intros _ w5 H5. apply runs_ok_bind; [apply runs_ok_raftlog|]. intros _ w6 H6.
    apply runs_ok_bind.
    { exists tt, w6. cbn [Raft.install Raft.RepositoryDependency]. by rewrite app_nil_r. }
    intros _ w7 H7. apply runs_ok_raftlog. }
  split; [rewrite Hrun; by destruct a|].
  apply spawned_events. rewrite Hrun. exact Hsp.
Qed.

Lemma repository_pipeline_commands_witness :
  spawned
    (events
       (Raft.getDependency {| Raft.root := Raft.mkPath "/home/user/game" |}
          (Raft.RepositoryDependency "foo" (Raft.GitRepository "https://example/foo.git"))
          {| Raft.platform := "host"; Raft.architecture := "host" |})
       Example.world)
  = [("git clone https://example/foo.git /home/user/game/Raft/libs/src/foo", None)].
Proof.
  assert (all_succeed (Runtime.host Example.world)) as Hok.
  { intros command cwd disk. reflexivity. }
  apply (repository_pipeline_commands {| Raft.root := Raft.mkPath "/home/user/game" |}
           "foo" "https://example/foo.git"
           {| Raft.platform := "host"; Raft.architecture := "host" |}
           Example.world Hok).
Defined.

Lemma derived_dirs_disjoint_witness :
  plain "foo" ∧ plain "bar" ∧ plain "host"
  ∧ Project.dirForDependency Example.project "foo"
    ≠ Project.dirForDependencyBuild Example.project "bar" Example.settings.
Proof.
  assert (plain "foo") as Hfoo by (by apply plain_literal).
  assert (plain "bar") as Hbar by (by apply plain_literal).
  assert (plain "host") as Hhost by (by apply plain_literal).
  split; [exact Hfoo|]. split; [exact Hbar|]. split; [exact Hhost|].
  exact (proj1 (proj2 (derived_dirs_disjoint Example.project "foo" "bar"
                         Example.settings Example.settings
                         Hfoo Hbar Hhost Hhost Hhost Hhost))).
Defined.

Lemma pipeline_stops_at_failed_clone_witness :
  spawned
    (events
       (Raft.getDependency {| Raft.root := Raft.mkPath "/home/user/game" |}
          Example.foo {| Raft.platform := "host"; Raft.architecture := "host" |})
       Faults.offline)
  = [("git clone https://example/foo.git /home/user/game/Raft/libs/src/foo", None)].
Proof.
  apply (pipeline_stops_at_failed_clone
           {| Raft.root := Raft.mkPath "/home/user/game" |} "foo"
           "https://example/foo.git"
           {| Raft.platform := "host"; Raft.architecture := "host" |}
           Faults.offline (Runtime.ExecError "offline") eq_refl).
Defined.

Lemma example_loaded_with :
  loaded_with Example.project (Runtime.heap Example.loaded)
    (default [] (RaftFile.dependencies Example.manifest)).
Proof.
  exists 3%positive, 2%positive. split; [reflexivity|]. split; [reflexivity|].
  exists [1%positive]. split; [reflexivity|].
  apply Forall2_cons_2; [reflexivity|apply Forall2_nil_2].
Qed.

Lemma scons_loaded_with :
  loaded_with Example.project (Runtime.heap Faults.loaded_scons) [Faults.scons].
Proof.
  exists 3%positive, 2%positive. split; [reflexivity|]. split; [reflexivity|].
  exists [1%positive]. split; [reflexivity|].
  apply Forall2_cons_2; [reflexivity|apply Forall2_nil_2].
Qed.

Lemma build_fails_fast_witness :
  (Runtime.run (Main.build_callback Example.raftCmakeFile Example.settings Example.project)
     Faults.loaded_scons).1
  = Runtime.Rejected (Runtime.JsError "unknown build system type").
Proof.
  apply (build_fails_fast Example.raftCmakeFile Example.settings Example.project
           Faults.loaded_scons [] [] Faults.scons
           (Runtime.JsError "unknown build system type")
           scons_loaded_with (Forall_nil_2 _) eq_refl).
Defined.

Lemma build_starts_pipelines_witness :
  ∃ m w',
    Runtime.run (Main.build_callback Example.raftCmakeFile Example.settings Example.project)
      Example.loaded = (Runtime.Resolved m, w')
    ∧ Bluebird.mapped m = Bluebird.mapped Example.fan_out.
Proof.
  destruct (build_starts_pipelines Example.raftCmakeFile Example.settings Example.project
              Example.loaded _ [Example.foo] example_loaded_with eq_refl)
    as (m & w' & Hrun & Hmapped & _).
  exists m, w'. split; [exact Hrun|exact Hmapped].
Defined.

Lemma load_round_trip_witness :
  ∃ p w',
    Runtime.run (Project.load (mkProject (Raft.mkPath "/home/user/game") None))
      Example.world = (Runtime.Resolved p, w')
    ∧ loaded_with p (Runtime.heap w')
        (default [] (RaftFile.dependencies Example.manifest)).
Proof.
  destruct (load_round_trip (mkProject (Raft.mkPath "/home/user/game") None)
              Example.world "manifest"
              (default [] (RaftFile.dependencies Example.manifest)) eq_refl eq_refl)
    as (p & w' & Hrun & _ & Hloaded & _).
  exists p, w'. split; [exact Hrun|exact Hloaded].
Defined.

Lemma load_failures_witness :
  Runtime.run (Project.load (mkProject (Raft.mkPath "/home/user") None)) Example.world
  = (Runtime.Rejected (Runtime.FsError Fs.ENOENT), Example.world).
Proof.
  apply (proj1 (load_failures (mkProject (Raft.mkPath "/home/user") None) Example.world)
           Fs.ENOENT eq_refl).
Defined.

Lemma project_build_commands_witness :
  spawned (events (Project.build Example.raftCmakeFile Example.project Example.settings)
             Example.world)
  = [ ("cmake /home/user/game -DRAFT=/opt/raft/raft.cmake -DRAFT_INCLUDE_DIR=/home/user/game/Raft/libs/install/host/host/include -DRAFT_LIB_DIR=/home/user/game/Raft/libs/install/host/host/lib -DRAFT_IS_DESKTOP=true -DRAFT_IS_ANDROID=false -DCMAKE_INSTALL_PREFIX=/home/user/game/install",
       Some "/home/user/game/build");
      ("make -j8", Some "/home/user/game/build") ].
Proof.
  assert (all_succeed (Runtime.host Example.world)) as Hok.
  { intros command cwd disk. reflexivity. }
  apply (proj2 (project_build_commands Example.raftCmakeFile Example.project
                  Example.settings Example.world) eq_refl Hok).
Defined.
